(** * Account service: the transfer engine of [main.py]

    A shallow embedding of the account service (FastAPI handlers over a
    SQLAlchemy session) and the properties of its transfer engine.

    - Money is a Python [float] / SQL [Float]: IEEE-754 binary64, modelled
      with the Standard Library's executable specification [SpecFloat]
      at precision 53 and maximal exponent 1024.
    - The persistent store is the pair of tables [accounts] and
      [transactions]; a handler works in a session whose staged writes
      reach the store only at [commit].
    - A handler is a computation in a state-and-exception monad over the
      session, so that [raise], [try .. except] and [try .. finally] read
      as in the source. *)

From Stdlib Require Import ZArith Lia Bool List.
From Stdlib Require Import Floats.SpecFloat.
From stdpp Require Import gmap strings list fin_maps pretty.

Open Scope Z_scope.

(* ===================================================================== *)
(** ** Binary64 floating point: Python's [float], SQL's [Float] *)
(* ===================================================================== *)

Definition prec : Z := 53.
Definition emax : Z := 1024.

Definition float : Type := spec_float.

(** A [spec_float] is a binary64 value when its mantissa is canonical
    and its exponent is in range. *)
Definition is_float (x : float) : Prop := valid_binary prec emax x = true.

Definition fadd : float -> float -> float := SFadd prec emax.
Definition fsub : float -> float -> float := SFsub prec emax.
Definition flt : float -> float -> bool := SFltb.
Definition fle : float -> float -> bool := SFleb.
(** Python's [x > y]. *)
Definition fgt (x y : float) : bool := flt y x.

Definition fzero : float := S754_zero false.

(** Python truthiness of a float: false exactly for [0.0] and [-0.0]. *)
Definition float_truthy (x : float) : bool :=
  match x with
  | S754_zero _ => false
  | _ => true
  end.

(** The binary64 nearest to the positive rational [n / d], ties to even,
    with sign [s]: the division core followed by the rounding step that
    [SFdiv] itself uses, applied to integer operands of any size. *)
Definition float_of_ratio (s : bool) (n d : positive) : float :=
  let '(m, e, l) := SFdiv_core_binary prec emax (Zpos n) 0 (Zpos d) 0 in
  binary_round_aux prec emax s m e l.

(** [float(Decimal)] for a decimal with at most two fractional digits,
    given as its number of hundredths.  Python converts a [Decimal]
    through its decimal string, which is correctly rounded. *)
Definition float_of_cents (c : Z) : float :=
  match c with
  | Z0 => fzero
  | Zpos p => float_of_ratio false p 100
  | Zneg p => float_of_ratio true p 100
  end.

(** The exact value of a finite binary64 in units of [2^-1074], the
    smallest positive binary64; [None] for infinities and NaN. *)
Definition quantum_exp : Z := 1074.

Definition exact_value (x : float) : option Z :=
  match x with
  | S754_zero _ => Some 0
  | S754_finite s m e =>
      Some (cond_Zopp s (Zpos m * 2 ^ (e + quantum_exp)))
  | _ => None
  end.

(** The exact value of [c] hundredths in the same unit, times 100. *)
Definition exact_cents (c : Z) : Z := c * 2 ^ quantum_exp.

(** [0 <= x]: [x] is a zero, a positive finite number or [+inf]. *)
Definition nonneg (x : float) : Prop := fle fzero x = true.

(** A float that is neither infinite nor NaN. *)
Definition is_finite (x : float) : Prop :=
  match x with
  | S754_zero _ | S754_finite _ _ _ => True
  | _ => False
  end.

(** [x] is a number: not NaN. *)
Definition is_number (x : float) : Prop := x <> S754_nan.

(** The shapes a rounding of the positive [mx * 2^ex] to sign [s] can
    take, for [D = Zdigits2 mx + ex]: zero only below the subnormal
    range, infinity only above the largest exponent, else a canonical
    finite float. *)
Inductive rounded (s : bool) (D : Z) : float -> Prop :=
| rounded_zero : D - 53 < -1074 -> rounded s D (S754_zero s)
| rounded_finite m e :
    bounded prec emax m e = true ->
    Z.max (D - 53) (-1074) <= e <= Z.max (D - 53) (-1074) + 1 ->
    rounded s D (S754_finite s m e)
| rounded_infinity : 971 <= Z.max (D - 53) (-1074) -> rounded s D (S754_infinity s).

(* ===================================================================== *)
(** ** Naive datetimes *)
(* ===================================================================== *)

(** A [date] is its proleptic Gregorian ordinal; a naive [datetime] is a
    date and the microsecond of the day.  Comparison is chronological. *)
Record datetime := mk_datetime { dt_date : Z; dt_micro : Z }.

Definition time_min : Z := 0.
Definition time_max : Z := 86399999999.

Definition datetime_combine (d : Z) (t : Z) : datetime :=
  {| dt_date := d; dt_micro := t |}.

Definition datetime_le (a b : datetime) : bool :=
  (dt_date a <? dt_date b) || ((dt_date a =? dt_date b) && (dt_micro a <=? dt_micro b)).

(* ===================================================================== *)
(** ** Tables *)
(* ===================================================================== *)

(** A row of [accounts].  The unique column [account_id] is the key under
    which the row is stored in the table below. *)
Module Account.
Record t := mk {
  id : Z;
  customer_id : Z;
  account_number : string;
  account_type : option string;
  balance : float;
  currency : option string;
  status : string;
  created_at : datetime;
  customer_name : option string
}.

(** [acc.balance = b] *)
Definition set_balance (a : t) (b : float) : t :=
  {| id := id a; customer_id := customer_id a;
     account_number := account_number a; account_type := account_type a;
     balance := b; currency := currency a; status := status a;
     created_at := created_at a; customer_name := customer_name a |}.

(** [acc.status = s] *)
Definition set_status (a : t) (s : string) : t :=
  {| id := id a; customer_id := customer_id a;
     account_number := account_number a; account_type := account_type a;
     balance := balance a; currency := currency a; status := s;
     created_at := created_at a; customer_name := customer_name a |}.
End Account.

Module Transaction.
Record t := mk {
  id : Z;
  from_account : Z;
  to_account : Z;
  amount : float;
  created_at : datetime
}.
End Transaction.

(** The store.  [account_id] is unique and every query of the service
    selects by it, so the accounts table is a finite map from
    [account_id] to its row; the transaction log is kept in insertion
    order. *)
Record DB := mk_DB {
  accounts : gmap Z Account.t;
  transactions : list Transaction.t
}.

(* ===================================================================== *)
(** ** Requests, responses, errors *)
(* ===================================================================== *)

(** [condecimal(max_digits=20, decimal_places=2)] is a whole number of
    hundredths with at most twenty digits. *)
Definition max_cents : Z := 10 ^ 20.

Record CreateAccountRequest := mk_CreateAccountRequest {
  car_customer_id : Z;
  car_account_number : string;
  car_account_type : option string;
  (** hundredths; [None] is an explicit null *)
  car_initial_balance : option Z;
  car_currency : option string;
  car_customer_name : option string
}.

Record StatusChangeRequest := mk_StatusChangeRequest { scr_status : string }.

(** [amount: condecimal(gt=0, max_digits=20, decimal_places=2)], in
    hundredths; [gt=0] makes it a [positive]. *)
Record TransferRequest := mk_TransferRequest {
  from_account : Z;
  to_account : Z;
  amount : positive
}.

(** The request validator's digit bound on the amount. *)
Definition amount_in_range (req : TransferRequest) : Prop :=
  Zpos (amount req) < max_cents.

Record TransferResponse := mk_TransferResponse {
  resp_from_account : Z;
  resp_to_account : Z;
  resp_amount : float
}.

(** The [detail] of an [HTTPException], with the values that the source
    formats into the message kept as fields. *)
Inductive Detail :=
| must_differ                    (* from_account and to_account must differ *)
| account_not_found              (* account not found *)
| not_found                      (* source or destination account not found *)
| source_cannot_transact (status : string)
| destination_cannot_receive (status : string)
| insufficient_funds
| daily_limit_exceeded (limit already_transferred_today attempting : float)
| transfer_failed.

Inductive Exn :=
| HTTPException (status_code : Z) (detail : Detail)
| SQLAlchemyError
| TypeError
| OverflowError.

(** The integers that the store can hold and that its driver can bind as
    a parameter of a statement: 64 bits, signed.  The validators of the
    requests take any [int]. *)
Definition in_int64 (k : Z) : bool := (- 2 ^ 63 <=? k) && (k <? 2 ^ 63).

(* ===================================================================== *)
(** ** Sessions and the handler monad *)
(* ===================================================================== *)

(** The locks of the store.  The engine is created with the sqlite3
    option [check_same_thread], so the store is SQLite, whose only lock is
    the write lock of the database: a session takes it with the first
    write of a flush and holds it to the end of its transaction.  SQLite
    has no row locks, and the SQLite dialect renders no [FOR UPDATE]. *)
Inductive Lock :=
| WriteLock.

(** What a session does that bears on locks: a read made
    [with_for_update()], which on this store is a plain [SELECT] and takes
    no lock; the taking of a lock; and the end of the transaction (commit,
    rollback or close), which releases all. *)
Inductive Event :=
| EvForUpdate (k : Z)
| EvLock (l : Lock)
| EvRelease.

Record Session := mk_Session {
  committed : DB;        (* the store as other sessions see it *)
  pending : DB;          (* this session's view, with its staged writes *)
  events : list Event    (* events so far, oldest first *)
}.

Inductive Outcome (A : Type) :=
| Return (a : A)
| Raise (e : Exn).
Arguments Return {A} a.
Arguments Raise {A} e.

Definition M (A : Type) : Type := Session -> Outcome A * Session.

Definition ret {A} (a : A) : M A := fun s => (Return a, s).

Definition bind {A B} (m : M A) (f : A -> M B) : M B :=
  fun s =>
    match m s with
    | (Return a, s') => f a s'
    | (Raise e, s') => (Raise e, s')
    end.

Definition raise {A} (e : Exn) : M A := fun s => (Raise e, s).

(** [try: body except Exception as e: handler e] *)
Definition try_except {A} (body : M A) (handler : Exn -> M A) : M A :=
  fun s =>
    match body s with
    | (Return a, s') => (Return a, s')
    | (Raise e, s') => handler e s'
    end.

(** [try: body finally: fin], for a [fin] that does not raise. *)
Definition try_finally {A} (body : M A) (fin : M unit) : M A :=
  fun s =>
    match body s with
    | (o, s') => (o, snd (fin s'))
    end.

Declare Scope handler_scope.
Delimit Scope handler_scope with handler.
Notation "x <- m ;; k" := (bind m (fun x => k))
  (at level 100, m at next level, right associativity) : handler_scope.
Notation "m ;;; k" := (bind m (fun _ => k))
  (at level 100, right associativity) : handler_scope.
Open Scope handler_scope.

(** [if c: raise e] *)
Definition raise_if (c : bool) (e : Exn) : M unit :=
  if c then raise e else ret tt.

(** Locks held after a run of events. *)
Fixpoint locks_held (held : list Lock) (evs : list Event) : list Lock :=
  match evs with
  | [] => held
  | EvLock l :: evs' => locks_held (held ++ [l]) evs'
  | EvForUpdate _ :: evs' => locks_held held evs'
  | EvRelease :: evs' => locks_held [] evs'
  end.

(** The locks taken during a run of events, in order. *)
Fixpoint locks_taken (evs : list Event) : list Lock :=
  match evs with
  | [] => []
  | EvLock l :: evs' => l :: locks_taken evs'
  | _ :: evs' => locks_taken evs'
  end.


Definition log_event (e : Event) : M unit :=
  fun s => (Return tt,
            {| committed := committed s; pending := pending s;
               events := events s ++ [e] |}).

(** [db.query(Account).filter(Account.account_id == k).first()].
    The driver binds [k] as a parameter of the [SELECT], and raises
    [OverflowError] for a [k] that is no 64-bit integer; no row of the
    table has such a key, so a key that finds its row has been bound. *)
Definition query_account (k : Z) : M (option Account.t) :=
  fun s =>
    match accounts (pending s) !! k with
    | Some acc => (Return (Some acc), s)
    | None => if in_int64 k then (Return None, s) else (Raise OverflowError, s)
    end.

(** [db.query(Account).filter(Account.account_id == k).with_for_update().first()]:
    the same [SELECT], since the dialect of the store leaves the
    [FOR UPDATE] out. *)
Definition query_account_for_update (k : Z) : M (option Account.t) :=
  o <- query_account k ;;
  log_event (EvForUpdate k) ;;;
  ret o.

(** [db.add(acc)] for the account row with [account_id = k]. *)
Definition add_account (k : Z) (a : Account.t) : M unit :=
  fun s => (Return tt,
            {| committed := committed s;
               pending := {| accounts := <[k := a]> (accounts (pending s));
                             transactions := transactions (pending s) |};
               events := events s |}).

(** The next value of an autoincrement key. *)
Definition next_id (ids : list Z) : Z := 1 + foldr Z.max 0 ids.

(** [db.add(Transaction(from_account=f, to_account=t, amount=a))]; the
    store assigns [id], and [created_at] defaults to [datetime.utcnow()]. *)
Definition add_transaction (utcnow : datetime) (f t : Z) (a : float) : M unit :=
  fun s =>
    let log := transactions (pending s) in
    let tx := {| Transaction.id := next_id (map Transaction.id log);
                 Transaction.from_account := f;
                 Transaction.to_account := t;
                 Transaction.amount := a;
                 Transaction.created_at := utcnow |} in
    (Return tt,
     {| committed := committed s;
        pending := {| accounts := accounts (pending s); transactions := log ++ [tx] |};
        events := events s |}).

(** [db.commit()]: the staged writes are flushed and all reach the
    store, or the store raises and none does.  A unit of work that has
    something to write ([writes]) is flushed under the write lock of the
    store, one that has nothing to write sends nothing and takes no
    lock; a flush that fails may have taken the lock, which then is held
    until the transaction is ended. *)
Definition commit (writes fails : bool) : M unit :=
  fun s =>
    let lock := if writes then [EvLock WriteLock] else [] in
    if fails
    then (Raise SQLAlchemyError,
          {| committed := committed s; pending := pending s;
             events := events s ++ lock |})
    else (Return tt,
          {| committed := pending s; pending := pending s;
             events := events s ++ lock ++ [EvRelease] |}).

(** [db.rollback()] *)
Definition rollback : M unit :=
  fun s => (Return tt,
            {| committed := committed s; pending := committed s;
               events := events s ++ [EvRelease] |}).

(** [db.close()]: an open transaction is rolled back. *)
Definition close : M unit := rollback.

(** [db = SessionLocal()] *)
Definition new_session (db : DB) : Session :=
  {| committed := db; pending := db; events := [] |}.

(** One request served on a fresh session: the result, the store
    afterwards and the lock events of the call. *)
Definition call {A} (m : M A) (db : DB) : Outcome A * DB * list Event :=
  let '(o, s) := m (new_session db) in
  (o, committed s, events s).

(** What the handler reads from its environment during one call. *)
Record Env := mk_Env {
  today : Z;               (* date.today() *)
  utcnow : datetime;       (* datetime.utcnow() *)
  commit_fails : bool      (* whether the store faults at commit *)
}.

(* ===================================================================== *)
(** ** The handlers *)
(* ===================================================================== *)

(** [func.sum(column)]: NULL over no rows, else the running binary64 sum
    in row order, which is how SQLite adds up floating-point values
    before version 3.44.  Later versions carry a compensation term along
    (Kahan-Babuska-Neumaier), and their sum can differ from the running
    sum in the last place when three rows or more are added; over one or
    two rows the two agree. *)
Definition sql_sum (xs : list float) : option float :=
  match xs with
  | [] => None
  | x :: rest => Some (fold_left fadd rest x)
  end.

(** [func.coalesce(v, d)] *)
Definition sql_coalesce (v : option float) (d : float) : float := default d v.

(** [func.max(Account.account_id)]: NULL on an empty table. *)
Definition sql_max_account_id (t : gmap Z Account.t) : option Z :=
  foldr (fun k acc => Some (match acc with None => k | Some m => Z.max k m end))
        None (map fst (map_to_list t)).

(** Whether a row already carries this [account_number] (the column is
    declared unique, so inserting a second one fails at commit). *)
Definition account_number_taken (n : string) (t : gmap Z Account.t) : bool :=
  existsb (fun r => String.eqb (Account.account_number (snd r)) n) (map_to_list t).

(** [str.upper()] on text that is ASCII throughout, where it changes the
    letters [a] to [z] and nothing else.  The handlers below take
    [str.upper()] itself as a parameter; this is the function that the
    sample requests, which are ASCII, are run with. *)
Definition ascii_upper (c : Ascii.ascii) : Ascii.ascii :=
  let n := Ascii.nat_of_ascii c in
  if ((97 <=? n) && (n <=? 122))%nat then Ascii.ascii_of_nat (n - 32) else c.

Fixpoint upper (s : string) : string :=
  match s with
  | EmptyString => EmptyString
  | String c s' => String (ascii_upper c) (upper s')
  end.

(** The rows that the daily sum selects:
    [from_account == k], [created_at >= start], [created_at <= end]. *)
Definition sent_in_window (k : Z) (start stop : datetime) (tx : Transaction.t) : bool :=
  (Transaction.from_account tx =? k)
  && datetime_le start (Transaction.created_at tx)
  && datetime_le (Transaction.created_at tx) stop.

Definition sent_today (day : Z) (k : Z) (log : list Transaction.t) : list Transaction.t :=
  List.filter (sent_in_window k (datetime_combine day time_min)
                                (datetime_combine day time_max)) log.

(** The value [todays_transferred_sum] computes over a transaction log:
    [float(s or 0.0)] for the coalesced sum [s]. *)
Definition transferred_today (day : Z) (k : Z) (log : list Transaction.t) : float :=
  let s := sql_coalesce (sql_sum (map Transaction.amount (sent_today day k log))) fzero in
  if float_truthy s then s else fzero.

(** [todays_transferred_sum(db, from_account_id)] *)
Definition todays_transferred_sum (env : Env) (from_account_id : Z) : M float :=
  fun s => (Return (transferred_today (today env) from_account_id
                                      (transactions (pending s))), s).

Section Service.

(** [DAILY_LIMIT = float(os.environ.get("DAILY_TRANSFER_LIMIT", "200000"))],
    read once when the module is loaded. *)
Variable DAILY_LIMIT : float.

(** [POST /transfer] *)
Definition transfer (env : Env) (req : TransferRequest) : M TransferResponse :=
  try_finally
    (raise_if (from_account req =? to_account req)
              (HTTPException 400 must_differ) ;;;
     src <- query_account_for_update (from_account req) ;;
     dst <- query_account_for_update (to_account req) ;;
     match src, dst with
     | Some src, Some dst =>
         raise_if (negb (String.eqb (Account.status src) "ACTIVE"))
                  (HTTPException 400 (source_cannot_transact (Account.status src))) ;;;
         raise_if (negb (String.eqb (Account.status dst) "ACTIVE"))
                  (HTTPException 400 (destination_cannot_receive (Account.status dst))) ;;;
         let amt := float_of_cents (Zpos (amount req)) in
         raise_if (flt (Account.balance src) amt)
                  (HTTPException 400 insufficient_funds) ;;;
         transferred_today <- todays_transferred_sum env (from_account req) ;;
         raise_if (fgt (fadd transferred_today amt) DAILY_LIMIT)
                  (HTTPException 400
                     (daily_limit_exceeded DAILY_LIMIT transferred_today amt)) ;;;
         try_except
           (let src := Account.set_balance src (fsub (Account.balance src) amt) in
            let dst := Account.set_balance dst (fadd (Account.balance dst) amt) in
            add_account (from_account req) src ;;;
            add_account (to_account req) dst ;;;
            add_transaction (utcnow env) (from_account req) (to_account req) amt ;;;
            commit true (commit_fails env))
           (fun _ => rollback ;;; raise (HTTPException 500 transfer_failed)) ;;;
         ret {| resp_from_account := from_account req;
                resp_to_account := to_account req;
                resp_amount := amt |}
     | _, _ => raise (HTTPException 404 not_found)
     end)
    close.

End Service.

(** [POST /accounts] *)
Definition create_account (env : Env) (req : CreateAccountRequest) : M (Z * float) :=
  try_finally
    (fun s =>
       let table := accounts (pending s) in
       let max_id := default 0 (sql_max_account_id table) in
       let account_id := max_id + 1 in
       match car_initial_balance req with
       | None => (Raise TypeError, s)
       | Some cents =>
           let name :=
             match car_customer_name req with
             | Some n => if String.eqb n "" then None else Some n
             | None => None
             end in
           let acc :=
             {| Account.id := next_id (map (fun r => Account.id (snd r)) (map_to_list table));
                Account.customer_id := car_customer_id req;
                Account.account_number := car_account_number req;
                Account.account_type := car_account_type req;
                Account.balance := float_of_cents cents;
                (* a [None] is left out of the INSERT, and the default
                   of the column, ["INR"], applies *)
                Account.currency := Some (default "INR" (car_currency req));
                Account.status := "ACTIVE";
                Account.customer_name :=
                  Some (default ("Customer " +:+ pretty (car_customer_id req)) name);
                Account.created_at := utcnow env |} in
           (add_account account_id acc ;;;
            (* [db.commit()]: the driver binds the integers of the new
               row, then the store runs the INSERT *)
            raise_if (negb (in_int64 account_id && in_int64 (car_customer_id req)))
                     OverflowError ;;;
            commit true (commit_fails env
                    || account_number_taken (car_account_number req) table) ;;;
            ret (account_id, Account.balance acc)) s
       end)
    close.

(** [GET /accounts/{account_id}] *)
Definition get_account (account_id : Z) : M Account.t :=
  try_finally
    (acc <- query_account account_id ;;
     match acc with
     | None => raise (HTTPException 404 account_not_found)
     | Some acc => ret acc
     end)
    close.

Section Status.

(** Python's [str.upper()], which maps a text to its upper case by the
    case tables of Unicode: these belong to the interpreter, not to the
    repository, so the function is a parameter.  A [string] stands for
    the UTF-8 encoding of a text. *)
Variable str_upper : string -> string.

(** [POST /accounts/{account_id}/status] *)
Definition change_status (env : Env) (account_id : Z) (req : StatusChangeRequest)
  : M (Z * string) :=
  try_finally
    (acc <- query_account account_id ;;
     match acc with
     | None => raise (HTTPException 404 account_not_found)
     | Some row =>
         let acc := Account.set_status row (str_upper (scr_status req)) in
         add_account account_id acc ;;;
         (* the UPDATE is sent when the status has changed *)
         commit (negb (String.eqb (Account.status row) (Account.status acc)))
                (commit_fails env) ;;;
         ret (account_id, Account.status acc)
     end)
    close.

End Status.

(* ===================================================================== *)
(** ** Observations on a call *)
(* ===================================================================== *)

(** Two rows that agree on every column but [balance]. *)
Definition same_but_balance (a a' : Account.t) : Prop :=
  Account.id a' = Account.id a /\
  Account.customer_id a' = Account.customer_id a /\
  Account.account_number a' = Account.account_number a /\
  Account.account_type a' = Account.account_type a /\
  Account.currency a' = Account.currency a /\
  Account.customer_name a' = Account.customer_name a /\
  Account.status a' = Account.status a /\
  Account.created_at a' = Account.created_at a.

(** Every logged amount is a number that is not negative, as the amounts
    written by [transfer] are. *)
Definition log_nonneg (log : list Transaction.t) : Prop :=
  Forall (fun tx => nonneg (Transaction.amount tx)) log.

(** A timestamp that lies within calendar day [day]. *)
Definition on_day (day : Z) (t : datetime) : Prop :=
  dt_date t = day /\ time_min <= dt_micro t <= time_max.

(* ===================================================================== *)
(** ** Two transfers that overlap *)
(* ===================================================================== *)




Section Overlap.

Variable DAILY_LIMIT : float.



End Overlap.

(* ===================================================================== *)
(** ** Sample data *)
(* ===================================================================== *)

Definition sample_time : datetime := {| dt_date := 739558; dt_micro := 0 |}.

(** An account holding [cents] hundredths. *)
Definition sample_account (k : Z) (st : string) (cents : Z) : Account.t :=
  {| Account.id := k; Account.customer_id := k;
     Account.account_number := "ACC" +:+ pretty k;
     Account.account_type := Some "SAVINGS";
     Account.balance := float_of_cents cents;
     Account.currency := Some "INR"; Account.status := st;
     Account.created_at := sample_time;
     Account.customer_name := Some ("Customer " +:+ pretty k) |}.

Definition sample_db (rows : list (Z * Account.t)) : DB :=
  {| accounts := list_to_map rows; transactions := [] |}.

(** A call made on day [day], [us] microseconds after midnight, with the
    local date equal to the UTC date and a store that commits. *)
Definition sample_env (day us : Z) : Env :=
  {| today := day; utcnow := {| dt_date := day; dt_micro := us |};
     commit_fails := false |}.

(** The same call against a store that faults at commit. *)
Definition faulty_env (day us : Z) : Env :=
  {| today := day; utcnow := {| dt_date := day; dt_micro := us |};
     commit_fails := true |}.

(** Accounts 1 (5000.00) and 3 (1000.00) are active, account 2 (750.00)
    is frozen. *)
Definition sample_store : DB :=
  sample_db [(1, sample_account 1 "ACTIVE" 500000);
             (2, sample_account 2 "FROZEN" 75000);
             (3, sample_account 3 "ACTIVE" 100000)].

(** [float("200000")], the default limit, and [float("1000")]. *)
Definition default_limit : float := float_of_cents 20000000.
Definition limit_1000 : float := float_of_cents 100000.

(** The store after the move of a transfer has been committed: the two
    rows with their new balances and the log with its new entry. *)
Definition moved (env : Env) (req : TransferRequest) (src dst : Account.t) (db : DB) : DB :=
  let amt := float_of_cents (Zpos (amount req)) in
  {| accounts :=
       <[to_account req := Account.set_balance dst (fadd (Account.balance dst) amt)]>
         (<[from_account req := Account.set_balance src (fsub (Account.balance src) amt)]>
            (accounts db));
     transactions :=
       transactions db ++
       [ {| Transaction.id := next_id (map Transaction.id (transactions db));
            Transaction.from_account := from_account req;
            Transaction.to_account := to_account req;
            Transaction.amount := amt;
            Transaction.created_at := utcnow env |} ] |}.

(** The tests of [transfer] that admit the request, on rows [src] and
    [dst]. *)
Definition passes_checks (L : float) (env : Env) (req : TransferRequest) (db : DB)
    (src dst : Account.t) : Prop :=
  let amt := float_of_cents (Zpos (amount req)) in
  let sent := transferred_today (today env) (from_account req) (transactions db) in
  from_account req <> to_account req /\
  accounts db !! from_account req = Some src /\
  accounts db !! to_account req = Some dst /\
  Account.status src = "ACTIVE" /\
  Account.status dst = "ACTIVE" /\
  flt (Account.balance src) amt = false /\
  fgt (fadd sent amt) L = false.

Definition sample_day : Z := 739558.

(** A transfer of 100.00 from account 1 to account 3. *)
Definition sample_request : TransferRequest := mk_TransferRequest 1 3 10000.


(** A request to open an account with an initial balance of -50.00. *)
Definition overdrawn_request : CreateAccountRequest :=
  {| car_customer_id := 7; car_account_number := "ACC9";
     car_account_type := Some "SAVINGS"; car_initial_balance := Some (-5000);
     car_currency := Some "INR"; car_customer_name := None |}.

(** Account 1 holds 0.30 and account 2 holds 0.10. *)
Definition dimes_store : DB :=
  sample_db [(1, sample_account 1 "ACTIVE" 30); (2, sample_account 2 "ACTIVE" 10)].

(** Account 1 holds 0.11 and account 2 holds nothing. *)
Definition pennies_store : DB :=
  sample_db [(1, sample_account 1 "ACTIVE" 11); (2, sample_account 2 "ACTIVE" 0)].

(** The balance of account [k], if it exists. *)
Definition balance_of (db : DB) (k : Z) : option float :=
  Account.balance <$> accounts db !! k.

(** The store after a call to [transfer]. *)
Definition store_after (L : float) (env : Env) (req : TransferRequest) (db : DB) : DB :=
  snd (fst (call (transfer L env req) db)).

(** Every balance and every logged amount is a binary64 value. *)
Definition money_is_binary64 (db : DB) : Prop :=
  (forall k a, accounts db !! k = Some a -> is_float (Account.balance a)) /\
  Forall (fun tx => is_float (Transaction.amount tx)) (transactions db).

(** The exact sum of two finite floats, in units of [2^-1074]. *)
Definition exact_sum (x y : float) : option Z :=
  match exact_value x, exact_value y with
  | Some a, Some b => Some (a + b)
  | _, _ => None
  end.

(** An exact value, in units of [2^-1074], that some binary64 has. *)
Definition representable (v : Z) : Prop :=
  exists z, is_float z /\ exact_value z = Some v.

(** A call made in a process whose zone is UTC+05:30, [us] microseconds
    after 02:00 local time on day [day]: [date.today()] is [day] while
    [datetime.utcnow()] is 20:30 on the day before. *)
Definition east_of_utc_env (day us : Z) : Env :=
  {| today := day;
     utcnow := {| dt_date := day - 1; dt_micro := 73800000000 + us |};
     commit_fails := false |}.

(* ===================================================================== *)
(** ** The routes of the application *)
(* ===================================================================== *)

(** A request to one of the routes that work on the store. *)
Inductive Request :=
| PostTransfer (req : TransferRequest)                 (* POST /transfer *)
| PostAccounts (req : CreateAccountRequest)            (* POST /accounts *)
| GetAccount (account_id : Z)                          (* GET /accounts/{account_id} *)
| PostStatus (account_id : Z) (req : StatusChangeRequest).
                                                       (* POST /accounts/{account_id}/status *)

Section Routes.

Variable DAILY_LIMIT : float.
Variable str_upper : string -> string.

(** The store after the handler of request [r] has run on a session of
    its own. *)
Definition serve (env : Env) (r : Request) (db : DB) : DB :=
  match r with
  | PostTransfer req => snd (fst (call (transfer DAILY_LIMIT env req) db))
  | PostAccounts req => snd (fst (call (create_account env req) db))
  | GetAccount account_id => snd (fst (call (get_account account_id) db))
  | PostStatus account_id req =>
      snd (fst (call (change_status str_upper env account_id req) db))
  end.


(** Requests served one after the other, each in the environment it
    arrives in. *)
Definition serve_all (rs : list (Env * Request)) (db : DB) : DB :=
  fold_left (fun db er => serve (fst er) (snd er) db) rs db.

End Routes.

(** The [account_id] that [create_account] gives to the next account. *)
Definition new_account_id (db : DB) : Z :=
  default 0 (sql_max_account_id (accounts db)) + 1.

(** The row that [create_account] adds for a request with an initial
    balance of [cents] hundredths. *)
Definition new_account (env : Env) (req : CreateAccountRequest) (cents : Z) (db : DB)
  : Account.t :=
  {| Account.id := next_id (map (fun r => Account.id (snd r)) (map_to_list (accounts db)));
     Account.customer_id := car_customer_id req;
     Account.account_number := car_account_number req;
     Account.account_type := car_account_type req;
     Account.balance := float_of_cents cents;
     Account.currency := Some (default "INR" (car_currency req));
     Account.status := "ACTIVE";
     Account.customer_name :=
       Some (default ("Customer " +:+ pretty (car_customer_id req))
               match car_customer_name req with
               | Some n => if String.eqb n "" then None else Some n
               | None => None
               end);
     Account.created_at := utcnow env |}.

(** The store after [create_account] has committed. *)
Definition opened (env : Env) (req : CreateAccountRequest) (cents : Z) (db : DB) : DB :=
  {| accounts := <[new_account_id db := new_account env req cents db]> (accounts db);
     transactions := transactions db |}.

(** The store after [change_status] has committed status [st] on row
    [acc]. *)
Definition restated (account_id : Z) (st : string) (acc : Account.t) (db : DB) : DB :=
  {| accounts := <[account_id := Account.set_status acc st]> (accounts db);
     transactions := transactions db |}.

(** What a request can do to the store: nothing (it only read, or was
    refused, or the store faulted), or the one write of its handler. *)
Inductive served (L : float) (U : string -> string) (env : Env) (db : DB)
  : Request -> DB -> Prop :=
| served_nothing r :
    served L U env db r db
| served_transfer req src dst :
    passes_checks L env req db src dst ->
    served L U env db (PostTransfer req) (moved env req src dst db)
| served_create req cents :
    car_initial_balance req = Some cents ->
    account_number_taken (car_account_number req) (accounts db) = false ->
    served L U env db (PostAccounts req) (opened env req cents db)
| served_status account_id req acc :
    accounts db !! account_id = Some acc ->
    served L U env db (PostStatus account_id req)
           (restated account_id (U (scr_status req)) acc db).

(** Two rows that agree on every column but [balance] and [status]. *)
Definition same_identity (a a' : Account.t) : Prop :=
  Account.id a' = Account.id a /\
  Account.customer_id a' = Account.customer_id a /\
  Account.account_number a' = Account.account_number a /\
  Account.account_type a' = Account.account_type a /\
  Account.currency a' = Account.currency a /\
  Account.customer_name a' = Account.customer_name a /\
  Account.created_at a' = Account.created_at a.

(** Every account of [db] is an account of [db'], the same but for its
    balance and status; and the log of [db] is the beginning of the log
    of [db']. *)
Definition grows_to (db db' : DB) : Prop :=
  (forall k a, accounts db !! k = Some a ->
     exists a', accounts db' !! k = Some a' /\ same_identity a a') /\
  transactions db `prefix_of` transactions db'.

(** A list of keys in which every key is larger than those before it. *)
Fixpoint increasing (ids : list Z) : Prop :=
  match ids with
  | [] => True
  | x :: rest => Forall (Z.lt x) rest /\ increasing rest
  end.

(** The transaction ids grow along the log. *)
Definition log_ids_increasing (db : DB) : Prop :=
  increasing (map Transaction.id (transactions db)).

(** Both ends of every logged transaction are accounts of the store. *)
Definition log_refers_to_accounts (db : DB) : Prop :=
  Forall (fun tx => is_Some (accounts db !! Transaction.from_account tx) /\
                    is_Some (accounts db !! Transaction.to_account tx))
         (transactions db).

(** No two rows carry the same [account_number], and no two the same
    primary key [id]. *)
Definition account_keys_unique (db : DB) : Prop :=
  forall k1 k2 a1 a2,
    accounts db !! k1 = Some a1 -> accounts db !! k2 = Some a2 ->
    Account.account_number a1 = Account.account_number a2 \/ Account.id a1 = Account.id a2 ->
    k1 = k2.

(** Every balance is a binary64 number that is not negative. *)
Definition balances_nonneg (db : DB) : Prop :=
  forall k a, accounts db !! k = Some a ->
    is_float (Account.balance a) /\ nonneg (Account.balance a).

(** What the request validators let through: amounts and initial
    balances of at most twenty digits. *)
Definition request_in_range (r : Request) : Prop :=
  match r with
  | PostTransfer req => amount_in_range req
  | PostAccounts req =>
      match car_initial_balance req with
      | Some cents => - max_cents < cents < max_cents
      | None => True
      end
  | _ => True
  end.

(** A request that opens no account with a negative balance. *)
Definition opens_nonneg (r : Request) : Prop :=
  match r with
  | PostAccounts req =>
      match car_initial_balance req with
      | Some cents => 0 <= cents
      | None => True
      end
  | _ => True
  end.

Definition is_transfer (r : Request) : bool :=
  match r with PostTransfer _ => true | _ => false end.

Definition is_status_change (r : Request) : bool :=
  match r with PostStatus _ _ => true | _ => false end.

(** The [status] of account [k], if it exists. *)
Definition status_of (db : DB) (k : Z) : option string :=
  Account.status <$> accounts db !! k.

(** A request to freeze an account, and one to reactivate it, as a client
    may spell them. *)
Definition freeze_request : StatusChangeRequest := {| scr_status := "frozen" |}.
Definition reactivate_request : StatusChangeRequest := {| scr_status := "Active" |}.

(** A request to open an account with 25.00. *)
Definition opening_request : CreateAccountRequest :=
  {| car_customer_id := 7; car_account_number := "ACC9";
     car_account_type := Some "SAVINGS"; car_initial_balance := Some 2500;
     car_currency := Some "INR"; car_customer_name := None |}.

(** The sample store after account 1 has sent 100.00 to account 3 at
    midnight of the sample day. *)
Definition sample_store_after_transfer : DB :=
  moved (sample_env sample_day 0) sample_request
        (sample_account 1 "ACTIVE" 500000) (sample_account 3 "ACTIVE" 100000) sample_store.

(** What a lookup by key [account_id] that finds no row makes the
    handler raise: not found, or the error of binding an integer that is
    no 64-bit integer. *)
Definition missing (account_id : Z) : Exn :=
  if in_int64 account_id then HTTPException 404 account_not_found else OverflowError.

(** The session after a call on store [db] that wrote nothing. *)
Definition unchanged (db : DB) (evs : list Event) : Session :=
  {| committed := db; pending := db; events := evs |}.

(** The session after a call that committed store [db']. *)
Definition written (db' : DB) : Session :=
  {| committed := db'; pending := db';
     events := [EvLock WriteLock; EvRelease; EvRelease] |}.

(** The write lock that the commit of [change_status] takes: none when
    the row has the status [st] already. *)
Definition status_lock (acc : Account.t) (st : string) : list Event :=
  if String.eqb (Account.status acc) st then [] else [EvLock WriteLock].

(** A run of requests on the sample day: a transfer, the opening of an
    account, the freezing of account 3, a read, and a second transfer,
    which the frozen destination makes fail. *)
Definition sample_requests : list (Env * Request) :=
  [(sample_env sample_day 0, PostTransfer sample_request);
   (sample_env sample_day 1000000, PostAccounts opening_request);
   (sample_env sample_day 2000000, PostStatus 3 freeze_request);
   (sample_env sample_day 3000000, GetAccount 2);
   (sample_env sample_day 4000000, PostTransfer sample_request)].

(** The requests of the run that are no transfers, and those that change
    no status. *)
Definition sample_requests_no_transfer : list (Env * Request) :=
  List.filter (fun er => negb (is_transfer (snd er))) sample_requests.

Definition sample_requests_no_status : list (Env * Request) :=
  List.filter (fun er => negb (is_status_change (snd er))) sample_requests.

(** A second request to open an account, under another account number. *)
Definition second_opening_request : CreateAccountRequest :=
  {| car_customer_id := 8; car_account_number := "ACC10";
     car_account_type := None; car_initial_balance := Some 0;
     car_currency := None; car_customer_name := Some "Asha" |}.

(** A transfer of the whole balance of account 3, 1000.00, to account 1. *)
Definition closing_request : TransferRequest := mk_TransferRequest 3 1 100000.

(* ===================================================================== *)
(** ** Facts about binary64 arithmetic *)
(* ===================================================================== *)

Section Digits.
Lemma digits2_pos_size p : digits2_pos p = Pos.size p.
Proof. induction p; simpl; congruence. Qed.

Lemma Zdigits2_log2 m : 0 < m -> Zdigits2 m = Z.log2 m + 1.
Proof.
  destruct m as [|p|p]; try lia. intros _. simpl.
  destruct p; simpl; rewrite ?digits2_pos_size; lia.
Qed.

Lemma Zdigits2_nonneg m : 0 <= Zdigits2 m.
Proof. destruct m; simpl; lia. Qed.

Lemma Zdigits2_pos m : 0 < m -> 0 < Zdigits2 m.
Proof. destruct m; simpl; lia. Qed.

Lemma Zdigits2_bounds m : 0 < m -> 2 ^ (Zdigits2 m - 1) <= m < 2 ^ Zdigits2 m.
Proof.
  intros H. rewrite Zdigits2_log2 by lia.
  replace (Z.log2 m + 1 - 1) with (Z.log2 m) by lia.
  replace (Z.log2 m + 1) with (Z.succ (Z.log2 m)) by lia.
  apply Z.log2_spec; lia.
Qed.

Lemma Zdigits2_unique m d : 0 < d -> 2 ^ (d - 1) <= m < 2 ^ d -> Zdigits2 m = d.
Proof.
  intros Hd H.
  assert (0 < m) by (pose proof (Z.pow_pos_nonneg 2 (d - 1)); lia).
  rewrite Zdigits2_log2 by lia.
  rewrite (Z.log2_unique m (d - 1)); try lia.
  replace (Z.succ (d - 1)) with d by lia. lia.
Qed.

Lemma Zdigits2_le a b : 0 <= a <= b -> Zdigits2 a <= Zdigits2 b.
Proof.
  intros [Ha Hab]. destruct (Z.eq_dec a 0) as [->|].
  - apply Zdigits2_nonneg.
  - rewrite !Zdigits2_log2 by lia. pose proof (Z.log2_le_mono a b Hab). lia.
Qed.

Lemma Zdigits2_div_pow2 m k :
  0 < m -> 0 <= k -> Zdigits2 (m / 2 ^ k) = Z.max 0 (Zdigits2 m - k).
Proof.
  intros Hm Hk. pose proof (Zdigits2_bounds m Hm) as [Hlo Hhi].
  destruct (Z_lt_le_dec k (Zdigits2 m)) as [Hlt|Hge].
  - rewrite Z.max_r by lia. apply Zdigits2_unique; [lia|].
    assert (Hp : 0 < 2 ^ k) by (apply Z.pow_pos_nonneg; lia).
    split.
    + apply Z.div_le_lower_bound; [lia|].
      rewrite <- Z.pow_add_r by lia.
      replace (k + (Zdigits2 m - k - 1)) with (Zdigits2 m - 1) by lia. lia.
    + apply Z.div_lt_upper_bound; [lia|].
      rewrite <- Z.pow_add_r by lia.
      replace (k + (Zdigits2 m - k)) with (Zdigits2 m) by lia. lia.
  - rewrite Z.max_l by lia.
    rewrite Z.div_small; [reflexivity|].
    split; [lia|].
    apply Z.lt_le_trans with (2 ^ Zdigits2 m); [lia|].
    apply Z.pow_le_mono_r; lia.
Qed.

Lemma Zdigits2_succ m :
  0 < m ->
  Zdigits2 (m + 1) = Zdigits2 m \/
  (m + 1 = 2 ^ Zdigits2 m /\ Zdigits2 (m + 1) = Zdigits2 m + 1).
Proof.
  intros Hm. pose proof (Zdigits2_bounds m Hm) as [Hlo Hhi].
  pose proof (Zdigits2_pos m Hm) as Hd.
  destruct (Z.eq_dec (m + 1) (2 ^ Zdigits2 m)) as [He|Hne].
  - right. split; [assumption|]. apply Zdigits2_unique; [lia|].
    replace (Zdigits2 m + 1 - 1) with (Zdigits2 m) by lia.
    rewrite Z.pow_add_r by lia. lia.
  - left. apply Zdigits2_unique; [lia|]. lia.
Qed.

Lemma Zdigits2_mul_pow2 m k : 0 < m -> 0 <= k -> Zdigits2 (m * 2 ^ k) = Zdigits2 m + k.
Proof.
  intros Hm Hk. pose proof (Zdigits2_bounds m Hm) as [Hlo Hhi].
  pose proof (Zdigits2_pos m Hm) as Hd.
  assert (Hp : 0 < 2 ^ k) by (apply Z.pow_pos_nonneg; lia).
  apply Zdigits2_unique; [lia|]. split.
  - replace (Zdigits2 m + k - 1) with ((Zdigits2 m - 1) + k) by lia.
    rewrite Z.pow_add_r by lia. nia.
  - rewrite Z.pow_add_r by lia. nia.
Qed.
End Digits.

Section Shift.
Lemma iter_pos_nat {A} (f : A -> A) p x :
  SpecFloat.iter_pos f p x = Nat.iter (Pos.to_nat p) f x.
Proof.
  revert x. induction p as [p IH|p IH|]; intros x; cbn [SpecFloat.iter_pos].
  - rewrite !IH. rewrite Pos2Nat.inj_xI. 
    replace (S (2 * Pos.to_nat p))%nat with (Pos.to_nat p + (Pos.to_nat p + 1))%nat by lia.
    rewrite !Nat.iter_add. simpl. reflexivity.
  - rewrite !IH. rewrite Pos2Nat.inj_xO.
    replace (2 * Pos.to_nat p)%nat with (Pos.to_nat p + Pos.to_nat p)%nat by lia.
    rewrite Nat.iter_add. reflexivity.
  - reflexivity.
Qed.

Lemma shr_1_m mrs : 0 <= shr_m mrs -> shr_m (shr_1 mrs) = shr_m mrs / 2.
Proof.
  destruct mrs as [m r s]. simpl. intros Hm.
  destruct m as [|p|p]; try lia; try reflexivity.
  destruct p; simpl shr_m.
  - rewrite Pos2Z.inj_xI. apply (Z.div_unique _ 2 _ 1); lia.
  - rewrite Pos2Z.inj_xO. apply (Z.div_unique _ 2 _ 0); lia.
  - reflexivity.
Qed.

Lemma shr_iter_m k mrs :
  0 <= shr_m mrs -> shr_m (Nat.iter k shr_1 mrs) = shr_m mrs / 2 ^ Z.of_nat k.
Proof.
  intros Hm. induction k as [|k IH].
  - simpl. now rewrite Z.div_1_r.
  - rewrite Nat.iter_succ, shr_1_m.
    + rewrite IH. rewrite Nat2Z.inj_succ, Z.pow_succ_r by lia.
      rewrite Z.div_div by (try apply Z.pow_pos_nonneg; lia).
      f_equal. lia.
    + rewrite IH. apply Z.div_pos; [lia| apply Z.pow_pos_nonneg; lia].
Qed.

Lemma shr_m_spec mrs e n :
  0 <= shr_m mrs ->
  shr_m (fst (shr mrs e n)) = shr_m mrs / 2 ^ Z.max 0 n /\
  snd (shr mrs e n) = e + Z.max 0 n.
Proof.
  intros Hm. destruct n as [|p|p]; simpl.
  - rewrite Z.div_1_r. split; [reflexivity | lia].
  - rewrite iter_pos_nat, shr_iter_m by assumption.
    rewrite positive_nat_Z. split; reflexivity.
  - rewrite Z.div_1_r. split; [reflexivity | lia].
Qed.

Lemma shr_record_of_loc_m m l : shr_m (shr_record_of_loc m l) = m.
Proof. destruct l as [|[]]; reflexivity. Qed.

Lemma round_nearest_even_cases m l :
  round_nearest_even m l = m \/ round_nearest_even m l = m + 1.
Proof. destruct l as [|[]]; simpl; auto. destruct (Z.even m); auto. Qed.
End Shift.

Section Rounding.

Lemma fexp_eq k : fexp prec emax k = Z.max (k - 53) (-1074).
Proof. reflexivity. Qed.

Lemma bounded_iff m e :
  bounded prec emax m e = true <->
  Z.max (Zdigits2 (Zpos m) + e - 53) (-1074) = e /\ e <= 971.
Proof.
  unfold bounded, canonical_mantissa. rewrite fexp_eq.
  rewrite andb_true_iff, Z.eqb_eq, Z.leb_le. reflexivity.
Qed.

Lemma binary_round_aux_rounded s mx ex lx :
  0 < mx ->
  ex <= fexp prec emax (Zdigits2 mx + ex) ->
  rounded s (Zdigits2 mx + ex) (binary_round_aux prec emax s mx ex lx).
Proof.
  intros Hmx Hpre. rewrite fexp_eq in Hpre.
  unfold binary_round_aux, shr_fexp. rewrite !fexp_eq.
  set (d := Zdigits2 mx) in *.
  set (E := Z.max (d + ex - 53) (-1074)) in *.
  pose proof (Zdigits2_pos mx Hmx) as Hd. fold d in Hd.
  destruct (shr_m_spec (shr_record_of_loc mx lx) ex (E - ex)) as [Hm1 He1];
    [rewrite shr_record_of_loc_m; lia|].
  destruct (shr (shr_record_of_loc mx lx) ex (E - ex)) as [mrs1 e1].
  cbn [fst snd] in Hm1, He1. rewrite shr_record_of_loc_m in Hm1.
  rewrite Z.max_r in Hm1, He1 by lia.
  assert (He1' : e1 = E) by lia. clear He1. subst e1.
  set (m1 := shr_m mrs1) in *.
  assert (Hd1 : Zdigits2 m1 = Z.max 0 (d - (E - ex))).
  { rewrite Hm1. apply Zdigits2_div_pow2; lia. }
  assert (Hm1nn : 0 <= m1).
  { rewrite Hm1. apply Z.div_pos; [lia | apply Z.pow_pos_nonneg; lia]. }
  set (m2 := round_nearest_even m1 (loc_of_shr_record mrs1)).
  assert (Hm2 : m2 = m1 \/ m2 = m1 + 1) by apply round_nearest_even_cases.
  assert (Hm2nn : 0 <= m2) by lia.
  destruct (shr_m_spec (shr_record_of_loc m2 loc_Exact) E
              (fexp prec emax (Zdigits2 m2 + E) - E)) as [Hm3 He3];
    [rewrite shr_record_of_loc_m; lia|].
  destruct (shr (shr_record_of_loc m2 loc_Exact) E
              (fexp prec emax (Zdigits2 m2 + E) - E)) as [mrs3 e3].
  cbn [fst snd] in Hm3, He3. rewrite shr_record_of_loc_m in Hm3.
  rewrite fexp_eq in Hm3, He3.
  set (m3 := shr_m mrs3) in *.
    (* the digits of the rounded mantissa *)
  assert (Hd2 : Zdigits2 m2 = Zdigits2 m1 \/
                (m2 = 2 ^ Zdigits2 m1 /\ Zdigits2 m2 = Zdigits2 m1 + 1)).
  { destruct Hm2 as [->| ->]; [now left|].
    destruct (Z.eq_dec m1 0) as [Hz|Hnz].
    - right. rewrite Hz. simpl. split; reflexivity.
    - destruct (Zdigits2_succ m1) as [H|[H1 H2]]; [lia| now left | right; split; assumption]. }
  assert (Hcase :
    (m3 = m2 /\ e3 = E /\ (m2 = 0 \/ Z.max (Zdigits2 m2 + E - 53) (-1074) = E)) \/
    (0 < m3 /\ e3 = E + 1 /\ -1074 <= d + ex - 53 /\
     Z.max (Zdigits2 m3 + e3 - 53) (-1074) = e3)).
  { destruct Hd2 as [Hd2|[Hp2 Hd2]].
    - (* no carry *)
      left.
      assert (Hn2 : Z.max (Zdigits2 m2 + E - 53) (-1074) - E <= 0) by lia.
      rewrite Z.max_l in Hm3, He3 by lia.
      rewrite Z.div_1_r in Hm3.
      split; [assumption|]. split; [lia|].
      destruct (Z.eq_dec m2 0); [now left | right]. lia.
    - (* carry into a new digit *)
      destruct (Z_lt_le_dec (d + ex - 53) (-1074)) as [Hsub|Hnorm].
      + left.
        rewrite Z.max_l in Hm3, He3 by lia.
        rewrite Z.div_1_r in Hm3.
        split; [assumption|]. split; [lia|]. right. lia.
      + right.
        assert (Hn : Z.max (Zdigits2 m2 + E - 53) (-1074) - E = 1) by lia.
        rewrite Hn in Hm3, He3. rewrite Z.max_r in Hm3, He3 by lia.
        assert (Hd1p : 0 < Zdigits2 m1) by lia.
        assert (Hm3' : m3 = 2 ^ (Zdigits2 m1 - 1)).
        { rewrite Hm3, Hp2.
          replace (2 ^ Zdigits2 m1) with (2 ^ (Zdigits2 m1 - 1) * 2 ^ 1).
          - apply Z.div_mul. discriminate.
          - rewrite <- Z.pow_add_r by lia. f_equal. lia. }
        assert (Hd3 : Zdigits2 m3 = Zdigits2 m1).
        { rewrite Hm3'. apply Zdigits2_unique; [lia|].
          pose proof (Z.pow_pos_nonneg 2 (Zdigits2 m1 - 1)).
          assert (2 ^ Zdigits2 m1 = 2 ^ (Zdigits2 m1 - 1) * 2 ^ 1) as ->.
          { rewrite <- Z.pow_add_r by lia. f_equal. lia. }
          lia. }
        split; [rewrite Hm3'; apply Z.pow_pos_nonneg; lia|].
        split; [lia|]. split; [lia|]. lia. }
  destruct Hcase as [(H3 & He & Hcan)|(H3 & He & Hn & Hcan)].
  - destruct m3 as [|p|p] eqn:Hp.
    + (* rounded to zero *)
      apply rounded_zero.
      destruct (Z_lt_le_dec (d + ex - 53) (-1074)); [assumption|].
      (* in the normal range the shifted mantissa keeps 53 digits *)
      exfalso.
      assert (0 < m1).
      { destruct (Z.eq_dec m1 0) as [Hz|]; [|lia].
        rewrite Hz in Hd1. simpl in Hd1. lia. }
      lia.
    + destruct Hcan as [Hz|Hcan]; [lia|].
      destruct (Z.leb_spec e3 (emax - prec)) as [Hle|Hgt].
      * apply rounded_finite.
        -- apply bounded_iff. unfold emax, prec in Hle. rewrite <- H3 in Hcan.
           split; lia.
        -- lia.
      * apply rounded_infinity. unfold emax, prec in Hgt. fold E. lia.
    + lia.
  - destruct m3 as [|p|p] eqn:Hp; try lia.
    destruct (Z.leb_spec e3 (emax - prec)) as [Hle|Hgt].
    + apply rounded_finite.
      * apply bounded_iff. unfold emax, prec in Hle. split; lia.
      * fold E. lia.
    + apply rounded_infinity. unfold emax, prec in Hgt. fold E. lia.
Qed.

End Rounding.

Section Arith.

Lemma iter_xO_pow2 m d : Zpos (Pos.iter xO m d) = Zpos m * 2 ^ Zpos d.
Proof.
  induction d as [|d IH] using Pos.peano_ind.
  - simpl. lia.
  - rewrite Pos.iter_succ, Pos2Z.inj_xO, IH, Pos2Z.inj_succ, Z.pow_succ_r by lia. lia.
Qed.

Lemma shl_align_spec mx ex ex' :
  Zpos (fst (shl_align mx ex ex')) = Zpos mx * 2 ^ (ex - Z.min ex ex') /\
  snd (shl_align mx ex ex') = Z.min ex ex'.
Proof.
  unfold shl_align. destruct (ex' - ex) as [|d|d] eqn:Hd; cbn [fst snd].
  - rewrite Z.min_l by lia. rewrite Z.sub_diag. simpl. lia.
  - rewrite Z.min_l by lia. rewrite Z.sub_diag. simpl. lia.
  - rewrite Z.min_r by lia. rewrite iter_xO_pow2. split; [|reflexivity].
    f_equal. f_equal. lia.
Qed.

Lemma binary_round_rounded s mx ex :
  rounded s (Zdigits2 (Zpos mx) + ex) (binary_round prec emax s mx ex).
Proof.
  unfold binary_round.
  destruct (shl_align_spec mx ex (fexp prec emax (Zpos (digits2_pos mx) + ex))) as [Hm He].
  destruct (shl_align mx ex (fexp prec emax (Zpos (digits2_pos mx) + ex))) as [mz ez].
  cbn [fst snd] in Hm, He.
  change (Zpos (digits2_pos mx)) with (Zdigits2 (Zpos mx)) in *.
  assert (Hdz : Zdigits2 (Zpos mz) + ez = Zdigits2 (Zpos mx) + ex).
  { rewrite Hm, Zdigits2_mul_pow2 by lia. lia. }
  rewrite <- Hdz. apply binary_round_aux_rounded; [lia|].
  rewrite Hdz. lia.
Qed.

Lemma rounded_valid s D r : rounded s D r -> is_float r.
Proof. intros [| |]; unfold is_float; simpl; auto. Qed.

Lemma nonneg_cases x :
  nonneg x <->
  match x with
  | S754_zero _ => True
  | S754_finite s _ _ => s = false
  | S754_infinity s => s = false
  | S754_nan => False
  end.
Proof.
  unfold nonneg, fle, SFleb, fzero. destruct x as [s|s| |s m e]; simpl;
    try destruct s; intuition congruence.
Qed.

Lemma rounded_nonneg D r : rounded false D r -> nonneg r.
Proof. intros [| |]; apply nonneg_cases; auto. Qed.

Lemma binary_normalize_valid m e sz : is_float (binary_normalize prec emax m e sz).
Proof.
  destruct m; simpl; [reflexivity| |]; eapply rounded_valid, binary_round_rounded.
Qed.

Lemma binary_normalize_nonneg m e : 0 <= m -> nonneg (binary_normalize prec emax m e false).
Proof.
  destruct m; simpl; intros H; [reflexivity| |lia].
  eapply rounded_nonneg, binary_round_rounded.
Qed.

Lemma fadd_valid x y : is_float x -> is_float y -> is_float (fadd x y).
Proof.
  intros Hx Hy. unfold fadd, SFadd.
  destruct x as [sx|sx| |sx mx ex], y as [sy|sy| |sy my ey];
    try destruct sx; try destruct sy; try assumption; try reflexivity;
    apply binary_normalize_valid.
Qed.

Lemma fsub_valid x y : is_float x -> is_float y -> is_float (fsub x y).
Proof.
  intros Hx Hy. unfold fsub, SFsub.
  destruct x as [sx|sx| |sx mx ex], y as [sy|sy| |sy my ey];
    try destruct sx; try destruct sy; try assumption; try reflexivity;
    apply binary_normalize_valid.
Qed.

Lemma fadd_nonneg x y : nonneg x -> nonneg y -> nonneg (fadd x y).
Proof.
  intros Hx Hy. apply nonneg_cases in Hx. apply nonneg_cases in Hy.
  unfold fadd, SFadd.
  destruct x as [sx|sx| |sx mx ex], y as [sy|sy| |sy my ey];
    try contradiction; subst; try (destruct sx); try (destruct sy);
    try (apply nonneg_cases; simpl; auto; fail).
  apply binary_normalize_nonneg. simpl. lia.
Qed.

(** Canonical mantissas make the exponent-first comparison the
    comparison of values. *)
Lemma canonical_shift_ge mx ex my ey :
  bounded prec emax mx ex = true -> bounded prec emax my ey = true ->
  ey < ex -> Zpos my < Zpos mx * 2 ^ (ex - ey).
Proof.
  rewrite !bounded_iff. intros [Hx _] [Hy _] Hlt.
  pose proof (Zdigits2_bounds (Zpos mx) ltac:(lia)) as [Hxl _].
  pose proof (Zdigits2_bounds (Zpos my) ltac:(lia)) as [_ Hyh].
  assert (Hdx : Zdigits2 (Zpos mx) = 53) by lia.
  assert (Hdy : Zdigits2 (Zpos my) <= 53) by lia.
  rewrite Hdx in Hxl.
  assert (Zpos my < 2 ^ 53).
  { eapply Z.lt_le_trans; [eassumption|]. apply Z.pow_le_mono_r; lia. }
  assert (2 ^ 1 <= 2 ^ (ex - ey)) by (apply Z.pow_le_mono_r; lia).
  change (2 ^ (53 - 1)) with 4503599627370496 in Hxl.
  change (2 ^ 53) with 9007199254740992 in *.
  change (2 ^ 1) with 2 in *. nia.
Qed.

Lemma fsub_nonneg x a :
  is_float x -> is_float a -> nonneg x -> nonneg a -> is_finite a ->
  flt x a = false -> nonneg (fsub x a).
Proof.
  intros Vx Va Hx Ha Fa Hlt.
  apply nonneg_cases in Hx. apply nonneg_cases in Ha.
  unfold fsub, SFsub, flt, SFltb, SFcompare in *.
  destruct x as [sx|sx| |sx mx ex], a as [sa|sa| |sa ma ea];
    try contradiction; subst; simpl in Fa; try contradiction;
    try (destruct sx); try (destruct sa);
    try (apply nonneg_cases; simpl; auto; fail); try discriminate.
  apply binary_normalize_nonneg. simpl cond_Zopp.
  destruct (shl_align_spec mx ex (Z.min ex ea)) as [Hmx _].
  destruct (shl_align_spec ma ea (Z.min ex ea)) as [Hma _].
  rewrite Hmx, Hma.
  unfold is_float in Vx, Va. simpl in Vx, Va.
  destruct (Z.compare_spec ex ea) as [Heq|Hl|Hg]; try discriminate.
  - subst ea. rewrite !Z.min_id, Z.sub_diag. simpl (2 ^ 0).
    change (Pos.compare_cont Eq mx ma) with (Pos.compare mx ma) in Hlt.
    destruct (Pos.compare_spec mx ma); try discriminate; lia.
  - pose proof (canonical_shift_ge mx ex ma ea Vx Va Hg).
    replace (Z.min ex ea) with ea by lia.
    rewrite (Z.min_r ex ea), Z.min_id, Z.sub_diag by lia. simpl (2 ^ 0). lia.
Qed.

End Arith.

Section Conversion.

Lemma Zdigits2_lt_pow2 m k : 0 < m -> 0 <= k -> m < 2 ^ k -> Zdigits2 m <= k.
Proof.
  intros Hm Hk Hlt. pose proof (Zdigits2_bounds m Hm) as [Hlo _].
  destruct (Z_le_gt_dec (Zdigits2 m) k) as [|Hgt]; [assumption|exfalso].
  assert (2 ^ k <= 2 ^ (Zdigits2 m - 1)) by (apply Z.pow_le_mono_r; lia).
  lia.
Qed.

Lemma float_of_ratio_cents s p :
  Zpos p < max_cents ->
  exists m e, float_of_ratio s p 100 = S754_finite s m e /\ bounded prec emax m e = true.
Proof.
  intros Hp. unfold float_of_ratio, SFdiv_core_binary.
  rewrite fexp_eq.
  change (Zdigits2 100) with 7.
  set (d1 := Zdigits2 (Zpos p)).
  assert (Hd1 : 0 < d1) by (apply Zdigits2_pos; lia).
  assert (Hd1' : d1 <= 67).
  { apply Zdigits2_lt_pow2; try lia.
    eapply Z.lt_trans; [exact Hp|]. reflexivity. }
  replace (Z.min (Z.max (d1 + 0 - (7 + 0) - 53) (-1074)) (0 - 0))
    with (Z.min (d1 - 60) 0) by lia.
  set (e' := Z.min (d1 - 60) 0).
  assert (He' : e' = Z.min (d1 - 60) 0) by reflexivity. clearbody e'.
  replace (0 - 0 - e') with (- e') by lia.
  set (m' := match - e' with
             | 0 => Zpos p
             | Zpos _ => Z.shiftl (Zpos p) (- e')
             | Zneg _ => 0
             end).
  assert (Hm' : m' = Zpos p * 2 ^ (- e')).
  { unfold m'. destruct (- e') as [|k|k] eqn:Hk.
    - simpl. lia.
    - rewrite Z.shiftl_mul_pow2 by lia. reflexivity.
    - lia. }
  clearbody m'.
  assert (Hdm : Zdigits2 m' = d1 + - e').
  { rewrite Hm'. apply Zdigits2_mul_pow2; lia. }
  assert (Hm'pos : 0 < m').
  { rewrite Hm'. pose proof (Z.pow_pos_nonneg 2 (- e')). nia. }
  assert (Hm'big : 2 ^ 59 <= m').
  { pose proof (Zdigits2_bounds m' Hm'pos) as [Hlo _].
    eapply Z.le_trans; [|exact Hlo]. apply Z.pow_le_mono_r; lia. }
  change (2 ^ 59) with 576460752303423488 in Hm'big.
  pose proof (Z_div_mod m' 100 ltac:(lia)) as Hdiv.
  destruct (Z.div_eucl m' 100) as [q r].
  destruct Hdiv as [Hq Hr].
  assert (Hqlo : m' / 2 ^ 7 <= q).
  { change (2 ^ 7) with 128. apply Z.div_le_upper_bound; lia. }
  assert (Hqhi : q <= m') by lia.
  assert (Hq0 : 0 <= m' / 2 ^ 7) by (apply Z.div_pos; lia).
  pose proof (Zdigits2_le _ _ (conj Hq0 Hqlo)) as Hdlo.
  rewrite Zdigits2_div_pow2 in Hdlo by lia.
  assert (Hqpos : 0 < q).
  { destruct (Z.eq_dec q 0) as [->|]; [simpl in Hdlo|]; lia. }
  pose proof (Zdigits2_le q m' ltac:(lia)) as Hdhi.
  pose proof (binary_round_aux_rounded s q e' (new_location 100 r) Hqpos) as Hr'.
  rewrite fexp_eq in Hr'. specialize (Hr' ltac:(lia)).
  inversion Hr' as [Hz|m e Hb Hrange Heq|Hinf]; try lia.
  exists m, e. split; [reflexivity | assumption].
Qed.

Lemma float_of_cents_valid c : - max_cents < c < max_cents -> is_float (float_of_cents c).
Proof.
  intros Hc. destruct c as [|p|p]; simpl; [reflexivity| |].
  - destruct (float_of_ratio_cents false p) as (m & e & -> & Hb); [lia|]. exact Hb.
  - destruct (float_of_ratio_cents true p) as (m & e & -> & Hb); [|exact Hb].
    change (Zpos p) with (- Zneg p). lia.
Qed.

Lemma float_of_cents_positive p :
  Zpos p < max_cents ->
  exists m e, float_of_cents (Zpos p) = S754_finite false m e /\ bounded prec emax m e = true.
Proof. apply float_of_ratio_cents. Qed.

Lemma float_of_cents_negative p :
  Zpos p < max_cents ->
  exists m e, float_of_cents (Zneg p) = S754_finite true m e /\ bounded prec emax m e = true.
Proof. apply float_of_ratio_cents. Qed.

End Conversion.

Section Comparison.

Lemma SFcompare_antisym x y : SFcompare x y = option_map CompOpp (SFcompare y x).
Proof.
  destruct x as [sx|sx| |sx mx ex], y as [sy|sy| |sy my ey]; simpl;
    try destruct sx; try destruct sy; try reflexivity;
    rewrite (Z.compare_antisym ex ey);
    change (Pos.compare_cont Eq mx my) with (Pos.compare mx my);
    change (Pos.compare_cont Eq my mx) with (Pos.compare my mx);
    rewrite (Pos.compare_antisym mx my);
    destruct (ex ?= ey); simpl; try reflexivity;
    destruct (mx ?= my)%positive; reflexivity.
Qed.

(** For numbers, [not (x > y)] is [x <= y]. *)
Lemma not_fgt_fle x y : is_number x -> is_number y -> fgt x y = false -> fle x y = true.
Proof.
  unfold is_number, fgt, flt, fle, SFltb, SFleb. intros Hx Hy.
  rewrite (SFcompare_antisym x y).
  destruct (SFcompare y x) as [[]|] eqn:Hc; simpl; try congruence.
  destruct x, y; simpl in Hc; congruence.
Qed.

Lemma nonneg_number x : nonneg x -> is_number x.
Proof. intros H ->. discriminate H. Qed.

Lemma fold_fadd_nonneg xs x :
  nonneg x -> Forall nonneg xs -> nonneg (fold_left fadd xs x).
Proof.
  intros Hx Hxs. revert x Hx.
  induction Hxs as [|y ys Hy _ IH]; intros x Hx; simpl; [assumption|].
  apply IH. now apply fadd_nonneg.
Qed.

Lemma Forall_filter_bool {A} (P : A -> Prop) (f : A -> bool) l :
  Forall P l -> Forall P (List.filter f l).
Proof.
  induction 1 as [|x l Hx _ IH]; simpl; [constructor|].
  destruct (f x); [constructor|]; assumption.
Qed.

Lemma transferred_today_nonneg day k log :
  log_nonneg log -> nonneg (transferred_today day k log).
Proof.
  intros Hlog. unfold transferred_today.
  set (v := sql_coalesce _ _).
  assert (Hv : nonneg v).
  { unfold v, sql_coalesce, sql_sum, sent_today.
    pose proof (Forall_filter_bool _
      (sent_in_window k (datetime_combine day time_min) (datetime_combine day time_max))
      _ Hlog) as Hf.
    destruct (List.filter _ log) as [|tx rest]; simpl; [reflexivity|].
    inversion Hf as [|? ? Htx Hrest]; subst.
    apply fold_fadd_nonneg; [assumption|].
    clear -Hrest. induction Hrest; simpl; constructor; assumption. }
  destruct (float_truthy v); [assumption | reflexivity].
Qed.

End Comparison.

(* ===================================================================== *)
(** ** Running a handler *)
(* ===================================================================== *)

(** Unfold the monad and the store operations down to the tests that a
    handler performs, and split on them. *)
Ltac handler_cbn :=
  cbn [committed pending events fst snd accounts transactions app negb] in *.

Ltac unfold_handler :=
  unfold call, transfer, create_account, get_account, change_status,
    try_finally, try_except, raise_if, query_account_for_update,
    query_account, todays_transferred_sum, add_account, add_transaction,
    commit, close, rollback, log_event, bind, ret, raise,
    new_session in *;
  handler_cbn.

Ltac handler_cases :=
  unfold_handler; repeat (case_match; simplify_eq; handler_cbn).

Section TransferRuns.

Variable L : float.
Variable env : Env.
Variable req : TransferRequest.
Variable db : DB.

Let amt := float_of_cents (Zpos (amount req)).

Lemma transfer_returns_inv r s' :
  transfer L env req (new_session db) = (Return r, s') ->
  exists src dst,
    passes_checks L env req db src dst /\ commit_fails env = false /\
    r = {| resp_from_account := from_account req;
           resp_to_account := to_account req;
           resp_amount := amt |} /\
    s' = {| committed := moved env req src dst db;
            pending := moved env req src dst db;
            events := [EvForUpdate (from_account req); EvForUpdate (to_account req);
                       EvLock WriteLock; EvRelease; EvRelease] |}.
Proof.
  intros H. handler_cases.
  match goal with
  | H1 : accounts db !! from_account req = Some ?a,
    H2 : accounts db !! to_account req = Some ?b |- _ => exists a, b
  end.
  repeat match goal with
         | H : negb _ = false |- _ => apply negb_false_iff, String.eqb_eq in H
         | H : (_ =? _) = false |- _ => apply Z.eqb_neq in H
         end.
  unfold passes_checks. repeat split; auto.
Qed.

Lemma transfer_returns src dst :
  passes_checks L env req db src dst -> commit_fails env = false ->
  transfer L env req (new_session db) =
    (Return {| resp_from_account := from_account req;
               resp_to_account := to_account req;
               resp_amount := amt |},
     {| committed := moved env req src dst db;
        pending := moved env req src dst db;
        events := [EvForUpdate (from_account req); EvForUpdate (to_account req);
                   EvLock WriteLock; EvRelease; EvRelease] |}).
Proof.
  intros (Hne & Hs & Hd & Hss & Hds & Hfunds & Hlim) Hc.
  apply Z.eqb_neq in Hne. unfold amt in *.
  unfold_handler. rewrite Hne. handler_cbn. rewrite Hs. handler_cbn.
  rewrite Hd. handler_cbn.
  rewrite Hss, Hds, String.eqb_refl. handler_cbn.
  rewrite Hfunds. handler_cbn. rewrite Hlim. handler_cbn. rewrite Hc.
  reflexivity.
Qed.

Lemma transfer_raises_inv e s' :
  transfer L env req (new_session db) = (Raise e, s') ->
  committed s' = db /\ pending s' = db /\ locks_held [] (events s') = [].
Proof. intros H. handler_cases; cbn; auto. Qed.

End TransferRuns.

(** *** What a transfer raises, check by check *)

Section TransferRaises.

Variable L : float.
Variable env : Env.
Variable req : TransferRequest.
Variable db : DB.

Let amt := float_of_cents (Zpos (amount req)).
Let sent := transferred_today (today env) (from_account req) (transactions db).

(** The session after a call that wrote nothing. *)
Let untouched (evs : list Event) : Session :=
  {| committed := db; pending := db; events := evs |}.





Section BothFound.

Variables src dst : Account.t.
Hypothesis Hne : from_account req <> to_account req.
Hypothesis Hsrc : accounts db !! from_account req = Some src.
Hypothesis Hdst : accounts db !! to_account req = Some dst.

Let locked : list Event := [EvForUpdate (from_account req); EvForUpdate (to_account req)].

Ltac start :=
  pose proof Hne as Hne'; apply Z.eqb_neq in Hne';
  unfold_handler; rewrite Hne'; handler_cbn; rewrite Hsrc; handler_cbn;
  rewrite Hdst; handler_cbn.

Lemma transfer_source_inactive :
  Account.status src <> "ACTIVE" ->
  transfer L env req (new_session db) =
    (Raise (HTTPException 400 (source_cannot_transact (Account.status src))),
     untouched (locked ++ [EvRelease])).
Proof.
  intros Hs. apply String.eqb_neq in Hs. start. rewrite Hs. reflexivity.
Qed.

Lemma transfer_destination_inactive :
  Account.status src = "ACTIVE" ->
  Account.status dst <> "ACTIVE" ->
  transfer L env req (new_session db) =
    (Raise (HTTPException 400 (destination_cannot_receive (Account.status dst))),
     untouched (locked ++ [EvRelease])).
Proof.
  intros Hs Hd. apply String.eqb_neq in Hd. start.
  rewrite Hs, Hd. reflexivity.
Qed.


Lemma transfer_over_limit :
  Account.status src = "ACTIVE" ->
  Account.status dst = "ACTIVE" ->
  flt (Account.balance src) amt = false ->
  fgt (fadd sent amt) L = true ->
  transfer L env req (new_session db) =
    (Raise (HTTPException 400 (daily_limit_exceeded L sent amt)),
     untouched (locked ++ [EvRelease])).
Proof.
  intros Hs Hd Hf Hl. unfold amt, sent in *. start.
  rewrite Hs, Hd, String.eqb_refl. handler_cbn. rewrite Hf. handler_cbn.
  rewrite Hl. reflexivity.
Qed.

Lemma transfer_commit_fault :
  passes_checks L env req db src dst ->
  commit_fails env = true ->
  transfer L env req (new_session db) =
    (Raise (HTTPException 500 transfer_failed),
     untouched (locked ++ [EvLock WriteLock; EvRelease; EvRelease])).
Proof.
  intros (_ & _ & _ & Hs & Hd & Hf & Hl) Hc. start.
  rewrite Hs, Hd, String.eqb_refl. handler_cbn. rewrite Hf. handler_cbn.
  rewrite Hl. handler_cbn. rewrite Hc. reflexivity.
Qed.

End BothFound.

End TransferRaises.

(* ===================================================================== *)
(** ** Balances stay non-negative *)
(* ===================================================================== *)

Lemma surjective_pairing_3 {A B C} (p : A * B * C) :
  p = (fst (fst p), snd (fst p), snd p).
Proof. destruct p as [[? ?] ?]. reflexivity. Qed.

Lemma amount_float (req : TransferRequest) :
  amount_in_range req ->
  let amt := float_of_cents (Zpos (amount req)) in
  is_float amt /\ nonneg amt /\ is_finite amt.
Proof.
  intros Hr. destruct (float_of_cents_positive (amount req) Hr) as (m & e & Heq & Hb).
  cbv zeta. rewrite Heq. repeat split. exact Hb.
Qed.

(** C1.  A call to [transfer], whether it returns or raises, leaves every
    account whose balance was a non-negative binary64 number with a
    balance that is again a non-negative binary64 number: the source is
    debited only when [not (balance < amt)], and the destination is only
    credited.  In particular this holds for the source and destination
    of the call. *)
Theorem transfer_preserves_nonneg
    (L : float) (env : Env) (req : TransferRequest) (db db' : DB)
    (o : Outcome TransferResponse) (evs : list Event) (k : Z) (a : Account.t) :
  amount_in_range req ->
  call (transfer L env req) db = (o, db', evs) ->
  accounts db !! k = Some a ->
  is_float (Account.balance a) ->
  nonneg (Account.balance a) ->
  exists a',
    accounts db' !! k = Some a' /\
    is_float (Account.balance a') /\
    nonneg (Account.balance a').
Proof.
  intros Hr Hcall Hk Hv Hn.
  destruct (amount_float req Hr) as (Va & Na & Fa).
  unfold call in Hcall.
  destruct (transfer L env req (new_session db)) as [[r|e] s'] eqn:Hrun;
    injection Hcall as <- <- <-.
  - apply transfer_returns_inv in Hrun
      as (src & dst & (Hne & Hs & Hd & _ & _ & Hfunds & _) & _ & _ & ->).
    cbn [committed moved accounts].
    destruct (decide (k = to_account req)) as [->|Hkt].
    + rewrite lookup_insert_eq. eexists; split; [reflexivity|].
      assert (a = dst) by congruence. subst a. cbn.
      split; [now apply fadd_valid | now apply fadd_nonneg].
    + rewrite lookup_insert_ne by congruence.
      destruct (decide (k = from_account req)) as [->|Hkf].
      * rewrite lookup_insert_eq. eexists; split; [reflexivity|].
        assert (a = src) by congruence. subst a. cbn.
        split; [now apply fsub_valid | now apply fsub_nonneg].
      * rewrite lookup_insert_ne by congruence. eauto.
  - apply transfer_raises_inv in Hrun as (-> & _). eauto.
Qed.

Lemma transfer_preserves_nonneg_witness :
  (amount_in_range sample_request /\
   accounts sample_store !! 1 = Some (sample_account 1 "ACTIVE" 500000) /\
   is_float (Account.balance (sample_account 1 "ACTIVE" 500000)) /\
   nonneg (Account.balance (sample_account 1 "ACTIVE" 500000))) /\
  exists a',
    accounts (snd (fst (call (transfer default_limit (sample_env sample_day 100)
                                       sample_request) sample_store))) !! 1 = Some a' /\
    is_float (Account.balance a') /\
    nonneg (Account.balance a').
Proof.
  assert (H1 : amount_in_range sample_request) by (vm_compute; reflexivity).
  assert (H2 : accounts sample_store !! 1 = Some (sample_account 1 "ACTIVE" 500000))
    by (vm_compute; reflexivity).
  assert (H3 : is_float (Account.balance (sample_account 1 "ACTIVE" 500000)))
    by (vm_compute; reflexivity).
  assert (H4 : nonneg (Account.balance (sample_account 1 "ACTIVE" 500000)))
    by (vm_compute; reflexivity).
  split; [auto|].
  refine (transfer_preserves_nonneg default_limit (sample_env sample_day 100)
            sample_request sample_store _ _ _ 1 _ H1 _ H2 H3 H4).
  apply surjective_pairing_3.
Defined.

(* ===================================================================== *)
(** ** The daily limit *)
(* ===================================================================== *)

Section DailyLimit.

Lemma filter_bool_app {A} (f : A -> bool) l1 l2 :
  List.filter f (l1 ++ l2) = List.filter f l1 ++ List.filter f l2.
Proof. induction l1 as [|x l1 IH]; simpl; [reflexivity|]. destruct (f x); simpl; congruence. Qed.

Lemma datetime_le_day_start day t : on_day day t -> datetime_le (datetime_combine day time_min) t = true.
Proof.
  intros [Hd [Hlo _]]. unfold datetime_le, datetime_combine. cbn.
  rewrite Hd, Z.eqb_refl, Z.ltb_irrefl. cbn. now apply Z.leb_le.
Qed.

Lemma datetime_le_day_end day t : on_day day t -> datetime_le t (datetime_combine day time_max) = true.
Proof.
  intros [Hd [_ Hhi]]. unfold datetime_le, datetime_combine. cbn.
  rewrite Hd, Z.eqb_refl, Z.ltb_irrefl. cbn. now apply Z.leb_le.
Qed.

(** A transfer committed on day [day] is among the rows that the daily
    sum of its sender selects on that day. *)
Lemma sent_today_moved env req src dst db day :
  on_day day (utcnow env) ->
  sent_today day (from_account req) (transactions (moved env req src dst db)) =
  sent_today day (from_account req) (transactions db) ++
  [ {| Transaction.id := next_id (map Transaction.id (transactions db));
       Transaction.from_account := from_account req;
       Transaction.to_account := to_account req;
       Transaction.amount := float_of_cents (Zpos (amount req));
       Transaction.created_at := utcnow env |} ].
Proof.
  intros Hday. unfold sent_today, moved. cbn [transactions].
  rewrite filter_bool_app. f_equal. cbn [List.filter].
  unfold sent_in_window. cbn [Transaction.from_account Transaction.created_at].
  rewrite Z.eqb_refl, datetime_le_day_start, datetime_le_day_end by assumption.
  reflexivity.
Qed.

Lemma compare_cont_Eq p q : PosDef.Pos.compare_cont Eq p q = (p ?= q)%positive.
Proof. reflexivity. Qed.

(** Funds that cover an amount cover a smaller amount of the same
    exponent. *)
Lemma flt_false_smaller b (m1 m2 : positive) e :
  (m2 <= m1)%positive ->
  flt b (S754_finite false m1 e) = false -> flt b (S754_finite false m2 e) = false.
Proof.
  intros Hm. unfold flt, SFltb, SFcompare.
  destruct b as [s|s| |s m e']; try destruct s; try reflexivity; try discriminate.
  destruct (e' ?= e); try reflexivity; try discriminate.
  rewrite (compare_cont_Eq m m1), (compare_cont_Eq m m2). intros H.
  assert (H1 : (m1 <= m)%positive).
  { apply Pos.compare_ge_iff. intros Hc. rewrite Hc in H. discriminate H. }
  assert (H2 : (m ?= m2)%positive <> Lt).
  { apply Pos.compare_ge_iff. lia. }
  destruct (m ?= m2)%positive eqn:Hc; try reflexivity. exfalso. apply H2. reflexivity.
Qed.

(** Funds that cover 1001.00 cover 1000.00. *)
Lemma covers_1001_1000 b :
  flt b (float_of_cents 100100) = false -> flt b (float_of_cents 100000) = false.
Proof.
  assert (float_of_cents 100100 = S754_finite false 8804889115230208 (-43)) as ->
    by (vm_compute; reflexivity).
  assert (float_of_cents 100000 = S754_finite false 8796093022208000 (-43)) as ->
    by (vm_compute; reflexivity).
  apply flt_false_smaller. lia.
Qed.

End DailyLimit.

(** Daily-limit enforcement at the boundary, and in general, where the
    day of the window and the day of the timestamps agree.
    With the limit at 1000.00, a source that has sent nothing today and
    funds that cover each attempt: a transfer of 1001.00 is refused with
    the limit error, a transfer of 1000.00 goes through, and a further
    transfer of 1.00 by the same account is refused with the limit error
    when the row of the 1000.00 is stamped (by [datetime.utcnow()]) with
    the calendar day that [date.today()] gives.  In general a transfer
    that returns had [transferred_today + amt <= DAILY_LIMIT] for the sum
    that [todays_transferred_sum] computes, and the limit error carries
    the limit, that sum and the amount attempted. *)
Lemma daily_limit_on_agreeing_days :
  (forall (env1 env2 env3 : Env) (from to : Z) (db : DB) (src dst : Account.t),
     from <> to ->
     accounts db !! from = Some src ->
     accounts db !! to = Some dst ->
     Account.status src = "ACTIVE" ->
     Account.status dst = "ACTIVE" ->
     sent_today (today env1) from (transactions db) = [] ->
     today env2 = today env1 ->
     today env3 = today env1 ->
     on_day (today env1) (utcnow env2) ->
     commit_fails env2 = false ->
     flt (Account.balance src) (float_of_cents 100100) = false ->
     flt (fsub (Account.balance src) (float_of_cents 100000)) (float_of_cents 100) = false ->
     let db' := moved env2 (mk_TransferRequest from to 100000) src dst db in
     fst (call (transfer limit_1000 env1 (mk_TransferRequest from to 100100)) db) =
       (Raise (HTTPException 400
                 (daily_limit_exceeded limit_1000 fzero (float_of_cents 100100))), db) /\
     fst (call (transfer limit_1000 env2 (mk_TransferRequest from to 100000)) db) =
       (Return (mk_TransferResponse from to (float_of_cents 100000)), db') /\
     fst (call (transfer limit_1000 env3 (mk_TransferRequest from to 100)) db') =
       (Raise (HTTPException 400
                 (daily_limit_exceeded limit_1000 (float_of_cents 100000)
                    (float_of_cents 100))), db')) /\
  (forall (L : float) (env : Env) (req : TransferRequest) (db db' : DB)
          (o : Outcome TransferResponse) (evs : list Event),
     is_number L ->
     log_nonneg (transactions db) ->
     amount_in_range req ->
     call (transfer L env req) db = (o, db', evs) ->
     let amt := float_of_cents (Zpos (amount req)) in
     let sent := transferred_today (today env) (from_account req) (transactions db) in
     (forall r, o = Return r -> fle (fadd sent amt) L = true) /\
     (forall c l a x, o = Raise (HTTPException c (daily_limit_exceeded l a x)) ->
        c = 400 /\ l = L /\ a = sent /\ x = amt /\ fgt (fadd sent amt) L = true)).
Proof.
  split.
  { (* the boundary scenario *)
    intros env1 env2 env3 from to db src dst
           Hne Hs Hd Hss Hds Hsent Hd2 Hd3 Hon Hc Hf1 Hf3 db'.
    assert (Ht0 : forall env, today env = today env1 ->
              transferred_today (today env) from (transactions db) = fzero).
    { intros env ->. unfold transferred_today. now rewrite Hsent. }
    assert (Hover1 : fgt (fadd fzero (float_of_cents 100100)) limit_1000 = true)
      by (vm_compute; reflexivity).
    assert (Hunder : fgt (fadd fzero (float_of_cents 100000)) limit_1000 = false)
      by (vm_compute; reflexivity).
    assert (Hover3 : fgt (fadd (float_of_cents 100000) (float_of_cents 100)) limit_1000
                     = true)
      by (vm_compute; reflexivity).
    split; [|split].
    - (* 1001.00 is over the limit *)
      unfold call.
      rewrite (transfer_over_limit limit_1000 env1 (mk_TransferRequest from to 100100) db
                 src dst Hne Hs Hd Hss Hds Hf1).
      + cbn [from_account]. rewrite Ht0 by reflexivity. reflexivity.
      + cbn [from_account amount]. rewrite Ht0 by reflexivity. exact Hover1.
    - (* 1000.00 is at the limit *)
      unfold call.
      rewrite (transfer_returns limit_1000 env2 (mk_TransferRequest from to 100000) db
                 src dst); [reflexivity| |exact Hc].
      unfold passes_checks. cbn [from_account to_account amount].
      rewrite Ht0 by exact Hd2.
      pose proof (covers_1001_1000 _ Hf1) as Hf2.
      split; [exact Hne|]. split; [exact Hs|]. split; [exact Hd|].
      split; [exact Hss|]. split; [exact Hds|]. split; [exact Hf2 | exact Hunder].
    - (* the log now holds 1000.00 sent today *)
      assert (Ht1 : transferred_today (today env3) from (transactions db')
                    = float_of_cents 100000).
      { unfold transferred_today. rewrite Hd3. unfold db'.
        rewrite (sent_today_moved env2 (mk_TransferRequest from to 100000)) by exact Hon.
        cbn [from_account amount]. rewrite Hsent. reflexivity. }
      assert (Hs' : accounts db' !! from =
                    Some (Account.set_balance src
                            (fsub (Account.balance src) (float_of_cents 100000)))).
      { unfold db', moved. cbn [accounts from_account to_account amount].
        rewrite lookup_insert_ne by congruence. apply lookup_insert_eq. }
      assert (Hd' : accounts db' !! to =
                    Some (Account.set_balance dst
                            (fadd (Account.balance dst) (float_of_cents 100000)))).
      { unfold db', moved. cbn [accounts from_account to_account amount].
        apply lookup_insert_eq. }
      unfold call.
      rewrite (transfer_over_limit limit_1000 env3 (mk_TransferRequest from to 100) db'
                 _ _ Hne Hs' Hd' Hss Hds Hf3).
      + cbn [from_account amount]. rewrite Ht1. reflexivity.
      + cbn [from_account amount]. rewrite Ht1. exact Hover3. }
  { (* in general *)
    intros L env req db db' o evs HL Hlog Hr Hcall amt sent. unfold call in Hcall.
    destruct (transfer L env req (new_session db)) as [o' s'] eqn:Hrun.
    injection Hcall as -> <- <-.
    split.
    - intros r ->.
      apply transfer_returns_inv in Hrun as (src & dst & Hp & _).
      destruct Hp as (_ & _ & _ & _ & _ & _ & Hl).
      apply not_fgt_fle; [|exact HL|exact Hl].
      apply nonneg_number, fadd_nonneg.
      + apply transferred_today_nonneg. exact Hlog.
      + apply amount_float. exact Hr.
    - intros c l a x ->. clear HL Hlog Hr.
      subst amt sent. handler_cases. auto. }
Qed.

Example daily_limit_on_agreeing_days_sample :
  (fst (call (transfer limit_1000 (sample_env sample_day 100)
                (mk_TransferRequest 1 3 100100)) sample_store) =
     (Raise (HTTPException 400
               (daily_limit_exceeded limit_1000 fzero (float_of_cents 100100))),
      sample_store) /\
   fst (call (transfer limit_1000 (sample_env sample_day 200)
                (mk_TransferRequest 1 3 100000)) sample_store) =
     (Return (mk_TransferResponse 1 3 (float_of_cents 100000)),
      moved (sample_env sample_day 200) (mk_TransferRequest 1 3 100000)
        (sample_account 1 "ACTIVE" 500000) (sample_account 3 "ACTIVE" 100000)
        sample_store) /\
   fst (call (transfer limit_1000 (sample_env sample_day 300)
                (mk_TransferRequest 1 3 100))
          (moved (sample_env sample_day 200) (mk_TransferRequest 1 3 100000)
             (sample_account 1 "ACTIVE" 500000) (sample_account 3 "ACTIVE" 100000)
             sample_store)) =
     (Raise (HTTPException 400
               (daily_limit_exceeded limit_1000 (float_of_cents 100000)
                  (float_of_cents 100))),
      moved (sample_env sample_day 200) (mk_TransferRequest 1 3 100000)
        (sample_account 1 "ACTIVE" 500000) (sample_account 3 "ACTIVE" 100000)
        sample_store)) /\
  (forall r,
     fst (fst (call (transfer default_limit (sample_env sample_day 100) sample_request)
                 sample_store)) = Return r ->
     fle (fadd (transferred_today sample_day 1 (transactions sample_store))
               (float_of_cents 10000)) default_limit = true).
Proof.
  split.
  - apply (proj1 daily_limit_on_agreeing_days
             (sample_env sample_day 100) (sample_env sample_day 200)
             (sample_env sample_day 300) 1 3 sample_store
             (sample_account 1 "ACTIVE" 500000) (sample_account 3 "ACTIVE" 100000));
      try (vm_compute; reflexivity).
    + discriminate.
    + vm_compute. repeat split; discriminate.
  - assert (Hnum : is_number default_limit) by discriminate.
    assert (Hlog : log_nonneg (transactions sample_store)) by constructor.
    assert (Hrange : amount_in_range sample_request) by (vm_compute; reflexivity).
    exact (proj1 (proj2 daily_limit_on_agreeing_days default_limit
                    (sample_env sample_day 100) sample_request sample_store _ _ _
                    Hnum Hlog Hrange (surjective_pairing_3 _))).
Defined.

(** C2.  The window of the daily sum is the day of [date.today()], the
    local date, while the rows it ranges over are stamped with
    [datetime.utcnow()].  In a process at UTC+05:30, at 02:00 local time
    the UTC date is still the day before: with the limit at 1000.00 and
    nothing sent before, a transfer of 1000.00 goes through and is
    stamped with the day before; one minute later the daily sum of the
    sender is still 0.0, and a transfer of 1.00 goes through as well,
    where the limit for the day is already used up. *)
Theorem daily_limit_missed_off_utc :
  fst (fst (call (transfer limit_1000 (east_of_utc_env sample_day 0)
                    (mk_TransferRequest 1 3 100000)) sample_store)) =
    Return (mk_TransferResponse 1 3 (float_of_cents 100000)) /\
  map Transaction.created_at
      (transactions (store_after limit_1000 (east_of_utc_env sample_day 0)
                       (mk_TransferRequest 1 3 100000) sample_store)) =
    [ {| dt_date := sample_day - 1; dt_micro := 73800000000 |} ] /\
  today (east_of_utc_env sample_day 60000000) = sample_day /\
  transferred_today sample_day 1
    (transactions (store_after limit_1000 (east_of_utc_env sample_day 0)
                     (mk_TransferRequest 1 3 100000) sample_store)) = fzero /\
  fst (fst (call (transfer limit_1000 (east_of_utc_env sample_day 60000000)
                    (mk_TransferRequest 1 3 100))
              (store_after limit_1000 (east_of_utc_env sample_day 0)
                 (mk_TransferRequest 1 3 100000) sample_store))) =
    Return (mk_TransferResponse 1 3 (float_of_cents 100)) /\
  map Transaction.amount
      (transactions
         (store_after limit_1000 (east_of_utc_env sample_day 60000000)
            (mk_TransferRequest 1 3 100)
            (store_after limit_1000 (east_of_utc_env sample_day 0)
               (mk_TransferRequest 1 3 100000) sample_store))) =
    [float_of_cents 100000; float_of_cents 100].
Proof. repeat split; vm_compute; reflexivity. Qed.

(* ===================================================================== *)
(** ** Failure leaves the store as it was *)
(* ===================================================================== *)

(** C4.  Atomicity on failure.  When a call to [transfer] raises, the
    store (balances and transaction log) is what it was before the call,
    the session keeps no staged write and holds no lock: the checks raise
    before anything is staged, and a fault at commit is followed by a
    rollback of the whole unit. *)
Theorem transfer_error_atomic
    (L : float) (env : Env) (req : TransferRequest) (db : DB) (e : Exn) (s' : Session) :
  transfer L env req (new_session db) = (Raise e, s') ->
  committed s' = db /\ pending s' = db /\ locks_held [] (events s') = [] /\
  call (transfer L env req) db = (Raise e, db, events s').
Proof.
  intros H. unfold call. rewrite H.
  apply transfer_raises_inv in H as (Hc & Hp & Hl).
  rewrite Hc. auto.
Qed.

(** A fault at commit, after both balances and the log entry were
    staged. *)
Lemma transfer_error_atomic_witness :
  transfer default_limit (faulty_env sample_day 100) sample_request
           (new_session sample_store) =
    (Raise (HTTPException 500 transfer_failed),
     {| committed := sample_store; pending := sample_store;
        events := [EvForUpdate 1; EvForUpdate 3; EvLock WriteLock; EvRelease; EvRelease] |}) /\
  call (transfer default_limit (faulty_env sample_day 100) sample_request) sample_store =
    (Raise (HTTPException 500 transfer_failed), sample_store,
     [EvForUpdate 1; EvForUpdate 3; EvLock WriteLock; EvRelease; EvRelease]).
Proof.
  assert (H : transfer default_limit (faulty_env sample_day 100) sample_request
                (new_session sample_store) =
              (Raise (HTTPException 500 transfer_failed),
               {| committed := sample_store; pending := sample_store;
                  events := [EvForUpdate 1; EvForUpdate 3; EvLock WriteLock; EvRelease; EvRelease] |}))
    by (vm_compute; reflexivity).
  split; [exact H|].
  exact (proj2 (proj2 (proj2 (transfer_error_atomic _ _ _ _ _ _ H)))).
Defined.

(* ===================================================================== *)
(** ** The order of the checks *)
(* ===================================================================== *)



(* ===================================================================== *)
(** ** What a successful transfer changes *)
(* ===================================================================== *)

(** C9.  Frame.  A transfer that returns changed, in the accounts table,
    the [balance] column of the source row and of the destination row
    and nothing else: every other column of those two rows and every
    other row is as before; and the transaction log gained exactly one
    entry, the one of this transfer. *)
Theorem transfer_frame
    (L : float) (env : Env) (req : TransferRequest) (db db' : DB)
    (r : TransferResponse) (evs : list Event) :
  call (transfer L env req) db = (Return r, db', evs) ->
  exists src dst src' dst' tx,
    accounts db !! from_account req = Some src /\
    accounts db !! to_account req = Some dst /\
    accounts db' !! from_account req = Some src' /\
    accounts db' !! to_account req = Some dst' /\
    same_but_balance src src' /\
    same_but_balance dst dst' /\
    (forall k, k <> from_account req -> k <> to_account req ->
       accounts db' !! k = accounts db !! k) /\
    transactions db' = transactions db ++ [tx] /\
    Transaction.from_account tx = from_account req /\
    Transaction.to_account tx = to_account req /\
    Transaction.amount tx = float_of_cents (Zpos (amount req)) /\
    Transaction.created_at tx = utcnow env.
Proof.
  intros Hcall. unfold call in Hcall.
  destruct (transfer L env req (new_session db)) as [o s'] eqn:Hrun.
  injection Hcall as -> <- <-.
  apply transfer_returns_inv in Hrun
    as (src & dst & (Hne & Hs & Hd & _) & _ & _ & ->).
  cbn [committed moved accounts transactions].
  eexists src, dst, _, _, _.
  split; [exact Hs|]. split; [exact Hd|].
  split; [rewrite lookup_insert_ne by congruence; apply lookup_insert_eq|].
  split; [apply lookup_insert_eq|].
  split; [repeat split|]. split; [repeat split|].
  split; [|repeat split].
  intros k Hkf Hkt. now rewrite !lookup_insert_ne by congruence.
Qed.

Lemma transfer_frame_witness :
  exists src dst src' dst' tx,
    accounts sample_store !! 1 = Some src /\
    accounts sample_store !! 3 = Some dst /\
    accounts (snd (fst (call (transfer default_limit (sample_env sample_day 100)
                                sample_request) sample_store))) !! 1 = Some src' /\
    accounts (snd (fst (call (transfer default_limit (sample_env sample_day 100)
                                sample_request) sample_store))) !! 3 = Some dst' /\
    same_but_balance src src' /\
    same_but_balance dst dst' /\
    (forall k, k <> 1 -> k <> 3 ->
       accounts (snd (fst (call (transfer default_limit (sample_env sample_day 100)
                                   sample_request) sample_store))) !! k =
       accounts sample_store !! k) /\
    transactions (snd (fst (call (transfer default_limit (sample_env sample_day 100)
                                    sample_request) sample_store))) =
      transactions sample_store ++ [tx] /\
    Transaction.from_account tx = 1 /\
    Transaction.to_account tx = 3 /\
    Transaction.amount tx = float_of_cents 10000 /\
    Transaction.created_at tx = utcnow (sample_env sample_day 100).
Proof.
  assert (H : call (transfer default_limit (sample_env sample_day 100) sample_request)
                sample_store =
              (Return (mk_TransferResponse 1 3 (float_of_cents 10000)),
               snd (fst (call (transfer default_limit (sample_env sample_day 100)
                                 sample_request) sample_store)),
               [EvForUpdate 1; EvForUpdate 3; EvLock WriteLock; EvRelease; EvRelease])).
  { vm_compute. reflexivity. }
  exact (transfer_frame _ _ _ _ _ _ _ H).
Defined.

(* ===================================================================== *)
(** ** Account creation *)
(* ===================================================================== *)

Lemma foldr_max_ge (l : list Z) (k : Z) :
  k ∈ l ->
  exists m,
    foldr (fun k acc => Some (match acc with None => k | Some m => Z.max k m end)) None l
      = Some m /\ k <= m.
Proof.
  induction l as [|x l IH]; intros Hk; [inversion Hk|].
  cbn [foldr]. apply elem_of_cons in Hk as [->|Hk].
  - destruct (foldr _ None l); eexists; split; try reflexivity; lia.
  - destruct (IH Hk) as (m & -> & Hm). eexists; split; [reflexivity|]. lia.
Qed.

Lemma sql_max_account_id_ge (t : gmap Z Account.t) k a :
  t !! k = Some a -> exists m, sql_max_account_id t = Some m /\ k <= m.
Proof.
  intros H. apply foldr_max_ge.
  apply elem_of_map_to_list in H.
  apply list_elem_of_In, in_map_iff. exists (k, a). split; [reflexivity|].
  now apply list_elem_of_In.
Qed.

(** The next account id is not in use. *)
Lemma next_account_id_fresh (t : gmap Z Account.t) :
  t !! (default 0 (sql_max_account_id t) + 1) = None.
Proof.
  destruct (t !! (default 0 (sql_max_account_id t) + 1)) as [a|] eqn:H; [|reflexivity].
  destruct (sql_max_account_id_ge _ _ _ H) as (m & Hm & Hle).
  rewrite Hm in Hle. cbn in Hle. lia.
Qed.

(** C10.  [create_account] puts no lower bound on [initial_balance]: a
    request with a negative initial balance, an unused account number, a
    customer id and a next account id that fit the 64-bit integers of the
    store, and a store that commits, returns, and the row it has added to
    the store has a negative balance. *)
Theorem create_account_negative_balance
    (env : Env) (req : CreateAccountRequest) (db : DB) (p : positive) :
  car_initial_balance req = Some (Zneg p) ->
  Zpos p < max_cents ->
  commit_fails env = false ->
  account_number_taken (car_account_number req) (accounts db) = false ->
  in_int64 (car_customer_id req) = true ->
  in_int64 (default 0 (sql_max_account_id (accounts db)) + 1) = true ->
  exists k a db',
    fst (call (create_account env req) db) = (Return (k, Account.balance a), db') /\
    accounts db !! k = None /\
    accounts db' !! k = Some a /\
    is_float (Account.balance a) /\
    flt (Account.balance a) fzero = true.
Proof.
  intros Hb Hp Hc Hn Hcust Hid.
  destruct (float_of_cents_negative p Hp) as (m & e & Hf & Hbd).
  unfold_handler. rewrite Hb, Hc, Hn, Hcust, Hid. handler_cbn.
  eexists _, _, _. split; [reflexivity|].
  split; [apply next_account_id_fresh|].
  split; [apply lookup_insert_eq|].
  cbn [Account.balance]. rewrite Hf. split; [exact Hbd | reflexivity].
Qed.

Lemma create_account_negative_balance_witness :
  exists k a db',
    fst (call (create_account (sample_env sample_day 100) overdrawn_request) sample_store)
      = (Return (k, Account.balance a), db') /\
    accounts sample_store !! k = None /\
    accounts db' !! k = Some a /\
    is_float (Account.balance a) /\
    flt (Account.balance a) fzero = true.
Proof.
  apply (create_account_negative_balance (sample_env sample_day 100)
           overdrawn_request sample_store 5000);
    vm_compute; reflexivity.
Defined.

(* ===================================================================== *)
(** ** Locks: a lookup that misses *)
(* ===================================================================== *)



(* ===================================================================== *)
(** ** Locks: none on a row, and what overlapping transfers lose *)
(* ===================================================================== *)

Section Opposite.

Variable L : float.
Variables env1 env2 : Env.
Variables req1 req2 : TransferRequest.
Variable db : DB.
Variables src dst : Account.t.

Hypothesis Hfirst : passes_checks L env1 req1 db src dst.
Hypothesis Hsecond : passes_checks L env2 req2 db dst src.
Hypothesis Hfrom : from_account req2 = to_account req1.
Hypothesis Hto : to_account req2 = from_account req1.
Hypothesis Hc1 : commit_fails env1 = false.
Hypothesis Hc2 : commit_fails env2 = false.






End Opposite.




(* ===================================================================== *)
(** ** Money is binary floating point *)
(* ===================================================================== *)

(** C6, as stated, fails.  The amount 0.10 is held as the binary64
    nearest to it, which is not 0.10.  And arithmetic rounds: with 0.30
    on account 1, a transfer of 0.20 to account 2 leaves account 1 with
    less than the binary64 for 0.10 and account 2 with more than the
    binary64 for 0.30, so that a transfer of the remaining 0.10 out of
    account 1 is refused for insufficient funds.  So neither is every
    amount of hundredths held exactly, nor is the difference of two held
    amounts the held amount of their difference. *)
Lemma decimal_money_counterexample :
  Z.mul 100 <$> exact_value (float_of_cents 10) <> Some (exact_cents 10) /\
  fst (fst (call (transfer default_limit (sample_env sample_day 100)
                    (mk_TransferRequest 1 2 20)) dimes_store)) =
    Return (mk_TransferResponse 1 2 (float_of_cents 20)) /\
  balance_of dimes_store 1 = Some (float_of_cents 30) /\
  balance_of dimes_store 2 = Some (float_of_cents 10) /\
  balance_of (store_after default_limit (sample_env sample_day 100)
                (mk_TransferRequest 1 2 20) dimes_store) 1
    = Some (S754_finite false 7205759403792792 (-56)) /\
  float_of_cents 10 = S754_finite false 7205759403792794 (-56) /\
  balance_of (store_after default_limit (sample_env sample_day 100)
                (mk_TransferRequest 1 2 20) dimes_store) 2
    = Some (S754_finite false 5404319552844596 (-54)) /\
  float_of_cents 30 = S754_finite false 5404319552844595 (-54) /\
  fst (fst (call (transfer default_limit (sample_env sample_day 200)
                    (mk_TransferRequest 1 2 10))
              (store_after default_limit (sample_env sample_day 100)
                 (mk_TransferRequest 1 2 20) dimes_store))) =
    Raise (HTTPException 400 insufficient_funds) /\
  ~ (forall c, 0 < c < max_cents ->
       Z.mul 100 <$> exact_value (float_of_cents c) = Some (exact_cents c)) /\
  ~ (forall a b, 0 < b < a -> a < max_cents ->
       fsub (float_of_cents a) (float_of_cents b) = float_of_cents (a - b)).
Proof.
  split; [vm_compute; discriminate|].
  do 8 (split; [vm_compute; reflexivity|]).
  split.
  - intros H. specialize (H 10 ltac:(vm_compute; split; reflexivity)).
    vm_compute in H. discriminate H.
  - intros H.
    specialize (H 30 20 ltac:(lia) ltac:(vm_compute; reflexivity)).
    vm_compute in H. discriminate H.
Qed.

Lemma fold_fadd_valid xs x :
  is_float x -> Forall is_float xs -> is_float (fold_left fadd xs x).
Proof.
  intros Hx Hxs. revert x Hx.
  induction Hxs as [|y ys Hy _ IH]; intros x Hx; simpl; [assumption|].
  apply IH. now apply fadd_valid.
Qed.

Lemma transferred_today_valid day k log :
  Forall (fun tx => is_float (Transaction.amount tx)) log ->
  is_float (transferred_today day k log).
Proof.
  intros Hlog. unfold transferred_today.
  set (v := sql_coalesce _ _).
  assert (Hv : is_float v).
  { unfold v, sql_coalesce, sql_sum, sent_today.
    pose proof (Forall_filter_bool _
      (sent_in_window k (datetime_combine day time_min) (datetime_combine day time_max))
      _ Hlog) as Hf.
    destruct (List.filter _ log) as [|tx rest]; simpl; [reflexivity|].
    inversion Hf as [|? ? Htx Hrest]; subst.
    apply fold_fadd_valid; [assumption|].
    clear -Hrest. induction Hrest; simpl; constructor; assumption. }
  destruct (float_truthy v); [assumption | reflexivity].
Qed.

(** C6, amended.  Money is binary64 floating point from the request on:
    a decimal amount or initial balance is converted to the binary64
    nearest to it, and balances, logged amounts and the daily sum are
    binary64 values combined with binary64 addition and subtraction.
    So on a store whose balances and logged amounts are binary64 values,
    the daily sum is a binary64 value, and after [transfer] and after
    [create_account] the balances and logged amounts are again binary64
    values, the new ones being the conversions and the rounded results. *)
Theorem money_stays_binary64 (db : DB) (env : Env) :
  money_is_binary64 db ->
  (forall k, is_float (transferred_today (today env) k (transactions db))) /\
  (forall L req, amount_in_range req ->
     money_is_binary64 (store_after L env req db) /\
     forall r, fst (fst (call (transfer L env req) db)) = Return r ->
       exists src dst,
         balance_of db (from_account req) = Some src /\
         balance_of db (to_account req) = Some dst /\
         balance_of (store_after L env req db) (from_account req)
           = Some (fsub src (float_of_cents (Zpos (amount req)))) /\
         balance_of (store_after L env req db) (to_account req)
           = Some (fadd dst (float_of_cents (Zpos (amount req))))) /\
  (forall req cents,
     car_initial_balance req = Some cents ->
     - max_cents < cents < max_cents ->
     money_is_binary64 (snd (fst (call (create_account env req) db))) /\
     forall k b, fst (fst (call (create_account env req) db)) = Return (k, b) ->
       b = float_of_cents cents /\
       balance_of (snd (fst (call (create_account env req) db))) k = Some b).
Proof.
  intros [Hacc Hlog]. split; [|split].
  - intros k. now apply transferred_today_valid.
  - intros L req Hr. destruct (amount_float req Hr) as (Va & _ & _).
    unfold store_after, balance_of, call, money_is_binary64.
    destruct (transfer L env req (new_session db)) as [[r|e] s'] eqn:Hrun; cbn [fst snd].
    + apply transfer_returns_inv in Hrun
        as (src & dst & (Hne & Hs & Hd & _) & _ & _ & ->).
      cbn [committed moved accounts transactions]. split; [split|].
      * intros k a. rewrite !lookup_insert. repeat case_decide; intros; simplify_eq;
          cbn [Account.balance Account.set_balance]; eauto using fadd_valid, fsub_valid.
      * apply Forall_app. split; [assumption|]. repeat constructor. exact Va.
      * intros r' _. exists (Account.balance src), (Account.balance dst).
        rewrite Hs, Hd, lookup_insert_eq, lookup_insert_ne, lookup_insert_eq by congruence.
        repeat split.
    + apply transfer_raises_inv in Hrun as (-> & _).
      split; [split; assumption | discriminate].
  - intros req cents Hb Hc. pose proof (float_of_cents_valid cents Hc) as Vc.
    unfold balance_of, money_is_binary64. unfold_handler. rewrite Hb.
    destruct (in_int64 _ && in_int64 _); handler_cbn;
      [|split; [split; assumption | discriminate]].
    destruct (commit_fails env || account_number_taken _ _); handler_cbn.
    + split; [split; assumption | discriminate].
    + split; [split|].
      * intros k a. rewrite lookup_insert. case_decide; intros; simplify_eq; eauto.
      * assumption.
      * intros k b [= <- <-]. rewrite lookup_insert_eq. split; reflexivity.
Qed.

Lemma sample_db_binary64 (rows : list (Z * Account.t)) :
  Forall (fun r => is_float (Account.balance (snd r))) rows ->
  money_is_binary64 (sample_db rows).
Proof.
  intros Hrows. split; [|constructor].
  intros k a Hk. cbn [sample_db accounts] in Hk.
  apply elem_of_list_to_map_2 in Hk.
  rewrite Forall_forall in Hrows. exact (Hrows (k, a) Hk).
Qed.

Lemma money_stays_binary64_witness :
  money_is_binary64 dimes_store /\
  money_is_binary64 (store_after default_limit (sample_env sample_day 100)
                       (mk_TransferRequest 1 2 20) dimes_store) /\
  balance_of (store_after default_limit (sample_env sample_day 100)
                (mk_TransferRequest 1 2 20) dimes_store) 1
    = Some (fsub (float_of_cents 30) (float_of_cents 20)).
Proof.
  assert (H0 : money_is_binary64 dimes_store).
  { apply sample_db_binary64. repeat constructor. }
  assert (Hr : amount_in_range (mk_TransferRequest 1 2 20)) by (vm_compute; reflexivity).
  destruct (money_stays_binary64 dimes_store (sample_env sample_day 100) H0)
    as (_ & Ht & _).
  destruct (Ht default_limit (mk_TransferRequest 1 2 20) Hr) as [H1 H2].
  split; [exact H0|]. split; [exact H1|].
  vm_compute. reflexivity.
Defined.

(* ===================================================================== *)
(** ** Conservation, and where rounding breaks it *)
(* ===================================================================== *)

Section Exactness.

Lemma shr_1_even q :
  0 < q ->
  shr_1 {| shr_m := 2 * q; shr_r := false; shr_s := false |} =
  {| shr_m := q; shr_r := false; shr_s := false |}.
Proof. destruct q as [|p|p]; try lia. reflexivity. Qed.

Lemma shr_iter_exact k q :
  0 < q ->
  Nat.iter k shr_1 {| shr_m := q * 2 ^ Z.of_nat k; shr_r := false; shr_s := false |} =
  {| shr_m := q; shr_r := false; shr_s := false |}.
Proof.
  intros Hq. induction k as [|k IH].
  - cbn [Nat.iter nat_rect]. f_equal. change (2 ^ Z.of_nat 0) with 1. lia.
  - rewrite Nat.iter_succ_r.
    replace (q * 2 ^ Z.of_nat (S k)) with (2 * (q * 2 ^ Z.of_nat k)).
    + rewrite shr_1_even; [exact IH|].
      pose proof (Z.pow_pos_nonneg 2 (Z.of_nat k)). nia.
    + rewrite Nat2Z.inj_succ, Z.pow_succ_r by lia. lia.
Qed.

(** Shifting out zeros loses nothing. *)
Lemma shr_exact m q e n :
  0 < q -> 0 <= n -> m = q * 2 ^ n ->
  shr {| shr_m := m; shr_r := false; shr_s := false |} e n =
  ({| shr_m := q; shr_r := false; shr_s := false |}, e + n).
Proof.
  intros Hq Hn ->. destruct n as [|p|p]; try lia.
  - cbn [shr]. f_equal; [f_equal|]; lia.
  - cbn [shr]. rewrite iter_pos_nat.
    rewrite <- (positive_nat_Z p) at 1. rewrite shr_iter_exact by assumption.
    reflexivity.
Qed.

Lemma bounded_exponent m e : bounded prec emax m e = true -> -1074 <= e <= 971.
Proof. rewrite bounded_iff. lia. Qed.

Lemma binary_round_aux_exact s m e mz Ez :
  bounded prec emax mz Ez = true ->
  e <= Ez ->
  m = Zpos mz * 2 ^ (Ez - e) ->
  binary_round_aux prec emax s m e loc_Exact = S754_finite s mz Ez.
Proof.
  intros Hb He Hm. pose proof Hb as Hb'. apply bounded_iff in Hb' as [Hcan Hmax].
  assert (Hd : Zdigits2 m = Zdigits2 (Zpos mz) + (Ez - e)).
  { rewrite Hm. apply Zdigits2_mul_pow2; lia. }
  unfold binary_round_aux, shr_fexp. rewrite fexp_eq.
  cbn [shr_record_of_loc].
  replace (Z.max (Zdigits2 m + e - 53) (-1074) - e) with (Ez - e) by lia.
  rewrite (shr_exact m (Zpos mz) e (Ez - e)) by (try assumption; lia).
  cbn [shr_m loc_of_shr_record round_nearest_even].
  rewrite fexp_eq. cbn [shr_record_of_loc].
  replace (Z.max (Zdigits2 (Zpos mz) + (e + (Ez - e)) - 53) (-1074) - (e + (Ez - e)))
    with 0 by lia.
  cbn [shr shr_m].
  replace (e + (Ez - e)) with Ez by lia.
  assert (Hle : (Ez <=? emax - prec) = true) by (apply Z.leb_le; unfold emax, prec; lia).
  rewrite Hle. reflexivity.
Qed.

Lemma pow2_cancel a b k : 0 <= k -> a * 2 ^ k = b * 2 ^ k -> a = b.
Proof.
  intros Hk H. pose proof (Z.pow_pos_nonneg 2 k ltac:(lia) Hk).
  apply Z.mul_cancel_r in H; lia.
Qed.

(** Rounding a value that a binary64 has yields that binary64. *)
Lemma binary_round_exact s m e mz Ez :
  bounded prec emax mz Ez = true ->
  -1074 <= e ->
  Zpos m * 2 ^ (e + 1074) = Zpos mz * 2 ^ (Ez + 1074) ->
  binary_round prec emax s m e = S754_finite s mz Ez.
Proof.
  intros Hb He Hv. pose proof (bounded_exponent _ _ Hb) as [HEz _].
  pose proof Hb as Hb'. apply bounded_iff in Hb' as [Hcan _].
  assert (Hd : Zdigits2 (Zpos m) + e = Zdigits2 (Zpos mz) + Ez).
  { pose proof (f_equal Zdigits2 Hv) as H.
    rewrite !Zdigits2_mul_pow2 in H by lia. lia. }
  unfold binary_round.
  change (Zpos (digits2_pos m)) with (Zdigits2 (Zpos m)).
  rewrite fexp_eq, Hd.
  replace (Z.max (Zdigits2 (Zpos mz) + Ez - 53) (-1074)) with Ez by lia.
  destruct (shl_align_spec m e Ez) as [Hm' He'].
  destruct (shl_align m e Ez) as [m' e']. cbn [fst snd] in Hm', He'. subst e'.
  apply binary_round_aux_exact; [exact Hb | lia |].
  rewrite Hm'.
  destruct (Z_le_gt_dec e Ez) as [Hle|Hgt].
  - rewrite Z.min_l, Z.sub_diag, Z.mul_1_r by lia.
    apply (pow2_cancel _ _ (e + 1074)); [lia|].
    rewrite Hv, <- Z.mul_assoc, <- Z.pow_add_r by lia. do 2 f_equal. lia.
  - rewrite Z.min_r, Z.sub_diag, Z.mul_1_r by lia.
    apply (pow2_cancel _ _ (Ez + 1074)); [lia|].
    rewrite <- Hv, <- Z.mul_assoc, <- Z.pow_add_r by lia. do 2 f_equal. lia.
Qed.

Lemma binary_normalize_exact M e sz :
  -1074 <= e ->
  representable (M * 2 ^ (e + 1074)) ->
  exact_value (binary_normalize prec emax M e sz) = Some (M * 2 ^ (e + 1074)).
Proof.
  intros He (z & Vz & Hz).
  pose proof (Z.pow_pos_nonneg 2 (e + 1074) ltac:(lia) ltac:(lia)) as Hp.
  destruct M as [|p|p]; cbn [binary_normalize].
  - reflexivity.
  - destruct z as [sz'|sz'| |sz' mz Ez]; cbn in Hz; try discriminate.
    + injection Hz as Hz. lia.
    + pose proof (bounded_exponent _ _ Vz) as [HEz _].
      pose proof (Z.pow_pos_nonneg 2 (Ez + 1074) ltac:(lia) ltac:(lia)).
      injection Hz as Hz. destruct sz'; cbn in Hz; [nia|].
      rewrite (binary_round_exact false p e mz Ez Vz He) by (unfold quantum_exp in Hz; lia).
      cbn. unfold quantum_exp in *. congruence.
  - destruct z as [sz'|sz'| |sz' mz Ez]; cbn in Hz; try discriminate.
    + injection Hz as Hz. lia.
    + pose proof (bounded_exponent _ _ Vz) as [HEz _].
      pose proof (Z.pow_pos_nonneg 2 (Ez + 1074) ltac:(lia) ltac:(lia)).
      injection Hz as Hz. destruct sz'; cbn in Hz; [|nia].
      rewrite (binary_round_exact true p e mz Ez Vz He) by (unfold quantum_exp in Hz; lia).
      cbn. unfold quantum_exp in *. f_equal. lia.
Qed.

Lemma aligned_value m e e' :
  e' <= e -> -1074 <= e' ->
  Zpos (fst (shl_align m e e')) * 2 ^ (e' + 1074) = Zpos m * 2 ^ (e + 1074).
Proof.
  intros Hle He'. destruct (shl_align_spec m e e') as [-> _].
  rewrite Z.min_r by lia. rewrite <- Z.mul_assoc, <- Z.pow_add_r by lia.
  do 2 f_equal. lia.
Qed.

Lemma cond_Zopp_mul s a b : cond_Zopp s a * b = cond_Zopp s (a * b).
Proof. destruct s; cbn; lia. Qed.

(** Where the exact sum is a binary64, [fadd] returns it. *)
Lemma fadd_exact x y a b :
  is_float x -> is_float y ->
  exact_value x = Some a -> exact_value y = Some b ->
  representable (a + b) ->
  exact_value (fadd x y) = Some (a + b).
Proof.
  intros Vx Vy Hx Hy Hrep.
  destruct x as [sx|sx| |sx mx ex], y as [sy|sy| |sy my ey]; cbn in Hx, Hy;
    try discriminate; injection Hx as <-; injection Hy as <-.
  - destruct sx, sy; reflexivity.
  - cbn. f_equal; try lia.
  - cbn. f_equal; try lia.
  - pose proof (bounded_exponent _ _ Vx) as [Hex _].
    pose proof (bounded_exponent _ _ Vy) as [Hey _].
    unfold fadd, SFadd. unfold quantum_exp in *.
    set (ez := Z.min ex ey) in *.
    assert (Hsum : (cond_Zopp sx (Zpos (fst (shl_align mx ex ez))) +
                    cond_Zopp sy (Zpos (fst (shl_align my ey ez)))) * 2 ^ (ez + 1074)
                   = cond_Zopp sx (Zpos mx * 2 ^ (ex + 1074)) +
                     cond_Zopp sy (Zpos my * 2 ^ (ey + 1074))).
    { rewrite Z.mul_add_distr_r, !cond_Zopp_mul, !aligned_value by (unfold ez; lia).
      reflexivity. }
    rewrite <- Hsum in *. apply binary_normalize_exact; [unfold ez; lia | exact Hrep].
Qed.

(** Where the exact difference is a binary64, [fsub] returns it. *)
Lemma fsub_exact x y a b :
  is_float x -> is_float y ->
  exact_value x = Some a -> exact_value y = Some b ->
  representable (a - b) ->
  exact_value (fsub x y) = Some (a - b).
Proof.
  intros Vx Vy Hx Hy Hrep.
  destruct x as [sx|sx| |sx mx ex], y as [sy|sy| |sy my ey]; cbn in Hx, Hy;
    try discriminate; injection Hx as <-; injection Hy as <-.
  - destruct sx, sy; reflexivity.
  - cbn. f_equal. destruct sy; cbn; try lia.
  - cbn. f_equal; try lia.
  - pose proof (bounded_exponent _ _ Vx) as [Hex _].
    pose proof (bounded_exponent _ _ Vy) as [Hey _].
    unfold fsub, SFsub. unfold quantum_exp in *.
    set (ez := Z.min ex ey) in *.
    assert (Hsum : (cond_Zopp sx (Zpos (fst (shl_align mx ex ez))) -
                    cond_Zopp sy (Zpos (fst (shl_align my ey ez)))) * 2 ^ (ez + 1074)
                   = cond_Zopp sx (Zpos mx * 2 ^ (ex + 1074)) -
                     cond_Zopp sy (Zpos my * 2 ^ (ey + 1074))).
    { rewrite Z.mul_sub_distr_r, !cond_Zopp_mul, !aligned_value by (unfold ez; lia).
      reflexivity. }
    rewrite <- Hsum in *. apply binary_normalize_exact; [unfold ez; lia | exact Hrep].
Qed.

End Exactness.

(** C3, as stated, fails.  Account 1 holds 0.11 and account 2 holds 0.00;
    a transfer of 0.04 from 1 to 2 returns.  The debit
    [0.11 - 0.04] is rounded, and afterwards the two balances add up to
    more than before the call: in binary64 arithmetic
    [0.07 + 0.04 = 0.11000000000000001], not [0.11 + 0.0 = 0.11], and the
    exact sums differ by half a unit in the last place.  So conservation
    holds for every returning transfer neither for the binary64 sums nor
    for the exact sums. *)
Lemma conservation_counterexample :
  fst (fst (call (transfer default_limit (sample_env sample_day 100)
                    (mk_TransferRequest 1 2 4)) pennies_store)) =
    Return (mk_TransferResponse 1 2 (float_of_cents 4)) /\
  balance_of pennies_store 1 = Some (S754_finite false 7926335344172073 (-56)) /\
  balance_of pennies_store 2 = Some (S754_zero false) /\
  balance_of (store_after default_limit (sample_env sample_day 100)
                (mk_TransferRequest 1 2 4) pennies_store) 1
    = Some (S754_finite false 5044031582654956 (-56)) /\
  balance_of (store_after default_limit (sample_env sample_day 100)
                (mk_TransferRequest 1 2 4) pennies_store) 2
    = Some (S754_finite false 5764607523034235 (-57)) /\
  fadd (S754_finite false 5044031582654956 (-56))
       (S754_finite false 5764607523034235 (-57))
    = S754_finite false 7926335344172074 (-56) /\
  fadd (S754_finite false 7926335344172073 (-56)) (S754_zero false)
    = S754_finite false 7926335344172073 (-56) /\
  SFeqb (S754_finite false 7926335344172074 (-56))
        (S754_finite false 7926335344172073 (-56)) = false /\
  exact_sum (S754_finite false 5044031582654956 (-56))
            (S754_finite false 5764607523034235 (-57))
    <> exact_sum (S754_finite false 7926335344172073 (-56)) (S754_zero false) /\
  ~ (forall L env req db r src dst src' dst',
       fst (fst (call (transfer L env req) db)) = Return r ->
       balance_of db (from_account req) = Some src ->
       balance_of db (to_account req) = Some dst ->
       balance_of (store_after L env req db) (from_account req) = Some src' ->
       balance_of (store_after L env req db) (to_account req) = Some dst' ->
       fadd src' dst' = fadd src dst \/ exact_sum src' dst' = exact_sum src dst).
Proof.
  do 8 (split; [vm_compute; reflexivity|]).
  split; [vm_compute; discriminate|].
  intros H.
  destruct (H default_limit (sample_env sample_day 100) (mk_TransferRequest 1 2 4)
              pennies_store (mk_TransferResponse 1 2 (float_of_cents 4))
              (S754_finite false 7926335344172073 (-56)) (S754_zero false)
              (S754_finite false 5044031582654956 (-56))
              (S754_finite false 5764607523034235 (-57))) as [Hf|He];
    try (vm_compute; reflexivity).
  - vm_compute in Hf. discriminate Hf.
  - vm_compute in He. discriminate He.
Qed.

(** C3, amended.  A transfer that returns has debited the source and
    credited the destination by the same binary64 amount, each result
    rounded to the nearest binary64.  Whenever the exact difference
    [source - amt] and the exact sum [destination + amt] are themselves
    binary64 values, nothing is rounded and the sum of the two balances
    after the call is exactly the sum before it. *)
Theorem transfer_conserves_when_exact
    (L : float) (env : Env) (req : TransferRequest) (db db' : DB)
    (r : TransferResponse) (evs : list Event) :
  amount_in_range req ->
  call (transfer L env req) db = (Return r, db', evs) ->
  let amt := float_of_cents (Zpos (amount req)) in
  exists src dst src' dst',
    balance_of db (from_account req) = Some src /\
    balance_of db (to_account req) = Some dst /\
    balance_of db' (from_account req) = Some src' /\
    balance_of db' (to_account req) = Some dst' /\
    src' = fsub src amt /\
    dst' = fadd dst amt /\
    forall vs vd va,
      is_float src -> is_float dst ->
      exact_value src = Some vs ->
      exact_value dst = Some vd ->
      exact_value amt = Some va ->
      representable (vs - va) ->
      representable (vd + va) ->
      exact_value src' = Some (vs - va) /\
      exact_value dst' = Some (vd + va) /\
      exact_sum src' dst' = Some (vs + vd) /\
      exact_sum src' dst' = exact_sum src dst.
Proof.
  intros Hr Hcall amt. destruct (amount_float req Hr) as (Va & _ & _). fold amt in Va.
  unfold call in Hcall.
  destruct (transfer L env req (new_session db)) as [o s'] eqn:Hrun.
  injection Hcall as -> <- <-.
  apply transfer_returns_inv in Hrun
    as (src & dst & (Hne & Hs & Hd & _) & _ & _ & ->).
  exists (Account.balance src), (Account.balance dst),
         (fsub (Account.balance src) amt), (fadd (Account.balance dst) amt).
  unfold balance_of. cbn [committed moved accounts].
  rewrite Hs, Hd, lookup_insert_eq, lookup_insert_ne, lookup_insert_eq by congruence.
  repeat (split; [reflexivity|]).
  intros vs vd va Vs Vd Hvs Hvd Hva Hrs Hrd.
  pose proof (fsub_exact _ _ _ _ Vs Va Hvs Hva Hrs) as Hs'.
  pose proof (fadd_exact _ _ _ _ Vd Va Hvd Hva Hrd) as Hd'.
  split; [exact Hs'|]. split; [exact Hd'|].
  unfold exact_sum. rewrite Hs', Hd', Hvs, Hvd.
  split; f_equal; lia.
Qed.

(** Whole amounts are exact: 5000.00 and 1000.00 with a transfer of
    100.00. *)
Lemma transfer_conserves_when_exact_witness :
  exact_value (fsub (float_of_cents 500000) (float_of_cents 10000))
    = Some (4900 * 2 ^ 1074) /\
  exact_value (fadd (float_of_cents 100000) (float_of_cents 10000))
    = Some (1100 * 2 ^ 1074) /\
  exact_sum (fsub (float_of_cents 500000) (float_of_cents 10000))
            (fadd (float_of_cents 100000) (float_of_cents 10000))
    = exact_sum (float_of_cents 500000) (float_of_cents 100000).
Proof.
  assert (Hr : amount_in_range sample_request) by (vm_compute; reflexivity).
  destruct (transfer_conserves_when_exact default_limit (sample_env sample_day 100)
              sample_request sample_store _ _ _ Hr (surjective_pairing_3 _)
           ) as (src & dst & src' & dst' & Hs & Hd & _ & _ & -> & -> & Hex).
  injection Hs as <-. injection Hd as <-.
  destruct (Hex (5000 * 2 ^ 1074) (1000 * 2 ^ 1074) (100 * 2 ^ 1074))
    as (H1 & H2 & _ & H4);
    try (vm_compute; reflexivity).
  - exists (float_of_cents 490000). split; vm_compute; reflexivity.
  - exists (float_of_cents 110000). split; vm_compute; reflexivity.
  - split; [exact H1|]. split; [exact H2 | exact H4].
Defined.

(* ===================================================================== *)
(** ** The other handlers: what a call returns and leaves behind *)
(* ===================================================================== *)

Lemma create_account_run env req db :
  create_account env req (new_session db) =
  match car_initial_balance req with
  | None => (Raise TypeError, unchanged db [EvRelease])
  | Some cents =>
      if in_int64 (new_account_id db) && in_int64 (car_customer_id req)
      then
        if commit_fails env || account_number_taken (car_account_number req) (accounts db)
        then (Raise SQLAlchemyError, unchanged db [EvLock WriteLock; EvRelease])
        else (Return (new_account_id db, float_of_cents cents),
              written (opened env req cents db))
      else (Raise OverflowError, unchanged db [EvRelease])
  end.
Proof.
  unfold_handler. unfold new_account_id.
  destruct (car_initial_balance req) as [cents|]; [|reflexivity].
  destruct (in_int64 _ && in_int64 _); handler_cbn; [|reflexivity].
  destruct (commit_fails env || account_number_taken _ _); reflexivity.
Qed.

Lemma get_account_run account_id db :
  get_account account_id (new_session db) =
  match accounts db !! account_id with
  | None => (Raise (missing account_id), unchanged db [EvRelease])
  | Some acc => (Return acc, unchanged db [EvRelease])
  end.
Proof.
  unfold_handler. unfold missing.
  destruct (accounts db !! account_id); [reflexivity|].
  destruct (in_int64 account_id); reflexivity.
Qed.

Lemma change_status_run U env account_id req db :
  change_status U env account_id req (new_session db) =
  match accounts db !! account_id with
  | None => (Raise (missing account_id), unchanged db [EvRelease])
  | Some acc =>
      let st := U (scr_status req) in
      if commit_fails env
      then (Raise SQLAlchemyError, unchanged db (status_lock acc st ++ [EvRelease]))
      else (Return (account_id, st),
            {| committed := restated account_id st acc db;
               pending := restated account_id st acc db;
               events := status_lock acc st ++ [EvRelease; EvRelease] |})
  end.
Proof.
  unfold_handler. unfold missing, status_lock.
  destruct (accounts db !! account_id) as [acc|];
    [|destruct (in_int64 account_id); reflexivity].
  cbn [Account.status Account.set_status].
  destruct (String.eqb (Account.status acc) (U (scr_status req)));
    destruct (commit_fails env); reflexivity.
Qed.

Lemma status_lock_released acc st n :
  locks_held [] (status_lock acc st ++ repeat EvRelease (S n)) = [].
Proof.
  unfold status_lock. destruct (String.eqb _ _); cbn [app locks_held repeat].
  - induction n as [|n IH]; [reflexivity | exact IH].
  - induction n as [|n IH]; [reflexivity | exact IH].
Qed.

(** *** The largest account id *)

Lemma foldr_max_spec (l : list Z) :
  match foldr (fun k acc => Some (match acc with None => k | Some m => Z.max k m end)) None l with
  | None => l = []
  | Some m => m ∈ l /\ forall k, k ∈ l -> k <= m
  end.
Proof.
  induction l as [|x l IH]; cbn [foldr]; [reflexivity|].
  destruct (foldr _ None l) as [m|].
  - destruct IH as [Hm Hle]. split.
    + destruct (Z.max_spec x m) as [[_ ->]|[_ ->]]; [right; exact Hm | left].
    + intros k [->|Hk]%elem_of_cons; [lia|]. specialize (Hle k Hk). lia.
  - subst l. split; [left|]. intros k [->|Hk]%elem_of_cons; [lia|inversion Hk].
Qed.

Lemma account_ids_elem (t : gmap Z Account.t) k :
  k ∈ map fst (map_to_list t) <-> is_Some (t !! k).
Proof.
  rewrite list_elem_of_In, in_map_iff. split.
  - intros ([k' a] & <- & Hin). exists a.
    now apply elem_of_map_to_list, list_elem_of_In.
  - intros [a Ha]. exists (k, a). split; [reflexivity|].
    now apply list_elem_of_In, elem_of_map_to_list.
Qed.

Lemma sql_max_account_id_spec (t : gmap Z Account.t) :
  match sql_max_account_id t with
  | None => t = ∅
  | Some m => is_Some (t !! m) /\ forall k, is_Some (t !! k) -> k <= m
  end.
Proof.
  unfold sql_max_account_id.
  pose proof (foldr_max_spec (map fst (map_to_list t))) as H.
  destruct (foldr _ None _) as [m|].
  - destruct H as [Hm Hle]. split; [now apply account_ids_elem|].
    intros k Hk. now apply Hle, account_ids_elem.
  - apply map_eq_nil in H. now apply map_to_list_empty_iff.
Qed.

Lemma new_account_id_above db k :
  is_Some (accounts db !! k) -> k < new_account_id db.
Proof.
  intros Hk. unfold new_account_id.
  pose proof (sql_max_account_id_spec (accounts db)) as H.
  destruct (sql_max_account_id (accounts db)) as [m|]; cbn.
  - destruct H as [_ H]. specialize (H k Hk). lia.
  - rewrite H, lookup_empty in Hk. now destruct Hk.
Qed.

Lemma new_account_id_unused db : accounts db !! new_account_id db = None.
Proof.
  destruct (accounts db !! new_account_id db) as [a|] eqn:H; [|reflexivity].
  pose proof (new_account_id_above db _ (mk_is_Some _ _ H)). lia.
Qed.

Lemma sql_max_account_id_insert (t : gmap Z Account.t) k a :
  (forall j, is_Some (t !! j) -> j < k) ->
  sql_max_account_id (<[k := a]> t) = Some k.
Proof.
  intros Hk. pose proof (sql_max_account_id_spec (<[k := a]> t)) as H.
  destruct (sql_max_account_id (<[k := a]> t)) as [m|].
  - destruct H as [Hm Hle]. f_equal.
    destruct (decide (m = k)) as [|Hne]; [assumption|].
    rewrite lookup_insert_ne in Hm by congruence. specialize (Hk m Hm).
    specialize (Hle k). rewrite lookup_insert_eq in Hle.
    specialize (Hle (mk_is_Some _ _ eq_refl)). lia.
  - exfalso. exact (insert_non_empty (M:=gmap Z) t k a H).
Qed.

Lemma new_account_id_opened env req cents db :
  new_account_id (opened env req cents db) = new_account_id db + 1.
Proof.
  unfold new_account_id at 1. cbn [opened accounts].
  rewrite sql_max_account_id_insert; [reflexivity|].
  apply new_account_id_above.
Qed.

(** *** The next value of an autoincrement key *)

Lemma next_id_above (ids : list Z) x : x ∈ ids -> x < next_id ids.
Proof.
  unfold next_id. induction ids as [|y ids IH]; intros Hx; [inversion Hx|].
  cbn [foldr]. apply elem_of_cons in Hx as [->|Hx]; [lia|].
  specialize (IH Hx). lia.
Qed.

(** *** One request, case by case *)

Lemma serve_served L U env r db : served L U env db r (serve L U env r db).
Proof.
  destruct r as [req|req|k|k req]; cbn [serve]; unfold call.
  - destruct (transfer L env req (new_session db)) as [[r|e] s'] eqn:Hrun; cbn [fst snd].
    + apply transfer_returns_inv in Hrun as (src & dst & Hp & _ & _ & ->).
      cbn [committed]. now constructor.
    + apply transfer_raises_inv in Hrun as (-> & _). constructor.
  - rewrite create_account_run.
    destruct (car_initial_balance req) as [cents|] eqn:Hb; [|constructor].
    destruct (in_int64 _ && in_int64 _); [|constructor].
    destruct (commit_fails env); cbn [orb]; [constructor|].
    destruct (account_number_taken _ _) eqn:Ht; [constructor|].
    now apply served_create.
  - rewrite get_account_run. destruct (accounts db !! k); constructor.
  - rewrite change_status_run. destruct (accounts db !! k) as [acc|] eqn:Hk; [|constructor].
    destruct (commit_fails env); [constructor|]. now apply served_status.
Qed.

(** An invariant of every request is an invariant of every run of
    requests. *)
Lemma serve_all_invariant L U (P : DB -> Prop) (Q : Request -> Prop) :
  (forall env r db db', Q r -> served L U env db r db' -> P db -> P db') ->
  forall rs db, Forall (fun er => Q (snd er)) rs -> P db -> P (serve_all L U rs db).
Proof.
  intros Hstep rs. induction rs as [|[env r] rs IH]; intros db Hrs Hdb; [exact Hdb|].
  inversion Hrs as [|? ? Hr Hrs']; subst. cbn [serve_all fold_left fst snd].
  apply IH; [exact Hrs'|]. eapply Hstep; [exact Hr | apply serve_served | exact Hdb].
Qed.

(** *** What every request keeps *)

Lemma same_identity_refl a : same_identity a a.
Proof. repeat split. Qed.

Lemma same_identity_trans a b c : same_identity a b -> same_identity b c -> same_identity a c.
Proof. unfold same_identity. intuition congruence. Qed.

Lemma grows_to_refl db : grows_to db db.
Proof. split; [|reflexivity]. intros k a Hk. exists a. split; [exact Hk | apply same_identity_refl]. Qed.

Lemma grows_to_trans db1 db2 db3 : grows_to db1 db2 -> grows_to db2 db3 -> grows_to db1 db3.
Proof.
  intros [Ha Hl] [Ha' Hl']. split; [|etransitivity; eassumption].
  intros k a Hk. destruct (Ha k a Hk) as (a' & Hk' & Hs).
  destruct (Ha' k a' Hk') as (a'' & Hk'' & Hs'). exists a''.
  split; [exact Hk'' | eapply same_identity_trans; eassumption].
Qed.

Lemma served_grows L U env db r db' : served L U env db r db' -> grows_to db db'.
Proof.
  intros [r0|req src dst (Hne & Hs & Hd & _)|req cents Hb Ht|k req acc Hk].
  - apply grows_to_refl.
  - split; [|apply prefix_app_r; reflexivity].
    intros k a Hk. cbn [moved accounts]. rewrite !lookup_insert.
    repeat case_decide; simplify_eq; eexists; (split; [first [reflexivity | eassumption]|]); repeat split.
  - split; [|reflexivity].
    intros k a Hk. cbn [opened accounts]. rewrite lookup_insert_ne.
    + exists a. split; [exact Hk | apply same_identity_refl].
    + intros <-. rewrite new_account_id_unused in Hk. discriminate.
  - split; [|reflexivity].
    intros j a Hj. cbn [restated accounts]. rewrite lookup_insert.
    case_decide; simplify_eq; eexists; (split; [first [reflexivity | eassumption]|]); repeat split.
Qed.

Lemma increasing_snoc ids y :
  increasing ids -> Forall (fun x => x < y) ids -> increasing (ids ++ [y]).
Proof.
  induction ids as [|x ids IH]; cbn [increasing app]; intros Hi Hy.
  - split; constructor.
  - destruct Hi as [Hx Hi]. inversion Hy as [|? ? Hxy Hy']; subst. split.
    + apply Forall_app. split; [exact Hx | repeat constructor; exact Hxy].
    + apply IH; assumption.
Qed.

Lemma increasing_NoDup ids : increasing ids -> NoDup ids.
Proof.
  induction ids as [|x ids IH]; cbn [increasing]; [constructor|].
  intros [Hx Hi]. constructor; [|auto].
  intros Hin. rewrite Forall_forall in Hx. specialize (Hx _ Hin). lia.
Qed.

Lemma served_log_ids L U env db r db' :
  served L U env db r db' -> log_ids_increasing db -> log_ids_increasing db'.
Proof.
  intros [r0|req src dst _|req cents _ _|k req acc _] Hi; try exact Hi.
  unfold log_ids_increasing. cbn [moved transactions]. rewrite map_app.
  apply increasing_snoc; [exact Hi|].
  apply Forall_forall. intros x Hx. now apply next_id_above.
Qed.

Lemma served_log_refs L U env db r db' :
  served L U env db r db' -> log_refers_to_accounts db -> log_refers_to_accounts db'.
Proof.
  intros Hs Hrefs.
  assert (Hg : forall k, is_Some (accounts db !! k) -> is_Some (accounts db' !! k)).
  { intros k [a Ha]. destruct (served_grows _ _ _ _ _ _ Hs) as [Hacc _].
    destruct (Hacc k a Ha) as (a' & Ha' & _). now exists a'. }
  assert (Hold : Forall (fun tx => is_Some (accounts db' !! Transaction.from_account tx) /\
                                   is_Some (accounts db' !! Transaction.to_account tx))
                        (transactions db)).
  { eapply Forall_impl; [exact Hrefs|]. cbn. intros tx [Hf Ht]. split; apply Hg; assumption. }
  destruct Hs as [r0|req src dst (Hne & Hsrc & Hdst & _)|req cents _ _|k req acc _];
    try exact Hold.
  unfold log_refers_to_accounts. cbn [moved transactions]. apply Forall_app.
  split; [exact Hold|]. repeat constructor;
    cbn [Transaction.from_account Transaction.to_account moved accounts];
    rewrite !lookup_insert; repeat case_decide; try congruence; eexists; reflexivity.
Qed.

Lemma account_number_not_taken n (t : gmap Z Account.t) k a :
  account_number_taken n t = false -> t !! k = Some a -> Account.account_number a <> n.
Proof.
  intros Ht Hk Heq. unfold account_number_taken in Ht.
  assert (H : existsb (fun r => String.eqb (Account.account_number (snd r)) n) (map_to_list t)
              = true); [|congruence].
  apply existsb_exists. exists (k, a). split.
  - now apply list_elem_of_In, elem_of_map_to_list.
  - cbn. now apply String.eqb_eq.
Qed.

Lemma row_id_below_next (t : gmap Z Account.t) k a :
  t !! k = Some a ->
  Account.id a < next_id (map (fun r => Account.id (snd r)) (map_to_list t)).
Proof.
  intros Hk. apply next_id_above, list_elem_of_In, in_map_iff.
  exists (k, a). split; [reflexivity|]. now apply list_elem_of_In, elem_of_map_to_list.
Qed.

Lemma served_keys_unique L U env db r db' :
  served L U env db r db' -> account_keys_unique db -> account_keys_unique db'.
Proof.
  intros [r0|req src dst (Hne & Hs & Hd & _)|req cents Hb Ht|k req acc Hk] Hu; try exact Hu.
  - assert (Hrow : forall k a', accounts (moved env req src dst db) !! k = Some a' ->
              exists a, accounts db !! k = Some a /\
                Account.account_number a' = Account.account_number a /\
                Account.id a' = Account.id a).
    { intros k a'. cbn [moved accounts]. rewrite !lookup_insert.
      repeat case_decide; intros; simplify_eq; eexists; (split; [eassumption|]);
        split; reflexivity. }
    intros k1 k2 a1 a2 H1 H2 Heq.
    destruct (Hrow _ _ H1) as (b1 & Hb1 & Hn1 & Hi1).
    destruct (Hrow _ _ H2) as (b2 & Hb2 & Hn2 & Hi2).
    apply (Hu k1 k2 b1 b2 Hb1 Hb2). rewrite <- Hn1, <- Hn2, <- Hi1, <- Hi2. exact Heq.
  - intros k1 k2 a1 a2. cbn [opened accounts]. rewrite !lookup_insert.
    repeat case_decide; intros H1 H2 Heq; simplify_eq; try congruence.
    + exfalso. cbn [new_account Account.account_number Account.id] in Heq.
      destruct Heq as [Heq|Heq].
      * symmetry in Heq. revert Heq. eapply account_number_not_taken; eassumption.
      * pose proof (row_id_below_next _ _ _ H2). lia.
    + exfalso. cbn [new_account Account.account_number Account.id] in Heq.
      destruct Heq as [Heq|Heq].
      * revert Heq. eapply account_number_not_taken; eassumption.
      * pose proof (row_id_below_next _ _ _ H1). lia.
    + eapply Hu; eassumption.
  - assert (Hrow : forall j a', accounts (restated k (U (scr_status req)) acc db) !! j = Some a' ->
              exists a, accounts db !! j = Some a /\
                Account.account_number a' = Account.account_number a /\
                Account.id a' = Account.id a).
    { intros j a'. cbn [restated accounts]. rewrite lookup_insert.
      case_decide; intros; simplify_eq; eexists; (split; [eassumption|]);
        split; reflexivity. }
    intros k1 k2 a1 a2 H1 H2 Heq.
    destruct (Hrow _ _ H1) as (b1 & Hb1 & Hn1 & Hi1).
    destruct (Hrow _ _ H2) as (b2 & Hb2 & Hn2 & Hi2).
    apply (Hu k1 k2 b1 b2 Hb1 Hb2). rewrite <- Hn1, <- Hn2, <- Hi1, <- Hi2. exact Heq.
Qed.

Lemma float_of_cents_nonneg c :
  0 <= c < max_cents -> is_float (float_of_cents c) /\ nonneg (float_of_cents c).
Proof.
  intros Hc. destruct c as [|p|p]; [split; reflexivity| |lia].
  destruct (float_of_cents_positive p) as (m & e & -> & Hb); [lia|].
  split; [exact Hb | now apply nonneg_cases].
Qed.

Lemma served_balances_nonneg L U env db r db' :
  served L U env db r db' -> request_in_range r -> opens_nonneg r ->
  balances_nonneg db -> balances_nonneg db'.
Proof.
  intros [r0|req src dst (Hne & Hs & Hd & _ & _ & Hf & _)|req cents Hb Ht|k req acc Hk] Hr Ho Hn;
    try exact Hn.
  - cbn [request_in_range] in Hr. destruct (amount_float req Hr) as (Va & Na & Fa).
    destruct (Hn _ _ Hs) as [Vs Ns]. destruct (Hn _ _ Hd) as [Vd Nd].
    intros k a. cbn [moved accounts]. rewrite !lookup_insert.
    repeat case_decide; intros; simplify_eq; cbn [Account.set_balance Account.balance].
    + split; [now apply fadd_valid | now apply fadd_nonneg].
    + split; [now apply fsub_valid | now apply fsub_nonneg].
    + eapply Hn; eassumption.
  - cbn [request_in_range opens_nonneg] in Hr, Ho. rewrite Hb in Hr, Ho.
    intros k a. cbn [opened accounts]. rewrite lookup_insert.
    case_decide; intros; simplify_eq.
    + cbn [new_account Account.balance]. apply float_of_cents_nonneg. lia.
    + eapply Hn; eassumption.
  - intros j a. cbn [restated accounts]. rewrite lookup_insert.
    case_decide; intros; simplify_eq.
    + cbn [Account.set_status Account.balance]. eapply Hn; eassumption.
    + eapply Hn; eassumption.
Qed.

Lemma served_keeps_money L U env db r db' :
  served L U env db r db' -> is_transfer r = false ->
  transactions db' = transactions db /\
  forall k a, accounts db !! k = Some a ->
    exists a', accounts db' !! k = Some a' /\ Account.balance a' = Account.balance a.
Proof.
  intros [r0|req src dst _|req cents Hb Ht|k req acc Hk] Hr; try discriminate Hr.
  - split; [reflexivity|]. eauto.
  - split; [reflexivity|]. intros k a Hk. cbn [opened accounts].
    rewrite lookup_insert_ne; [eauto|].
    intros <-. rewrite new_account_id_unused in Hk. discriminate.
  - split; [reflexivity|]. intros j a Hj. cbn [restated accounts]. rewrite lookup_insert.
    case_decide; simplify_eq; eauto.
Qed.

Lemma served_keeps_status L U env db r db' :
  served L U env db r db' -> is_status_change r = false ->
  forall k a, accounts db !! k = Some a ->
    exists a', accounts db' !! k = Some a' /\ Account.status a' = Account.status a.
Proof.
  intros [r0|req src dst (Hne & Hs & Hd & _)|req cents Hb Ht|k req acc Hk] Hr;
    try discriminate Hr.
  - eauto.
  - intros k a Hk. cbn [moved accounts]. rewrite !lookup_insert.
    repeat case_decide; simplify_eq; eauto.
  - intros k a Hk. cbn [opened accounts].
    rewrite lookup_insert_ne; [eauto|].
    intros <-. rewrite new_account_id_unused in Hk. discriminate.
Qed.

(* ===================================================================== *)
(** ** Runs of requests *)
(* ===================================================================== *)

(** X1.  The store only grows.  Whatever requests are served, in
    whatever order and with whatever outcome, every account that was in
    the store is still there, with every column but [balance] and
    [status] as it was, and the transaction log of before is the
    beginning of the log of after: no handler deletes a row, rewrites an
    identity column or touches a logged transaction. *)
Theorem store_only_grows
    (L : float) (str_upper : string -> string) (rs : list (Env * Request))
    (db : DB) :
  grows_to db (serve_all L str_upper rs db).
Proof.
  apply (serve_all_invariant L str_upper (grows_to db) (fun _ => True)).
  - intros env r db1 db2 _ Hs Hg.
    eapply grows_to_trans; [exact Hg|]. eapply served_grows. exact Hs.
  - apply Forall_forall. auto.
  - apply grows_to_refl.
Qed.

(** X2.  Transaction ids.  The id that the store gives to a new
    transaction is larger than every id in the log, so a log whose ids
    grow from entry to entry keeps that order under any run of requests,
    and no two entries ever share an id. *)
Theorem transaction_ids_increase
    (L : float) (str_upper : string -> string) (rs : list (Env * Request))
    (db : DB) :
  log_ids_increasing db ->
  log_ids_increasing (serve_all L str_upper rs db) /\
  NoDup (map Transaction.id (transactions (serve_all L str_upper rs db))).
Proof.
  intros Hi.
  assert (H : log_ids_increasing (serve_all L str_upper rs db)).
  { apply (serve_all_invariant L str_upper log_ids_increasing (fun _ => True)).
    - intros env r db1 db2 _ Hs. eapply served_log_ids. exact Hs.
    - apply Forall_forall. auto.
    - exact Hi. }
  split; [exact H|]. apply increasing_NoDup. exact H.
Qed.

Lemma transaction_ids_increase_witness :
  log_ids_increasing sample_store_after_transfer /\
  log_ids_increasing (serve_all default_limit upper sample_requests sample_store_after_transfer) /\
  NoDup (map Transaction.id
           (transactions (serve_all default_limit upper sample_requests sample_store_after_transfer))).
Proof.
  assert (H : log_ids_increasing sample_store_after_transfer).
  { split; [constructor | exact I]. }
  split; [exact H|].
  exact (transaction_ids_increase default_limit upper sample_requests _ H).
Defined.

(** X3.  Referential integrity of the log.  [transfer] writes a log
    entry only between two rows it has found, and no handler removes an
    account; so when both ends of every logged transaction are accounts
    of the store, they still are after any run of requests. *)
Theorem log_keeps_referring_to_accounts
    (L : float) (str_upper : string -> string) (rs : list (Env * Request))
    (db : DB) :
  log_refers_to_accounts db -> log_refers_to_accounts (serve_all L str_upper rs db).
Proof.
  intros Hrefs.
  apply (serve_all_invariant L str_upper log_refers_to_accounts (fun _ => True)).
  - intros env r db1 db2 _ Hs. eapply served_log_refs. exact Hs.
  - apply Forall_forall. auto.
  - exact Hrefs.
Qed.

Lemma log_keeps_referring_to_accounts_witness :
  log_refers_to_accounts sample_store_after_transfer /\
  log_refers_to_accounts (serve_all default_limit upper sample_requests sample_store_after_transfer).
Proof.
  assert (H : log_refers_to_accounts sample_store_after_transfer).
  { repeat constructor; eexists; vm_compute; reflexivity. }
  split; [exact H|].
  exact (log_keeps_referring_to_accounts default_limit upper sample_requests _ H).
Defined.

Lemma sample_store_keys_unique : account_keys_unique sample_store.
Proof.
  intros k1 k2 a1 a2 H1 H2 Heq.
  unfold sample_store, sample_db in H1, H2. cbn [accounts] in H1, H2.
  apply elem_of_list_to_map_2 in H1, H2.
  repeat (apply elem_of_cons in H1 as [H1|H1]); try (inversion H1; fail);
    repeat (apply elem_of_cons in H2 as [H2|H2]); try (inversion H2; fail);
    simplify_eq; try reflexivity; exfalso; vm_compute in Heq;
    destruct Heq; discriminate.
Qed.

(** X4.  Unique keys.  [create_account] is the only handler that adds
    a row; the row gets a primary key above every key in use, and the
    commit is refused when its [account_number] is already taken.  So a
    store in which no two rows share an [account_number] or a primary
    key [id] stays such a store under any run of requests. *)
Theorem account_keys_stay_unique
    (L : float) (str_upper : string -> string) (rs : list (Env * Request))
    (db : DB) :
  account_keys_unique db -> account_keys_unique (serve_all L str_upper rs db).
Proof.
  intros Hu.
  apply (serve_all_invariant L str_upper account_keys_unique (fun _ => True)).
  - intros env r db1 db2 _ Hs. eapply served_keys_unique. exact Hs.
  - apply Forall_forall. auto.
  - exact Hu.
Qed.

Lemma account_keys_stay_unique_witness :
  account_keys_unique sample_store /\
  account_keys_unique (serve_all default_limit upper sample_requests sample_store).
Proof.
  split; [exact sample_store_keys_unique|].
  exact (account_keys_stay_unique default_limit upper sample_requests sample_store
           sample_store_keys_unique).
Defined.

Lemma sample_db_nonneg (rows : list (Z * Account.t)) :
  Forall (fun r => is_float (Account.balance (snd r)) /\ nonneg (Account.balance (snd r))) rows ->
  balances_nonneg (sample_db rows).
Proof.
  intros Hrows k a Hk. cbn [sample_db accounts] in Hk.
  apply elem_of_list_to_map_2 in Hk.
  rewrite Forall_forall in Hrows. exact (Hrows (k, a) Hk).
Qed.

(** X5.  Balances stay non-negative along a run.  When every balance
    of the store is a non-negative binary64 number, it is so again after
    any run of requests that the validators let through and that opens
    no account with a negative balance: a transfer debits only what the
    balance covers, a new account starts with the balance asked for, and
    the other handlers do not write balances. *)
Theorem balances_stay_nonneg
    (L : float) (str_upper : string -> string) (rs : list (Env * Request))
    (db : DB) :
  Forall (fun er => request_in_range (snd er) /\ opens_nonneg (snd er)) rs ->
  balances_nonneg db ->
  balances_nonneg (serve_all L str_upper rs db).
Proof.
  intros Hrs Hn.
  apply (serve_all_invariant L str_upper balances_nonneg
           (fun r => request_in_range r /\ opens_nonneg r)).
  - intros env r db1 db2 [Hr Ho] Hs. eapply served_balances_nonneg; eassumption.
  - exact Hrs.
  - exact Hn.
Qed.

Lemma balances_stay_nonneg_witness :
  (Forall (fun er => request_in_range (snd er) /\ opens_nonneg (snd er)) sample_requests /\
   balances_nonneg sample_store) /\
  balances_nonneg (serve_all default_limit upper sample_requests sample_store).
Proof.
  assert (H1 : Forall (fun er => request_in_range (snd er) /\ opens_nonneg (snd er))
                 sample_requests).
  { repeat constructor; vm_compute; congruence. }
  assert (H2 : balances_nonneg sample_store).
  { apply sample_db_nonneg. repeat constructor; vm_compute; reflexivity. }
  split; [split; assumption|].
  exact (balances_stay_nonneg default_limit upper sample_requests sample_store H1 H2).
Defined.

(** X6.  Only transfers move money.  A run of requests with no
    transfer among them leaves the transaction log as it was and every
    existing account with the balance it had: opening an account,
    reading one and changing a status write neither a balance of an
    existing row nor the log. *)
Theorem only_transfers_move_money
    (L : float) (str_upper : string -> string) (rs : list (Env * Request))
    (db : DB) :
  Forall (fun er => is_transfer (snd er) = false) rs ->
  transactions (serve_all L str_upper rs db) = transactions db /\
  forall k a, accounts db !! k = Some a ->
    balance_of (serve_all L str_upper rs db) k = Some (Account.balance a).
Proof.
  intros Hrs.
  assert (H : transactions (serve_all L str_upper rs db) = transactions db /\
              forall k a, accounts db !! k = Some a ->
                exists a', accounts (serve_all L str_upper rs db) !! k = Some a' /\
                           Account.balance a' = Account.balance a).
  { apply (serve_all_invariant L str_upper
             (fun db' => transactions db' = transactions db /\
                forall k a, accounts db !! k = Some a ->
                  exists a', accounts db' !! k = Some a' /\
                             Account.balance a' = Account.balance a)
             (fun r => is_transfer r = false)).
    - intros env r db1 db2 Hr Hs [Hlog Hacc].
      destruct (served_keeps_money _ _ _ _ _ _ Hs Hr) as [Hlog' Hacc'].
      split; [congruence|]. intros k a Hk.
      destruct (Hacc k a Hk) as (a1 & Hk1 & Hb1).
      destruct (Hacc' k a1 Hk1) as (a2 & Hk2 & Hb2).
      exists a2. split; [exact Hk2 | congruence].
    - exact Hrs.
    - split; [reflexivity|]. eauto. }
  destruct H as [Hlog Hacc]. split; [exact Hlog|].
  intros k a Hk. destruct (Hacc k a Hk) as (a' & Hk' & Hb).
  unfold balance_of. rewrite Hk'. cbn. now rewrite Hb.
Qed.

Lemma only_transfers_move_money_witness :
  Forall (fun er => is_transfer (snd er) = false) sample_requests_no_transfer /\
  transactions (serve_all default_limit upper sample_requests_no_transfer sample_store_after_transfer)
    = transactions sample_store_after_transfer /\
  forall k a, accounts sample_store_after_transfer !! k = Some a ->
    balance_of (serve_all default_limit upper sample_requests_no_transfer sample_store_after_transfer) k
      = Some (Account.balance a).
Proof.
  assert (H : Forall (fun er => is_transfer (snd er) = false) sample_requests_no_transfer).
  { repeat constructor. }
  split; [exact H|].
  exact (only_transfers_move_money default_limit upper sample_requests_no_transfer
           sample_store_after_transfer H).
Defined.

(** X7.  Only [change_status] changes a status.  A run of requests with
    no status change among them leaves every existing account with the
    status it had: a transfer writes balances only, and a new account
    does not replace an existing row. *)
Theorem only_status_requests_change_status
    (L : float) (str_upper : string -> string) (rs : list (Env * Request))
    (db : DB) :
  Forall (fun er => is_status_change (snd er) = false) rs ->
  forall k a, accounts db !! k = Some a ->
    status_of (serve_all L str_upper rs db) k = Some (Account.status a).
Proof.
  intros Hrs.
  assert (H : forall k a, accounts db !! k = Some a ->
                exists a', accounts (serve_all L str_upper rs db) !! k = Some a' /\
                           Account.status a' = Account.status a).
  { apply (serve_all_invariant L str_upper
             (fun db' => forall k a, accounts db !! k = Some a ->
                  exists a', accounts db' !! k = Some a' /\
                             Account.status a' = Account.status a)
             (fun r => is_status_change r = false)).
    - intros env r db1 db2 Hr Hs Hacc k a Hk.
      destruct (Hacc k a Hk) as (a1 & Hk1 & Hb1).
      destruct (served_keeps_status _ _ _ _ _ _ Hs Hr k a1 Hk1) as (a2 & Hk2 & Hb2).
      exists a2. split; [exact Hk2 | congruence].
    - exact Hrs.
    - eauto. }
  intros k a Hk. destruct (H k a Hk) as (a' & Hk' & Hb).
  unfold status_of. rewrite Hk'. cbn. now rewrite Hb.
Qed.

Lemma only_status_requests_change_status_witness :
  (Forall (fun er => is_status_change (snd er) = false) sample_requests_no_status /\
   accounts sample_store !! 2 = Some (sample_account 2 "FROZEN" 75000)) /\
  status_of (serve_all default_limit upper sample_requests_no_status sample_store) 2
    = Some (Account.status (sample_account 2 "FROZEN" 75000)).
Proof.
  assert (H1 : Forall (fun er => is_status_change (snd er) = false) sample_requests_no_status).
  { repeat constructor. }
  assert (H2 : accounts sample_store !! 2 = Some (sample_account 2 "FROZEN" 75000)).
  { vm_compute. reflexivity. }
  split; [split; assumption|].
  exact (only_status_requests_change_status default_limit upper sample_requests_no_status
           sample_store H1 2 _ H2).
Defined.

(* ===================================================================== *)
(** ** Reading an account *)
(* ===================================================================== *)

(** X8.  [get_account] looks the row up by its [account_id]: it returns
    the stored row when there is one; when there is none it raises 404
    "account not found" for an id that is a 64-bit integer, and for any
    other id the [OverflowError] of the lookup, which cannot bind it.
    Either way the store is what it was, and the read takes no lock. *)
Theorem get_account_reads
    (account_id : Z) (db db' : DB) (o : Outcome Account.t) (evs : list Event) :
  call (get_account account_id) db = (o, db', evs) ->
  db' = db /\ locks_taken evs = [] /\ locks_held [] evs = [] /\
  match o with
  | Return acc => accounts db !! account_id = Some acc
  | Raise e =>
      accounts db !! account_id = None /\
      e = if in_int64 account_id then HTTPException 404 account_not_found
          else OverflowError
  end.
Proof.
  unfold call. rewrite get_account_run.
  destruct (accounts db !! account_id) as [acc|] eqn:Hk;
    intros [= <- <- <-]; cbn; auto.
Qed.

Lemma get_account_reads_witness :
  (snd (fst (call (get_account 4) sample_store)) = sample_store /\
   locks_taken (snd (call (get_account 4) sample_store)) = [] /\
   locks_held [] (snd (call (get_account 4) sample_store)) = [] /\
   match fst (fst (call (get_account 4) sample_store)) with
   | Return acc => accounts sample_store !! 4 = Some acc
   | Raise e =>
       accounts sample_store !! 4 = None /\
       e = if in_int64 4 then HTTPException 404 account_not_found else OverflowError
   end) /\
  (snd (fst (call (get_account (2 ^ 63)) sample_store)) = sample_store /\
   locks_taken (snd (call (get_account (2 ^ 63)) sample_store)) = [] /\
   locks_held [] (snd (call (get_account (2 ^ 63)) sample_store)) = [] /\
   match fst (fst (call (get_account (2 ^ 63)) sample_store)) with
   | Return acc => accounts sample_store !! (2 ^ 63) = Some acc
   | Raise e =>
       accounts sample_store !! (2 ^ 63) = None /\
       e = if in_int64 (2 ^ 63) then HTTPException 404 account_not_found
           else OverflowError
   end).
Proof.
  split.
  - exact (get_account_reads 4 sample_store _ _ _ (surjective_pairing_3 _)).
  - exact (get_account_reads (2 ^ 63) sample_store _ _ _ (surjective_pairing_3 _)).
Defined.

(* ===================================================================== *)
(** ** Changing a status *)
(* ===================================================================== *)

Lemma ascii_upper_idempotent c : ascii_upper (ascii_upper c) = ascii_upper c.
Proof. destruct c as [[] [] [] [] [] [] [] []]; reflexivity. Qed.

Lemma upper_idempotent s : upper (upper s) = upper s.
Proof.
  induction s as [|c s IH]; cbn [upper]; [reflexivity|].
  now rewrite ascii_upper_idempotent, IH.
Qed.

(** X9.  [change_status] on an account that exists, with a store that
    commits, returns the account id with the status of the request in
    upper case, as [str.upper()] gives it, and has written that status,
    and nothing else, to the row.  On an id that has no row it raises
    404 "account not found" when the id is a 64-bit integer and the
    [OverflowError] of the lookup when it is not, and takes no lock; a
    fault at commit surfaces as the error of the store.  When the call
    raises, the store is what it was.  In every case the other rows and
    the transaction log are as before and no lock is held in the end. *)
Theorem change_status_outcome
    (str_upper : string -> string) (env : Env) (account_id : Z)
    (req : StatusChangeRequest) (db db' : DB)
    (o : Outcome (Z * string)) (evs : list Event) :
  call (change_status str_upper env account_id req) db = (o, db', evs) ->
  transactions db' = transactions db /\
  (forall k, k <> account_id -> accounts db' !! k = accounts db !! k) /\
  locks_held [] evs = [] /\
  match o with
  | Return (k, st) =>
      k = account_id /\ st = str_upper (scr_status req) /\ commit_fails env = false /\
      exists acc acc', accounts db !! account_id = Some acc /\
        accounts db' !! account_id = Some acc' /\
        same_identity acc acc' /\
        Account.balance acc' = Account.balance acc /\
        Account.status acc' = st
  | Raise e =>
      db' = db /\
      (accounts db !! account_id = None /\ locks_taken evs = [] /\
       e = (if in_int64 account_id then HTTPException 404 account_not_found
            else OverflowError) \/
       e = SQLAlchemyError /\ is_Some (accounts db !! account_id) /\ commit_fails env = true)
  end.
Proof.
  unfold call. rewrite change_status_run.
  destruct (accounts db !! account_id) as [acc|] eqn:Hk.
  - cbv zeta. destruct (commit_fails env) eqn:Hc; intros [= <- <- <-];
      cbn [committed events unchanged].
    + split; [reflexivity|]. split; [reflexivity|].
      split; [exact (status_lock_released acc _ 0)|]. split; [reflexivity|].
      right. eauto.
    + cbn [restated accounts transactions]. split; [reflexivity|].
      split; [intros k Hne; now rewrite lookup_insert_ne by congruence|].
      split; [exact (status_lock_released acc _ 1)|].
      repeat split. exists acc, (Account.set_status acc (str_upper (scr_status req))).
      rewrite lookup_insert_eq. repeat split.
  - intros [= <- <- <-]; cbn [committed events unchanged].
    split; [reflexivity|]. split; [reflexivity|]. split; [reflexivity|].
    split; [reflexivity|]. left. repeat split.
Qed.

Lemma change_status_outcome_witness :
  transactions (snd (fst (call (change_status upper (sample_env sample_day 0) 1
                                  freeze_request) sample_store)))
    = transactions sample_store /\
  (forall k, k <> 1 ->
     accounts (snd (fst (call (change_status upper (sample_env sample_day 0) 1
                                 freeze_request) sample_store))) !! k
       = accounts sample_store !! k) /\
  locks_held [] (snd (call (change_status upper (sample_env sample_day 0) 1 freeze_request)
                        sample_store)) = [] /\
  match fst (fst (call (change_status upper (sample_env sample_day 0) 1 freeze_request)
                    sample_store)) with
  | Return (k, st) =>
      k = 1 /\ st = upper (scr_status freeze_request) /\
      commit_fails (sample_env sample_day 0) = false /\
      exists acc acc', accounts sample_store !! 1 = Some acc /\
        accounts (snd (fst (call (change_status upper (sample_env sample_day 0) 1
                                    freeze_request) sample_store))) !! 1 = Some acc' /\
        same_identity acc acc' /\
        Account.balance acc' = Account.balance acc /\
        Account.status acc' = st
  | Raise e =>
      snd (fst (call (change_status upper (sample_env sample_day 0) 1 freeze_request)
                  sample_store)) = sample_store /\
      (accounts sample_store !! 1 = None /\
       locks_taken (snd (call (change_status upper (sample_env sample_day 0) 1
                                 freeze_request) sample_store)) = [] /\
       e = (if in_int64 1 then HTTPException 404 account_not_found else OverflowError) \/
       e = SQLAlchemyError /\ is_Some (accounts sample_store !! 1) /\
       commit_fails (sample_env sample_day 0) = true)
  end.
Proof.
  exact (change_status_outcome upper (sample_env sample_day 0) 1 freeze_request
           sample_store _ _ _ (surjective_pairing_3 _)).
Defined.

Lemma restated_again account_id st acc db :
  restated account_id st (Account.set_status acc st) (restated account_id st acc db)
  = restated account_id st acc db.
Proof.
  unfold restated. cbn [accounts transactions].
  rewrite insert_insert_eq. reflexivity.
Qed.

(** X10.  Changing a status twice.  The status that [change_status] has
    returned is in upper case already ([str.upper()] changes nothing in
    a text that it has produced), so sending it back, or sending the
    same request again, writes the same row: the store after the second
    call is the store after the first. *)
Theorem change_status_twice
    (str_upper : string -> string) (env env' : Env) (account_id : Z)
    (req : StatusChangeRequest) (db db' : DB)
    (k : Z) (st : string) (evs : list Event) :
  (forall s, str_upper (str_upper s) = str_upper s) ->
  call (change_status str_upper env account_id req) db = (Return (k, st), db', evs) ->
  commit_fails env' = false ->
  call (change_status str_upper env' account_id {| scr_status := st |}) db'
    = (Return (account_id, st), db', [EvRelease; EvRelease]) /\
  call (change_status str_upper env' account_id req) db'
    = (Return (account_id, st), db', [EvRelease; EvRelease]).
Proof.
  intros Hidem. unfold call at 1. rewrite change_status_run.
  destruct (accounts db !! account_id) as [acc|] eqn:Hk; [|discriminate].
  cbv zeta. destruct (commit_fails env); [discriminate|].
  intros [= <- <- <- <-] Hc. cbn [committed].
  unfold call. rewrite !change_status_run, Hc.
  cbn [restated accounts]. rewrite lookup_insert_eq.
  cbv zeta. cbn [scr_status committed events]. rewrite Hidem.
  fold (restated account_id (str_upper (scr_status req)) acc db).
  unfold status_lock. cbn [Account.status Account.set_status].
  rewrite String.eqb_refl. cbn [app].
  rewrite restated_again. split; reflexivity.
Qed.

Lemma change_status_twice_witness :
  ((forall s, upper (upper s) = upper s) /\
   call (change_status upper (sample_env sample_day 0) 1 freeze_request) sample_store
     = (Return (1, "FROZEN"),
        restated 1 "FROZEN" (sample_account 1 "ACTIVE" 500000) sample_store,
        [EvLock WriteLock; EvRelease; EvRelease]) /\
   commit_fails (sample_env sample_day 5) = false) /\
  call (change_status upper (sample_env sample_day 5) 1 {| scr_status := "FROZEN" |})
       (restated 1 "FROZEN" (sample_account 1 "ACTIVE" 500000) sample_store)
    = (Return (1, "FROZEN"),
       restated 1 "FROZEN" (sample_account 1 "ACTIVE" 500000) sample_store,
       [EvRelease; EvRelease]) /\
  call (change_status upper (sample_env sample_day 5) 1 freeze_request)
       (restated 1 "FROZEN" (sample_account 1 "ACTIVE" 500000) sample_store)
    = (Return (1, "FROZEN"),
       restated 1 "FROZEN" (sample_account 1 "ACTIVE" 500000) sample_store,
       [EvRelease; EvRelease]).
Proof.
  assert (H1 : call (change_status upper (sample_env sample_day 0) 1 freeze_request)
                 sample_store
     = (Return (1, "FROZEN"),
        restated 1 "FROZEN" (sample_account 1 "ACTIVE" 500000) sample_store,
        [EvLock WriteLock; EvRelease; EvRelease])).
  { unfold call. rewrite change_status_run. reflexivity. }
  assert (H2 : commit_fails (sample_env sample_day 5) = false) by reflexivity.
  split; [split; [exact upper_idempotent | split; assumption]|].
  exact (change_status_twice upper (sample_env sample_day 0) (sample_env sample_day 5) 1
           freeze_request sample_store _ 1 "FROZEN" _ upper_idempotent H1 H2).
Defined.

(** X11.  An account that is not active neither sends nor receives.
    After [change_status] has set an account to a status other than
    [ACTIVE], every transfer out of it is refused with "source account
    status ... cannot transact", and every transfer into it from an
    active account with "destination account status ... cannot receive
    funds", whatever the amount, the balances and the limit; the store
    is left as it is, and the call has read both rows and taken no
    lock. *)
Theorem inactive_account_is_refused
    (L : float) (str_upper : string -> string) (env env' : Env) (account_id : Z)
    (req : StatusChangeRequest) (db db' : DB) (k : Z) (st : string) (evs : list Event) :
  call (change_status str_upper env account_id req) db = (Return (k, st), db', evs) ->
  st <> "ACTIVE" ->
  (forall out : TransferRequest,
     from_account out = account_id ->
     to_account out <> account_id ->
     is_Some (accounts db !! to_account out) ->
     call (transfer L env' out) db'
       = (Raise (HTTPException 400 (source_cannot_transact st)), db',
          [EvForUpdate (from_account out); EvForUpdate (to_account out); EvRelease])) /\
  (forall (into : TransferRequest) (src : Account.t),
     to_account into = account_id ->
     from_account into <> account_id ->
     accounts db !! from_account into = Some src ->
     Account.status src = "ACTIVE" ->
     call (transfer L env' into) db'
       = (Raise (HTTPException 400 (destination_cannot_receive st)), db',
          [EvForUpdate (from_account into); EvForUpdate (to_account into); EvRelease])).
Proof.
  unfold call at 1. rewrite change_status_run.
  destruct (accounts db !! account_id) as [acc|] eqn:Hk; [|discriminate].
  cbv zeta. destruct (commit_fails env); [discriminate|].
  intros [= <- <- <- <-] Hst. cbn [committed]. split.
  - intros out Hf Hne [dst Hd]. unfold call.
    rewrite (transfer_source_inactive L env' out _
               (Account.set_status acc (str_upper (scr_status req))) dst).
    + reflexivity.
    + congruence.
    + cbn [restated accounts]. rewrite Hf. apply lookup_insert_eq.
    + cbn [restated accounts]. rewrite lookup_insert_ne by congruence. exact Hd.
    + exact Hst.
  - intros into src Ht Hne Hs Hact. unfold call.
    rewrite (transfer_destination_inactive L env' into _ src
               (Account.set_status acc (str_upper (scr_status req)))).
    + reflexivity.
    + congruence.
    + cbn [restated accounts]. rewrite lookup_insert_ne by congruence. exact Hs.
    + cbn [restated accounts]. rewrite Ht. apply lookup_insert_eq.
    + exact Hact.
    + exact Hst.
Qed.

Lemma inactive_account_is_refused_witness :
  (call (change_status upper (sample_env sample_day 0) 3 freeze_request) sample_store
     = (Return (3, "FROZEN"),
        restated 3 "FROZEN" (sample_account 3 "ACTIVE" 100000) sample_store,
        [EvLock WriteLock; EvRelease; EvRelease]) /\
   "FROZEN" <> "ACTIVE") /\
  call (transfer default_limit (sample_env sample_day 9) closing_request)
       (restated 3 "FROZEN" (sample_account 3 "ACTIVE" 100000) sample_store)
    = (Raise (HTTPException 400 (source_cannot_transact "FROZEN")),
       restated 3 "FROZEN" (sample_account 3 "ACTIVE" 100000) sample_store,
       [EvForUpdate 3; EvForUpdate 1; EvRelease]) /\
  call (transfer default_limit (sample_env sample_day 9) sample_request)
       (restated 3 "FROZEN" (sample_account 3 "ACTIVE" 100000) sample_store)
    = (Raise (HTTPException 400 (destination_cannot_receive "FROZEN")),
       restated 3 "FROZEN" (sample_account 3 "ACTIVE" 100000) sample_store,
       [EvForUpdate 1; EvForUpdate 3; EvRelease]).
Proof.
  assert (H1 : call (change_status upper (sample_env sample_day 0) 3 freeze_request)
                 sample_store
     = (Return (3, "FROZEN"),
        restated 3 "FROZEN" (sample_account 3 "ACTIVE" 100000) sample_store,
        [EvLock WriteLock; EvRelease; EvRelease])).
  { unfold call. rewrite change_status_run. reflexivity. }
  assert (H2 : "FROZEN" <> "ACTIVE") by discriminate.
  split; [split; assumption|].
  destruct (inactive_account_is_refused default_limit upper (sample_env sample_day 0)
              (sample_env sample_day 9) 3 freeze_request sample_store _ 3 "FROZEN" _
              H1 H2) as [Hout Hinto].
  split.
  - apply (Hout closing_request); [reflexivity | discriminate | vm_compute; eauto].
  - apply (Hinto sample_request (sample_account 1 "ACTIVE" 500000));
      [reflexivity | discriminate | vm_compute; reflexivity | reflexivity].
Defined.

(* ===================================================================== *)
(** ** Opening an account *)
(* ===================================================================== *)

(** X12.  When [create_account] is refused.  The call returns exactly
    when the request carries an initial balance, the next account id and
    the customer id are 64-bit integers, the [account_number] is not yet
    in the table and the store commits.  A null initial balance raises
    [TypeError]; with an initial balance, an account id or a customer id
    that is no 64-bit integer raises the [OverflowError] of the driver,
    before anything is sent to the store; and a taken [account_number]
    or a fault at commit raises the error of the store.  Whenever the
    call raises, the store is what it was; no lock is held in the end,
    and a call that raises [TypeError] or [OverflowError] has taken
    none. *)
Theorem create_account_refusals
    (env : Env) (req : CreateAccountRequest) (db db' : DB)
    (o : Outcome (Z * float)) (evs : list Event) :
  call (create_account env req) db = (o, db', evs) ->
  ((exists r, o = Return r) <->
   is_Some (car_initial_balance req) /\
   in_int64 (new_account_id db) = true /\
   in_int64 (car_customer_id req) = true /\
   account_number_taken (car_account_number req) (accounts db) = false /\
   commit_fails env = false) /\
  (o = Raise TypeError <-> car_initial_balance req = None) /\
  (o = Raise OverflowError <->
   is_Some (car_initial_balance req) /\
   (in_int64 (new_account_id db) = false \/ in_int64 (car_customer_id req) = false)) /\
  (o = Raise SQLAlchemyError <->
   is_Some (car_initial_balance req) /\
   in_int64 (new_account_id db) = true /\
   in_int64 (car_customer_id req) = true /\
   (account_number_taken (car_account_number req) (accounts db) = true \/
    commit_fails env = true)) /\
  (forall e, o = Raise e -> db' = db) /\
  locks_held [] evs = [] /\
  (o = Raise TypeError \/ o = Raise OverflowError -> locks_taken evs = []).
Proof.
  unfold call. rewrite create_account_run.
  destruct (car_initial_balance req) as [cents|] eqn:Hb.
  - destruct (in_int64 (new_account_id db)) eqn:Hid;
      [destruct (in_int64 (car_customer_id req)) eqn:Hcust|]; cbn [andb];
      [destruct (commit_fails env) eqn:Hc; cbn [orb];
       [|destruct (account_number_taken _ _) eqn:Ht]| |];
      intros [= <- <- <-]; cbn [committed events unchanged written];
      (split; [split; [intros [r Hr]; try discriminate Hr; eauto 10
                      |intros (_ & H1 & H2 & H3 & H4); try discriminate; eauto]|]);
      (split; [split; discriminate|]);
      (split; [split; [intros H; try discriminate H; eauto
                      |intros (_ & [H|H]); try discriminate H; reflexivity]|]);
      (split; [split; [intros H; try discriminate H; eauto 10
                      |intros (_ & H1 & H2 & [H|H]); try discriminate; reflexivity]|]);
      (split; [intros e He; try discriminate He; reflexivity|]);
      (split; [reflexivity|]);
      intros [H|H]; try discriminate H; reflexivity.
  - intros [= <- <- <-]; cbn [committed events unchanged].
    split; [split; [intros [r Hr]; discriminate Hr | intros ([c Hc] & _); discriminate Hc]|].
    split; [split; auto|].
    split; [split; [discriminate | intros ([c Hc] & _); discriminate Hc]|].
    split; [split; [discriminate | intros ([c Hc] & _); discriminate Hc]|].
    repeat split; auto.
Qed.

Lemma create_account_refusals_witness :
  ((exists r, fst (fst (call (create_account (sample_env sample_day 0) opening_request)
                          sample_store)) = Return r) <->
   is_Some (car_initial_balance opening_request) /\
   in_int64 (new_account_id sample_store) = true /\
   in_int64 (car_customer_id opening_request) = true /\
   account_number_taken (car_account_number opening_request) (accounts sample_store) = false /\
   commit_fails (sample_env sample_day 0) = false) /\
  (fst (fst (call (create_account (sample_env sample_day 0) opening_request) sample_store))
     = Raise TypeError <-> car_initial_balance opening_request = None) /\
  (fst (fst (call (create_account (sample_env sample_day 0) opening_request) sample_store))
     = Raise OverflowError <->
   is_Some (car_initial_balance opening_request) /\
   (in_int64 (new_account_id sample_store) = false \/
    in_int64 (car_customer_id opening_request) = false)) /\
  (fst (fst (call (create_account (sample_env sample_day 0) opening_request) sample_store))
     = Raise SQLAlchemyError <->
   is_Some (car_initial_balance opening_request) /\
   in_int64 (new_account_id sample_store) = true /\
   in_int64 (car_customer_id opening_request) = true /\
   (account_number_taken (car_account_number opening_request) (accounts sample_store) = true \/
    commit_fails (sample_env sample_day 0) = true)) /\
  (forall e, fst (fst (call (create_account (sample_env sample_day 0) opening_request)
                         sample_store)) = Raise e ->
     snd (fst (call (create_account (sample_env sample_day 0) opening_request) sample_store))
       = sample_store) /\
  locks_held [] (snd (call (create_account (sample_env sample_day 0) opening_request)
                        sample_store)) = [] /\
  (fst (fst (call (create_account (sample_env sample_day 0) opening_request) sample_store))
     = Raise TypeError \/
   fst (fst (call (create_account (sample_env sample_day 0) opening_request) sample_store))
     = Raise OverflowError ->
   locks_taken (snd (call (create_account (sample_env sample_day 0) opening_request)
                       sample_store)) = []).
Proof.
  exact (create_account_refusals (sample_env sample_day 0) opening_request sample_store
           _ _ _ (surjective_pairing_3 _)).
Defined.

(** X13.  What a new account is.  When [create_account] returns, the
    [account_id] it returns was not in use and is one more than the
    largest [account_id] of the table (1 on an empty table); the table
    has gained one row under that id and every other row is as before;
    the transaction log is as before.  The new row is [ACTIVE], carries
    the customer, the account number and the type of the request, the
    currency of the request or, when the request has none, "INR", the
    balance returned, the time of the call, and a primary key above
    every primary key in use. *)
Theorem create_account_frame
    (env : Env) (req : CreateAccountRequest) (db db' : DB)
    (k : Z) (b : float) (evs : list Event) :
  call (create_account env req) db = (Return (k, b), db', evs) ->
  accounts db !! k = None /\
  (forall j, is_Some (accounts db !! j) -> j < k) /\
  (accounts db = ∅ -> k = 1) /\
  (accounts db <> ∅ -> is_Some (accounts db !! (k - 1))) /\
  (forall j, j <> k -> accounts db' !! j = accounts db !! j) /\
  transactions db' = transactions db /\
  exists acc,
    accounts db' !! k = Some acc /\
    Account.status acc = "ACTIVE" /\
    Account.balance acc = b /\
    Account.customer_id acc = car_customer_id req /\
    Account.account_number acc = car_account_number req /\
    Account.account_type acc = car_account_type req /\
    (forall c, car_currency req = Some c -> Account.currency acc = Some c) /\
    (car_currency req = None -> Account.currency acc = Some "INR") /\
    Account.created_at acc = utcnow env /\
    (forall j a, accounts db !! j = Some a -> Account.id a < Account.id acc).
Proof.
  unfold call. rewrite create_account_run.
  destruct (car_initial_balance req) as [cents|] eqn:Hb; [|discriminate].
  destruct (in_int64 _ && in_int64 _); [|discriminate].
  destruct (commit_fails env || account_number_taken _ _); [discriminate|].
  intros [= <- <- <- <-]. cbn [committed written opened accounts transactions].
  split; [apply new_account_id_unused|].
  split; [apply new_account_id_above|].
  split; [|split].
  - intros He. unfold new_account_id.
    pose proof (sql_max_account_id_spec (accounts db)) as H.
    destruct (sql_max_account_id (accounts db)) as [m|]; [|reflexivity].
    destruct H as [[a Ha] _]. rewrite He, lookup_empty in Ha. discriminate.
  - intros Hne. unfold new_account_id.
    pose proof (sql_max_account_id_spec (accounts db)) as H.
    destruct (sql_max_account_id (accounts db)) as [m|]; [|contradiction].
    destruct H as [Hm _]. cbn [from_option id]. now replace (m + 1 - 1) with m by lia.
  - split; [intros j Hj; now rewrite lookup_insert_ne by congruence|].
    split; [reflexivity|].
    exists (new_account env req cents db). rewrite lookup_insert_eq.
    cbn [new_account Account.status Account.balance Account.customer_id
         Account.account_number Account.account_type Account.currency
         Account.created_at Account.id].
    repeat split.
    + intros c ->. reflexivity.
    + intros ->. reflexivity.
    + intros j a Hj. eapply row_id_below_next. exact Hj.
Qed.

Lemma create_account_frame_witness :
  call (create_account (sample_env sample_day 0) second_opening_request) sample_store
    = (Return (4, float_of_cents 0),
       opened (sample_env sample_day 0) second_opening_request 0 sample_store,
       [EvLock WriteLock; EvRelease; EvRelease]) /\
  accounts sample_store !! 4 = None /\
  (forall j, is_Some (accounts sample_store !! j) -> j < 4) /\
  (accounts sample_store = ∅ -> 4 = 1) /\
  (accounts sample_store <> ∅ -> is_Some (accounts sample_store !! (4 - 1))) /\
  (forall j, j <> 4 ->
     accounts (opened (sample_env sample_day 0) second_opening_request 0 sample_store) !! j
       = accounts sample_store !! j) /\
  transactions (opened (sample_env sample_day 0) second_opening_request 0 sample_store)
    = transactions sample_store /\
  exists acc,
    accounts (opened (sample_env sample_day 0) second_opening_request 0 sample_store) !! 4
      = Some acc /\
    Account.status acc = "ACTIVE" /\
    Account.balance acc = float_of_cents 0 /\
    Account.customer_id acc = car_customer_id second_opening_request /\
    Account.account_number acc = car_account_number second_opening_request /\
    Account.account_type acc = car_account_type second_opening_request /\
    (forall c, car_currency second_opening_request = Some c ->
       Account.currency acc = Some c) /\
    (car_currency second_opening_request = None -> Account.currency acc = Some "INR") /\
    Account.created_at acc = utcnow (sample_env sample_day 0) /\
    (forall j a, accounts sample_store !! j = Some a -> Account.id a < Account.id acc).
Proof.
  assert (H : call (create_account (sample_env sample_day 0) second_opening_request)
                sample_store
    = (Return (4, float_of_cents 0),
       opened (sample_env sample_day 0) second_opening_request 0 sample_store,
       [EvLock WriteLock; EvRelease; EvRelease])).
  { unfold call. rewrite create_account_run. reflexivity. }
  split; [exact H|].
  exact (create_account_frame (sample_env sample_day 0) second_opening_request
           sample_store _ 4 (float_of_cents 0) _ H).
Defined.

(** X14.  Create, then read.  An account id that [create_account] has
    returned was unknown to [get_account] before the call (404) and is
    known after it: [get_account] then returns the row just written,
    with the balance that [create_account] returned, status [ACTIVE],
    and the customer name of the request or, when that is missing or
    empty, "Customer " followed by the customer id. *)
Theorem create_then_get
    (env : Env) (req : CreateAccountRequest) (db db' : DB)
    (k : Z) (b : float) (evs : list Event) :
  call (create_account env req) db = (Return (k, b), db', evs) ->
  call (get_account k) db = (Raise (HTTPException 404 account_not_found), db, [EvRelease]) /\
  exists acc,
    call (get_account k) db' = (Return acc, db', [EvRelease]) /\
    Account.balance acc = b /\
    Account.status acc = "ACTIVE" /\
    Account.account_number acc = car_account_number req /\
    (car_customer_name req = None \/ car_customer_name req = Some "" ->
     Account.customer_name acc = Some ("Customer " +:+ pretty (car_customer_id req))) /\
    (forall n, car_customer_name req = Some n -> n <> "" ->
     Account.customer_name acc = Some n).
Proof.
  unfold call at 1. rewrite create_account_run.
  destruct (car_initial_balance req) as [cents|] eqn:Hb; [|discriminate].
  destruct (in_int64 (new_account_id db)) eqn:Hid; [|discriminate].
  destruct (in_int64 (car_customer_id req)); [|discriminate]. cbn [andb].
  destruct (commit_fails env || account_number_taken _ _); [discriminate|].
  intros [= <- <- <- <-]. cbn [committed written]. unfold call.
  rewrite !get_account_run, new_account_id_unused. unfold missing. rewrite Hid.
  split; [reflexivity|].
  cbn [opened accounts]. rewrite lookup_insert_eq.
  exists (new_account env req cents db). split; [reflexivity|].
  cbn [new_account Account.balance Account.status Account.account_number
       Account.customer_name].
  repeat split.
  - intros [->| ->]; reflexivity.
  - intros n -> Hn. apply String.eqb_neq in Hn. now rewrite Hn.
Qed.

Lemma create_then_get_witness :
  call (create_account (sample_env sample_day 0) opening_request) sample_store
    = (Return (4, float_of_cents 2500),
       opened (sample_env sample_day 0) opening_request 2500 sample_store,
       [EvLock WriteLock; EvRelease; EvRelease]) /\
  call (get_account 4) sample_store
    = (Raise (HTTPException 404 account_not_found), sample_store, [EvRelease]) /\
  exists acc,
    call (get_account 4) (opened (sample_env sample_day 0) opening_request 2500 sample_store)
      = (Return acc, opened (sample_env sample_day 0) opening_request 2500 sample_store,
         [EvRelease]) /\
    Account.balance acc = float_of_cents 2500 /\
    Account.status acc = "ACTIVE" /\
    Account.account_number acc = car_account_number opening_request /\
    (car_customer_name opening_request = None \/ car_customer_name opening_request = Some "" ->
     Account.customer_name acc
       = Some ("Customer " +:+ pretty (car_customer_id opening_request))) /\
    (forall n, car_customer_name opening_request = Some n -> n <> "" ->
     Account.customer_name acc = Some n).
Proof.
  assert (H : call (create_account (sample_env sample_day 0) opening_request) sample_store
    = (Return (4, float_of_cents 2500),
       opened (sample_env sample_day 0) opening_request 2500 sample_store,
       [EvLock WriteLock; EvRelease; EvRelease])).
  { unfold call. rewrite create_account_run. reflexivity. }
  split; [exact H|].
  exact (create_then_get (sample_env sample_day 0) opening_request sample_store _
           4 (float_of_cents 2500) _ H).
Defined.

(** X15.  Account ids are handed out one after the other.  When two
    calls to [create_account] return, the second on the store that the
    first has left, the second account id is the first plus one. *)
Theorem create_account_ids_consecutive
    (env1 env2 : Env) (req1 req2 : CreateAccountRequest) (db db1 db2 : DB)
    (k1 k2 : Z) (b1 b2 : float) (evs1 evs2 : list Event) :
  call (create_account env1 req1) db = (Return (k1, b1), db1, evs1) ->
  call (create_account env2 req2) db1 = (Return (k2, b2), db2, evs2) ->
  k2 = k1 + 1 /\
  account_number_taken (car_account_number req2) (accounts db) = false /\
  car_account_number req2 <> car_account_number req1.
Proof.
  unfold call. rewrite !create_account_run.
  destruct (car_initial_balance req1) as [c1|] eqn:Hb1; [|discriminate].
  destruct (in_int64 _ && in_int64 _); [|discriminate].
  destruct (commit_fails env1 || account_number_taken _ _); [discriminate|].
  intros [= <- <- <- <-]. cbn [committed written].
  destruct (car_initial_balance req2) as [c2|] eqn:Hb2; [|discriminate].
  destruct (in_int64 _ && in_int64 _); [|discriminate].
  destruct (commit_fails env2); cbn [orb]; [discriminate|].
  destruct (account_number_taken _ (accounts (opened env1 req1 c1 db))) eqn:Ht; [discriminate|].
  intros [= <- <- <- <-].
  split; [apply new_account_id_opened|].
  assert (Hrow : forall j a, accounts (opened env1 req1 c1 db) !! j = Some a ->
            Account.account_number a <> car_account_number req2).
  { intros j a Hj. eapply account_number_not_taken; eassumption. }
  split.
  - destruct (account_number_taken (car_account_number req2) (accounts db)) eqn:Ht';
      [|reflexivity].
    exfalso. unfold account_number_taken in Ht'.
    apply existsb_exists in Ht' as ([j a] & Hin & Heq). cbn [snd] in Heq.
    apply String.eqb_eq in Heq. apply list_elem_of_In, elem_of_map_to_list in Hin.
    apply (Hrow j a); [|exact Heq].
    cbn [opened accounts]. rewrite lookup_insert_ne; [exact Hin|].
    intros <-. rewrite new_account_id_unused in Hin. discriminate.
  - intros Heq. apply (Hrow (new_account_id db) (new_account env1 req1 c1 db)).
    + cbn [opened accounts]. apply lookup_insert_eq.
    + cbn [new_account Account.account_number]. now symmetry.
Qed.

Lemma create_account_ids_consecutive_witness :
  (call (create_account (sample_env sample_day 0) opening_request) sample_store
     = (Return (4, float_of_cents 2500),
        opened (sample_env sample_day 0) opening_request 2500 sample_store,
        [EvLock WriteLock; EvRelease; EvRelease]) /\
   call (create_account (sample_env sample_day 7) second_opening_request)
        (opened (sample_env sample_day 0) opening_request 2500 sample_store)
     = (Return (5, float_of_cents 0),
        opened (sample_env sample_day 7) second_opening_request 0
          (opened (sample_env sample_day 0) opening_request 2500 sample_store),
        [EvLock WriteLock; EvRelease; EvRelease])) /\
  5 = 4 + 1 /\
  account_number_taken (car_account_number second_opening_request) (accounts sample_store)
    = false /\
  car_account_number second_opening_request <> car_account_number opening_request.
Proof.
  assert (H1 : call (create_account (sample_env sample_day 0) opening_request) sample_store
     = (Return (4, float_of_cents 2500),
        opened (sample_env sample_day 0) opening_request 2500 sample_store,
        [EvLock WriteLock; EvRelease; EvRelease])).
  { unfold call. rewrite create_account_run. reflexivity. }
  assert (H2 : call (create_account (sample_env sample_day 7) second_opening_request)
        (opened (sample_env sample_day 0) opening_request 2500 sample_store)
     = (Return (5, float_of_cents 0),
        opened (sample_env sample_day 7) second_opening_request 0
          (opened (sample_env sample_day 0) opening_request 2500 sample_store),
        [EvLock WriteLock; EvRelease; EvRelease])).
  { unfold call. rewrite create_account_run. reflexivity. }
  split; [split; assumption|].
  exact (create_account_ids_consecutive _ _ _ _ _ _ _ _ _ _ _ _ _ H1 H2).
Defined.

(* ===================================================================== *)
(** ** More on transfers *)
(* ===================================================================== *)

(** X16.  When a transfer goes through.  [transfer] returns exactly when
    the two account ids differ, both rows exist, both are [ACTIVE], the
    source balance is not below the amount, the sum already sent today
    plus the amount is not above the limit, and the store commits: there
    is no other ground for refusal. *)
Theorem transfer_returns_iff (L : float) (env : Env) (req : TransferRequest) (db : DB) :
  (exists r db' evs, call (transfer L env req) db = (Return r, db', evs)) <->
  commit_fails env = false /\ exists src dst, passes_checks L env req db src dst.
Proof.
  unfold call. split.
  - intros (r & db' & evs & H).
    destruct (transfer L env req (new_session db)) as [o s'] eqn:Hrun.
    injection H as -> _ _.
    apply transfer_returns_inv in Hrun as (src & dst & Hp & Hc & _).
    split; [exact Hc|]. now exists src, dst.
  - intros (Hc & src & dst & Hp).
    rewrite (transfer_returns L env req db src dst Hp Hc). eauto.
Qed.

(** X17.  Read after write.  Right after a transfer has returned,
    [get_account] on the source returns its row with the balance less
    the amount, and on the destination its row with the balance plus
    the amount (both in binary64 arithmetic, for the amount that the
    response carries), every other column as before; and reading
    changes nothing. *)
Theorem transfer_then_get
    (L : float) (env : Env) (req : TransferRequest) (db db' : DB)
    (r : TransferResponse) (evs : list Event) :
  call (transfer L env req) db = (Return r, db', evs) ->
  exists src dst,
    call (get_account (from_account req)) db = (Return src, db, [EvRelease]) /\
    call (get_account (to_account req)) db = (Return dst, db, [EvRelease]) /\
    call (get_account (from_account req)) db'
      = (Return (Account.set_balance src (fsub (Account.balance src) (resp_amount r))),
         db', [EvRelease]) /\
    call (get_account (to_account req)) db'
      = (Return (Account.set_balance dst (fadd (Account.balance dst) (resp_amount r))),
         db', [EvRelease]).
Proof.
  intros Hcall. unfold call in Hcall.
  destruct (transfer L env req (new_session db)) as [o s'] eqn:Hrun.
  injection Hcall as -> <- <-.
  apply transfer_returns_inv in Hrun as (src & dst & (Hne & Hs & Hd & _) & _ & -> & ->).
  exists src, dst. unfold call. rewrite !get_account_run, Hs, Hd.
  cbn [committed moved accounts resp_amount].
  rewrite lookup_insert_eq, lookup_insert_ne, lookup_insert_eq by congruence.
  repeat split.
Qed.

Lemma transfer_then_get_witness :
  call (transfer default_limit (sample_env sample_day 0) sample_request) sample_store
    = (Return {| resp_from_account := 1; resp_to_account := 3;
                 resp_amount := float_of_cents 10000 |},
       sample_store_after_transfer,
       [EvForUpdate 1; EvForUpdate 3; EvLock WriteLock; EvRelease; EvRelease]) /\
  exists src dst,
    call (get_account (from_account sample_request)) sample_store
      = (Return src, sample_store, [EvRelease]) /\
    call (get_account (to_account sample_request)) sample_store
      = (Return dst, sample_store, [EvRelease]) /\
    call (get_account (from_account sample_request)) sample_store_after_transfer
      = (Return (Account.set_balance src
                   (fsub (Account.balance src)
                         (resp_amount {| resp_from_account := 1; resp_to_account := 3;
                                         resp_amount := float_of_cents 10000 |}))),
         sample_store_after_transfer, [EvRelease]) /\
    call (get_account (to_account sample_request)) sample_store_after_transfer
      = (Return (Account.set_balance dst
                   (fadd (Account.balance dst)
                         (resp_amount {| resp_from_account := 1; resp_to_account := 3;
                                         resp_amount := float_of_cents 10000 |}))),
         sample_store_after_transfer, [EvRelease]).
Proof.
  assert (H : call (transfer default_limit (sample_env sample_day 0) sample_request)
                sample_store
    = (Return {| resp_from_account := 1; resp_to_account := 3;
                 resp_amount := float_of_cents 10000 |},
       sample_store_after_transfer,
       [EvForUpdate 1; EvForUpdate 3; EvLock WriteLock; EvRelease; EvRelease])).
  { unfold call.
    rewrite (transfer_returns default_limit (sample_env sample_day 0) sample_request
               sample_store (sample_account 1 "ACTIVE" 500000)
               (sample_account 3 "ACTIVE" 100000)); [reflexivity| |reflexivity].
    repeat split; try discriminate; vm_compute; reflexivity. }
  split; [exact H|].
  exact (transfer_then_get default_limit (sample_env sample_day 0) sample_request
           sample_store _ _ _ H).
Defined.

Lemma flt_irrefl x : flt x x = false.
Proof.
  unfold flt, SFltb, SFcompare.
  destruct x as [s|s| |s m e]; try destruct s; try reflexivity;
    rewrite Z.compare_refl, (compare_cont_Eq m m), Pos.compare_refl; reflexivity.
Qed.

Lemma fsub_diag x : is_finite x -> fsub x x = fzero.
Proof.
  unfold fsub, SFsub. destruct x as [s|s| |s m e]; try contradiction; intros _.
  - destruct s; reflexivity.
  - destruct (shl_align m e (Z.min e e)) as [m' e']. cbn [fst].
    rewrite Z.sub_diag. reflexivity.
Qed.

(** X18.  Emptying an account.  The funds test refuses only a balance
    below the amount, so a transfer of exactly the balance goes through
    when the other tests pass, and the source is left with a balance of
    [0.0]. *)
Theorem transfer_whole_balance
    (L : float) (env : Env) (req : TransferRequest) (db : DB) (src dst : Account.t) :
  amount_in_range req ->
  from_account req <> to_account req ->
  accounts db !! from_account req = Some src ->
  accounts db !! to_account req = Some dst ->
  Account.status src = "ACTIVE" ->
  Account.status dst = "ACTIVE" ->
  Account.balance src = float_of_cents (Zpos (amount req)) ->
  fgt (fadd (transferred_today (today env) (from_account req) (transactions db))
            (float_of_cents (Zpos (amount req)))) L = false ->
  commit_fails env = false ->
  exists r db' evs,
    call (transfer L env req) db = (Return r, db', evs) /\
    balance_of db' (from_account req) = Some fzero.
Proof.
  intros Hr Hne Hs Hd Hss Hds Hb Hl Hc.
  destruct (amount_float req Hr) as (_ & _ & Fa).
  assert (Hp : passes_checks L env req db src dst).
  { repeat split; try assumption. rewrite Hb. apply flt_irrefl. }
  unfold call. rewrite (transfer_returns L env req db src dst Hp Hc).
  eexists _, _, _. split; [reflexivity|].
  unfold balance_of. cbn [committed moved accounts].
  rewrite lookup_insert_ne, lookup_insert_eq by congruence.
  cbn. rewrite Hb, fsub_diag; [reflexivity | exact Fa].
Qed.

Lemma transfer_whole_balance_witness :
  (amount_in_range closing_request /\
   from_account closing_request <> to_account closing_request /\
   accounts sample_store !! from_account closing_request
     = Some (sample_account 3 "ACTIVE" 100000) /\
   accounts sample_store !! to_account closing_request
     = Some (sample_account 1 "ACTIVE" 500000) /\
   Account.status (sample_account 3 "ACTIVE" 100000) = "ACTIVE" /\
   Account.status (sample_account 1 "ACTIVE" 500000) = "ACTIVE" /\
   Account.balance (sample_account 3 "ACTIVE" 100000)
     = float_of_cents (Zpos (amount closing_request)) /\
   fgt (fadd (transferred_today (today (sample_env sample_day 0))
                (from_account closing_request) (transactions sample_store))
             (float_of_cents (Zpos (amount closing_request)))) default_limit = false /\
   commit_fails (sample_env sample_day 0) = false) /\
  exists r db' evs,
    call (transfer default_limit (sample_env sample_day 0) closing_request) sample_store
      = (Return r, db', evs) /\
    balance_of db' (from_account closing_request) = Some fzero.
Proof.
  assert (H1 : amount_in_range closing_request) by (vm_compute; reflexivity).
  assert (H2 : from_account closing_request <> to_account closing_request) by discriminate.
  assert (H3 : accounts sample_store !! from_account closing_request
                 = Some (sample_account 3 "ACTIVE" 100000)) by (vm_compute; reflexivity).
  assert (H4 : accounts sample_store !! to_account closing_request
                 = Some (sample_account 1 "ACTIVE" 500000)) by (vm_compute; reflexivity).
  assert (H5 : Account.status (sample_account 3 "ACTIVE" 100000) = "ACTIVE") by reflexivity.
  assert (H6 : Account.status (sample_account 1 "ACTIVE" 500000) = "ACTIVE") by reflexivity.
  assert (H7 : Account.balance (sample_account 3 "ACTIVE" 100000)
                 = float_of_cents (Zpos (amount closing_request))) by reflexivity.
  assert (H8 : fgt (fadd (transferred_today (today (sample_env sample_day 0))
                (from_account closing_request) (transactions sample_store))
             (float_of_cents (Zpos (amount closing_request)))) default_limit = false)
    by (vm_compute; reflexivity).
  assert (H9 : commit_fails (sample_env sample_day 0) = false) by reflexivity.
  split; [repeat split; assumption|].
  exact (transfer_whole_balance default_limit (sample_env sample_day 0) closing_request
           sample_store _ _ H1 H2 H3 H4 H5 H6 H7 H8 H9).
Defined.

(** X19.  A limit that is not a number.  [DAILY_LIMIT] is whatever
    [float] makes of the environment variable; when that is NaN, the
    test [transferred_today + amt > DAILY_LIMIT] is false for every
    sum, so no transfer is ever refused for the daily limit, and a
    transfer that passes the other tests goes through whatever the
    account has sent today. *)
Theorem nan_limit_never_refuses
    (env : Env) (req : TransferRequest) (db db' : DB)
    (o : Outcome TransferResponse) (evs : list Event) :
  call (transfer S754_nan env req) db = (o, db', evs) ->
  (forall c l a x, o <> Raise (HTTPException c (daily_limit_exceeded l a x))) /\
  (forall src dst,
     from_account req <> to_account req ->
     accounts db !! from_account req = Some src ->
     accounts db !! to_account req = Some dst ->
     Account.status src = "ACTIVE" ->
     Account.status dst = "ACTIVE" ->
     flt (Account.balance src) (float_of_cents (Zpos (amount req))) = false ->
     commit_fails env = false ->
     exists r, o = Return r).
Proof.
  intros Hcall. split.
  - intros c l a x ->. unfold call in Hcall.
    destruct (transfer S754_nan env req (new_session db)) as [o s'] eqn:Hrun.
    injection Hcall as -> _ _.
    handler_cases.
  - intros src dst Hne Hs Hd Hss Hds Hf Hc.
    assert (Hp : passes_checks S754_nan env req db src dst).
    { repeat split; assumption. }
    unfold call in Hcall.
    rewrite (transfer_returns S754_nan env req db src dst Hp Hc) in Hcall.
    injection Hcall as <- _ _. eauto.
Qed.

Lemma nan_limit_never_refuses_witness :
  (forall c l a x,
     fst (fst (call (transfer S754_nan (sample_env sample_day 0) closing_request)
                 sample_store))
       <> Raise (HTTPException c (daily_limit_exceeded l a x))) /\
  (forall src dst,
     from_account closing_request <> to_account closing_request ->
     accounts sample_store !! from_account closing_request = Some src ->
     accounts sample_store !! to_account closing_request = Some dst ->
     Account.status src = "ACTIVE" ->
     Account.status dst = "ACTIVE" ->
     flt (Account.balance src) (float_of_cents (Zpos (amount closing_request))) = false ->
     commit_fails (sample_env sample_day 0) = false ->
     exists r,
       fst (fst (call (transfer S754_nan (sample_env sample_day 0) closing_request)
                   sample_store)) = Return r).
Proof.
  exact (nan_limit_never_refuses (sample_env sample_day 0) closing_request sample_store
           _ _ _ (surjective_pairing_3 _)).
Defined.

(* ===================================================================== *)
(** ** The daily sum *)
(* ===================================================================== *)

Lemma transferred_today_skip day k log tx :
  sent_in_window k (datetime_combine day time_min) (datetime_combine day time_max) tx = false ->
  transferred_today day k (log ++ [tx]) = transferred_today day k log.
Proof.
  intros H. unfold transferred_today, sent_today.
  rewrite filter_bool_app. cbn [List.filter]. rewrite H, app_nil_r. reflexivity.
Qed.

(** X20.  Receiving does not count.  The daily sum of an account adds up
    what that account has sent: after a transfer has returned, the
    daily sum of every account other than the sender, the destination
    among them, is what it was, on every day. *)
Theorem daily_sum_of_others_unchanged
    (L : float) (env : Env) (req : TransferRequest) (db db' : DB)
    (r : TransferResponse) (evs : list Event) :
  call (transfer L env req) db = (Return r, db', evs) ->
  forall day k, k <> from_account req ->
    transferred_today day k (transactions db') = transferred_today day k (transactions db).
Proof.
  intros Hcall day k Hk. unfold call in Hcall.
  destruct (transfer L env req (new_session db)) as [o s'] eqn:Hrun.
  injection Hcall as -> <- <-.
  apply transfer_returns_inv in Hrun as (src & dst & _ & _ & _ & ->).
  cbn [committed moved transactions]. apply transferred_today_skip.
  unfold sent_in_window. cbn [Transaction.from_account].
  assert (Hne : (from_account req =? k) = false) by (apply Z.eqb_neq; congruence).
  now rewrite Hne.
Qed.

Lemma daily_sum_of_others_unchanged_witness :
  (call (transfer default_limit (sample_env sample_day 0) sample_request) sample_store
     = (Return {| resp_from_account := 1; resp_to_account := 3;
                  resp_amount := float_of_cents 10000 |},
        sample_store_after_transfer,
        [EvForUpdate 1; EvForUpdate 3; EvLock WriteLock; EvRelease; EvRelease]) /\
   3 <> from_account sample_request) /\
  transferred_today sample_day 3 (transactions sample_store_after_transfer)
    = transferred_today sample_day 3 (transactions sample_store).
Proof.
  assert (H : call (transfer default_limit (sample_env sample_day 0) sample_request)
                sample_store
    = (Return {| resp_from_account := 1; resp_to_account := 3;
                 resp_amount := float_of_cents 10000 |},
       sample_store_after_transfer,
       [EvForUpdate 1; EvForUpdate 3; EvLock WriteLock; EvRelease; EvRelease])).
  { unfold call.
    rewrite (transfer_returns default_limit (sample_env sample_day 0) sample_request
               sample_store (sample_account 1 "ACTIVE" 500000)
               (sample_account 3 "ACTIVE" 100000)); [reflexivity| |reflexivity].
    repeat split; try discriminate; vm_compute; reflexivity. }
  assert (H2 : 3 <> from_account sample_request) by discriminate.
  split; [split; assumption|].
  exact (daily_sum_of_others_unchanged default_limit (sample_env sample_day 0)
           sample_request sample_store _ _ _ H sample_day 3 H2).
Defined.

Lemma sent_in_window_other_day day k tx :
  dt_date (Transaction.created_at tx) <> day ->
  sent_in_window k (datetime_combine day time_min) (datetime_combine day time_max) tx = false.
Proof.
  intros Hd. unfold sent_in_window, datetime_le, datetime_combine. cbn [dt_date dt_micro].
  destruct (Z.lt_trichotomy (dt_date (Transaction.created_at tx)) day) as [Hlt|[Heq|Hgt]].
  - assert (H1 : (day <? dt_date (Transaction.created_at tx)) = false)
      by (apply Z.ltb_ge; lia).
    assert (H2 : (day =? dt_date (Transaction.created_at tx)) = false)
      by (apply Z.eqb_neq; lia).
    rewrite H1, H2. cbn [orb andb]. now rewrite andb_false_r.
  - contradiction.
  - assert (H1 : (dt_date (Transaction.created_at tx) <? day) = false)
      by (apply Z.ltb_ge; lia).
    assert (H2 : (dt_date (Transaction.created_at tx) =? day) = false)
      by (apply Z.eqb_neq; lia).
    rewrite H1, H2. cbn. apply andb_false_r.
Qed.

(** X23.  A new day starts at zero.  [todays_transferred_sum] counts
    only rows whose sender is the account and whose timestamp lies on
    the day that [date.today()] gives: when the account has sent nothing
    stamped with that day, the sum is [0.0] whatever it has sent on
    other days and whatever other accounts have sent; and the session is
    left as it was. *)
Theorem todays_transferred_sum_other_days (env : Env) (from_account_id : Z) (s : Session) :
  (forall tx, tx ∈ transactions (pending s) ->
     Transaction.from_account tx = from_account_id ->
     dt_date (Transaction.created_at tx) <> today env) ->
  todays_transferred_sum env from_account_id s = (Return fzero, s).
Proof.
  intros Hlog. unfold todays_transferred_sum. f_equal. f_equal.
  unfold transferred_today, sent_today.
  assert (Hnone : List.filter
            (sent_in_window from_account_id (datetime_combine (today env) time_min)
               (datetime_combine (today env) time_max)) (transactions (pending s)) = []).
  { induction (transactions (pending s)) as [|tx log IH]; [reflexivity|].
    cbn [List.filter].
    assert (Hout : sent_in_window from_account_id (datetime_combine (today env) time_min)
                     (datetime_combine (today env) time_max) tx = false).
    { destruct (decide (Transaction.from_account tx = from_account_id)) as [Hf|Hf].
      - apply sent_in_window_other_day. apply Hlog; [left|exact Hf].
      - unfold sent_in_window. apply Z.eqb_neq in Hf. now rewrite Hf. }
    rewrite Hout. apply IH. intros tx' Hin. apply Hlog. now right. }
  rewrite Hnone. reflexivity.
Qed.

Lemma todays_transferred_sum_other_days_witness :
  (forall tx, tx ∈ transactions (pending (new_session sample_store_after_transfer)) ->
     Transaction.from_account tx = 1 ->
     dt_date (Transaction.created_at tx) <> today (sample_env (sample_day + 1) 0)) /\
  todays_transferred_sum (sample_env (sample_day + 1) 0) 1
    (new_session sample_store_after_transfer)
    = (Return fzero, new_session sample_store_after_transfer).
Proof.
  assert (H : forall tx,
            tx ∈ transactions (pending (new_session sample_store_after_transfer)) ->
            Transaction.from_account tx = 1 ->
            dt_date (Transaction.created_at tx) <> today (sample_env (sample_day + 1) 0)).
  { intros tx Hin _. apply list_elem_of_singleton in Hin. subst tx. discriminate. }
  split; [exact H|].
  exact (todays_transferred_sum_other_days (sample_env (sample_day + 1) 0) 1
           (new_session sample_store_after_transfer) H).
Defined.

(* ===================================================================== *)
(** ** Locks of a request *)
(* ===================================================================== *)





(* ===================================================================== *)
(** ** Freezing and reactivating *)
(* ===================================================================== *)

Lemma set_status_back acc st :
  Account.set_status (Account.set_status acc st) (Account.status acc) = acc.
Proof. destruct acc. reflexivity. Qed.

(** X25.  Freeze, then reactivate.  [change_status] compares nothing
    and keeps no history: setting an [ACTIVE] account to any status and
    then to a status that [str.upper()] turns into [ACTIVE], whatever
    the case it is sent in, leaves the store exactly as it was before
    the two calls, so that every later request is served as if neither
    had been made. *)
Theorem freeze_then_reactivate
    (L : float) (str_upper : string -> string) (env1 env2 : Env) (account_id : Z)
    (req1 req2 : StatusChangeRequest) (db : DB) (acc : Account.t) :
  accounts db !! account_id = Some acc ->
  Account.status acc = "ACTIVE" ->
  str_upper (scr_status req2) = "ACTIVE" ->
  commit_fails env1 = false ->
  commit_fails env2 = false ->
  status_of (serve L str_upper env1 (PostStatus account_id req1) db) account_id
    = Some (str_upper (scr_status req1)) /\
  serve L str_upper env2 (PostStatus account_id req2)
        (serve L str_upper env1 (PostStatus account_id req1) db)
    = db.
Proof.
  intros Hk Hact Hup Hc1 Hc2. cbn [serve]. unfold call.
  rewrite (change_status_run str_upper env1), Hk, Hc1. cbv zeta.
  cbn [fst snd committed].
  split.
  - unfold status_of. cbn [restated accounts]. now rewrite lookup_insert_eq.
  - rewrite change_status_run. cbn [restated accounts]. rewrite lookup_insert_eq, Hc2.
    cbv zeta. cbn [fst snd committed]. unfold restated. cbn [accounts transactions].
    rewrite insert_insert_eq, Hup, <- Hact, set_status_back, insert_id by exact Hk.
    destruct db. reflexivity.
Qed.

Lemma freeze_then_reactivate_witness :
  (accounts sample_store !! 1 = Some (sample_account 1 "ACTIVE" 500000) /\
   Account.status (sample_account 1 "ACTIVE" 500000) = "ACTIVE" /\
   upper (scr_status reactivate_request) = "ACTIVE" /\
   commit_fails (sample_env sample_day 0) = false /\
   commit_fails (sample_env sample_day 9) = false) /\
  status_of (serve default_limit upper (sample_env sample_day 0)
               (PostStatus 1 freeze_request) sample_store) 1
    = Some (upper (scr_status freeze_request)) /\
  serve default_limit upper (sample_env sample_day 9) (PostStatus 1 reactivate_request)
        (serve default_limit upper (sample_env sample_day 0) (PostStatus 1 freeze_request)
               sample_store)
    = sample_store.
Proof.
  assert (H1 : accounts sample_store !! 1 = Some (sample_account 1 "ACTIVE" 500000))
    by (vm_compute; reflexivity).
  assert (H2 : Account.status (sample_account 1 "ACTIVE" 500000) = "ACTIVE") by reflexivity.
  assert (H3 : upper (scr_status reactivate_request) = "ACTIVE") by reflexivity.
  assert (H4 : commit_fails (sample_env sample_day 0) = false) by reflexivity.
  assert (H5 : commit_fails (sample_env sample_day 9) = false) by reflexivity.
  split; [repeat split; assumption|].
  exact (freeze_then_reactivate default_limit upper (sample_env sample_day 0)
           (sample_env sample_day 9) 1 freeze_request reactivate_request sample_store
           _ H1 H2 H3 H4 H5).
Defined.
